(** * A shallow embedding of the Playwright/TypeScript test framework

    The development follows the repository's classes:
    - [Reporter]        the custom reporter ([CustomReporter]);
    - [BasePage]        the page-object interaction helpers;
    - [TestDataManager] the test-data loader and its getters;
    - [ApiClient]       the API client (response processing, value
                        extraction, context life cycle) and the fixtures
                        that own it;
    - [Accessibility]   the overall score of the accessibility report.

    Conventions.  JavaScript counters are natural numbers and durations
    are integers (milliseconds).  The success rate of the reporter is
    computed on binary64 numbers ([Binary64]); the mean duration and the
    accessibility score are exact rationals, with their binary64 value
    looked at where it could matter.  Code that can throw returns a
    [result]; [try]/[catch] is [try_catch].  Asynchronous code whose calls
    can overlap is a sequence of steps, each running up to an [await].
    Calls of the logger do not touch the state modelled here and are left
    out, except where a helper's trace records them. *)

From Stdlib Require Import ZArith QArith Qround Qabs DecimalString Floats.
From stdpp Require Import gmap strings list.

Local Open Scope string_scope.

(** ** Exceptions *)

Inductive result (A : Type) : Type :=
| Ok (a : A)
| Throw (e : string).
Arguments Ok {A} a.
Arguments Throw {A} e.

#[global] Instance result_ret : MRet result := fun A a => Ok a.
#[global] Instance result_bind : MBind result := fun A B k r =>
  match r with
  | Ok a => k a
  | Throw e => Throw e
  end.

#[global] Instance result_fmap : FMap result := fun A B f r =>
  match r with
  | Ok a => Ok (f a)
  | Throw e => Throw e
  end.

Definition try_catch {A} (body : result A) (handler : string → result A) : result A :=
  match body with
  | Ok a => Ok a
  | Throw e => handler e
  end.

(** [`${n}`] for an integer-valued number. *)
Definition show_Z (z : Z) : string := NilZero.string_of_int (Z.to_int z).

(** [String.prototype.repeat] *)
Fixpoint repeat_string (s : string) (n : nat) : string :=
  match n with
  | O => ""
  | S n' => s ++ repeat_string s n'
  end.

(** [a || b] on strings that may be [undefined]: the empty string is falsy. *)
Definition or_else (a : option string) (b : string) : string :=
  match a with
  | Some s => if String.eqb s "" then b else s
  | None => b
  end.

(** ** Numbers

    A JavaScript number is a finite value, [NaN] or an infinity.  Finite
    values are exact rationals (the sign of zero is not tracked). *)
Module Number.

Inductive number :=
| Fin (q : Q)
| NaN
| Inf (pos : bool).

Definition of_nat (n : nat) : number := Fin (inject_Z (Z.of_nat n)).

Definition is_neg (q : Q) : bool := negb (Qle_bool 0 q).

(** [a / b] *)
Definition div (a b : number) : number :=
  match a, b with
  | NaN, _ | _, NaN => NaN
  | Inf _, Inf _ => NaN
  | Inf s, Fin y => Inf (xorb s (is_neg y))
  | Fin _, Inf _ => Fin 0
  | Fin x, Fin y =>
      if Qeq_bool y 0
      then (if Qeq_bool x 0 then NaN else Inf (negb (is_neg x)))
      else Fin (x / y)%Q
  end.

(** [a * b] *)
Definition mul (a b : number) : number :=
  match a, b with
  | NaN, _ | _, NaN => NaN
  | Inf s, Inf t => Inf (negb (xorb s t))
  | Inf s, Fin y | Fin y, Inf s =>
      if Qeq_bool y 0 then NaN else Inf (xorb s (is_neg y))
  | Fin x, Fin y => Fin (x * y)%Q
  end.

(** [Math.round]: the nearest integer, ties towards +infinity. *)
Definition round (a : number) : number :=
  match a with
  | Fin x => Fin (inject_Z (Qfloor (x + (1 # 2))%Q))
  | other => other
  end.

(** [Number.prototype.toFixed(digits)], for magnitudes below 1e21: the
    integer [n] nearest to [x * 10^digits] (the larger one on a tie),
    printed with a decimal point before its last [digits] digits. *)
Definition toFixed (digits : nat) (a : number) : string :=
  match a with
  | NaN => "NaN"
  | Inf true => "Infinity"
  | Inf false => "-Infinity"
  | Fin x =>
      let scale := (10 ^ Z.of_nat digits)%Z in
      let n := Qfloor (Qabs x * inject_Z scale + (1 # 2))%Q in
      let fraction := show_Z (n mod scale) in
      (if is_neg x then "-" else "")
      ++ show_Z (n / scale)
      ++ (if (digits =? 0)%nat then ""
          else "." ++ repeat_string "0" (digits - String.length fraction) ++ fraction)
  end.

(** Numeric equality of two numbers ([NaN] equals nothing). *)
Definition eqb (a b : number) : bool :=
  match a, b with
  | Fin x, Fin y => Qeq_bool x y
  | Inf s, Inf t => Bool.eqb s t
  | _, _ => false
  end.

End Number.

(** ** Binary64 numbers

    The arithmetic of the language on the numbers the reporter computes
    with, as the hardware does it. *)
Module Binary64.

(** The number nearest to an integer (exact below 2^53); [negative] is
    the sign of a zero result. *)
Definition of_Z (negative : bool) (z : Z) : float :=
  SF2Prim (binary_normalize prec emax z 0 negative).

Definition of_nat (n : nat) : float := of_Z false (Z.of_nat n).

(** The value of a binary64 number, exactly. *)
Definition exact (x : float) : Number.number :=
  match Prim2SF x with
  | S754_zero _ => Number.Fin 0
  | S754_infinity negative => Number.Inf (negb negative)
  | S754_nan => Number.NaN
  | S754_finite negative m e =>
      Number.Fin (inject_Z (if negative then Z.neg m else Z.pos m) * 2 ^ e)%Q
  end.

(** [x.toFixed(digits)]: the digits are those of the exact value of [x]. *)
Definition toFixed (digits : nat) (x : float) : string :=
  Number.toFixed digits (exact x).

(** [Math.round(x)]: the integer nearest to the exact value of [x], the
    larger one on a tie, with the sign of [x] when it is zero. *)
Definition round (x : float) : float :=
  match Prim2SF x, exact x with
  | S754_finite negative _ _, Number.Fin q => of_Z negative (Qfloor (q + (1 # 2))%Q)
  | _, _ => x
  end.

End Binary64.

(** ** The custom reporter *)
Module Reporter.

(** [TestResult.status] as the host runner delivers it. *)
Inductive TestStatus := passed | failed | timedOut | skipped | interrupted.

#[global] Instance TestStatus_eq_dec : EqDecision TestStatus.
Proof. solve_decision. Defined.

Definition status_string (s : TestStatus) : string :=
  match s with
  | passed => "passed"
  | failed => "failed"
  | timedOut => "timedOut"
  | skipped => "skipped"
  | interrupted => "interrupted"
  end.

(** What [onTestEnd(test, result)] reads from its two arguments. *)
Record TestEnd := {
  te_title : string;                (* test.title *)
  te_status : TestStatus;           (* result.status *)
  te_duration : Z;                  (* result.duration *)
  te_error : option string;         (* result.error?.message *)
  te_project : option string        (* test.parent.project()?.name *)
}.

(** An element of [this.results]. *)
Record Row := {
  title : string;
  status : string;
  duration : Z;
  error : option string;
  projectName : string
}.

Record state := {
  totalTests : nat;
  passedTests : nat;
  failedTests : nat;
  skippedTests : nat;
  results : list Row
}.

(** Field initialisers of the class. *)
Definition init : state :=
  {| totalTests := 0; passedTests := 0; failedTests := 0; skippedTests := 0;
     results := [] |}.

(** [onBegin(config, suite)]: [allTests] is [suite.allTests().length]. *)
Definition onBegin (allTests : nat) (st : state) : state :=
  {| totalTests := allTests;
     passedTests := passedTests st;
     failedTests := failedTests st;
     skippedTests := skippedTests st;
     results := results st |}.

Definition row_of (ev : TestEnd) : Row :=
  {| title := te_title ev;
     status := status_string (te_status ev);
     duration := te_duration ev;
     error := te_error ev;
     projectName := or_else (te_project ev) "unknown" |}.

(** [onTestEnd(test, result)]: push the row, then the [switch]. *)
Definition onTestEnd (ev : TestEnd) (st : state) : state :=
  let st1 :=
    {| totalTests := totalTests st;
       passedTests := passedTests st;
       failedTests := failedTests st;
       skippedTests := skippedTests st;
       results := results st ++ [row_of ev] |} in
  match te_status ev with
  | passed =>
      {| totalTests := totalTests st1;
         passedTests := S (passedTests st1);
         failedTests := failedTests st1;
         skippedTests := skippedTests st1;
         results := results st1 |}
  | failed =>
      {| totalTests := totalTests st1;
         passedTests := passedTests st1;
         failedTests := S (failedTests st1);
         skippedTests := skippedTests st1;
         results := results st1 |}
  | skipped =>
      {| totalTests := totalTests st1;
         passedTests := passedTests st1;
         failedTests := failedTests st1;
         skippedTests := S (skippedTests st1);
         results := results st1 |}
  | timedOut =>
      {| totalTests := totalTests st1;
         passedTests := passedTests st1;
         failedTests := S (failedTests st1);
         skippedTests := skippedTests st1;
         results := results st1 |}
  | interrupted => st1
  end.

(** A whole run: [onBegin], then one [onTestEnd] per delivered result. *)
Definition run (allTests : nat) (evs : list TestEnd) : state :=
  foldl (fun st ev => onTestEnd ev st) (onBegin allTests init) evs.

(** Number of delivered results with status [s]. *)
Definition delivered (s : TestStatus) (evs : list TestEnd) : nat :=
  length (filter (fun ev => te_status ev = s) evs).

(** The reading under which every status has a bucket of its own and the
    four statistics are the per-status counts of the delivered results. *)
Definition one_bucket_per_status (allTests : nat) (evs : list TestEnd) : Prop :=
  let st := run allTests evs in
  passedTests st = delivered passed evs ∧
  failedTests st = delivered failed evs ∧
  skippedTests st = delivered skipped evs ∧
  totalTests st = length evs.

(** The expression
    [this.totalTests > 0 ? (this.passedTests / this.totalTests) * 100 : 0],
    written out at each of its four occurrences. *)
Definition guarded_rate (st : state) : float :=
  if (0 <? totalTests st)%nat
  then PrimFloat.mul (PrimFloat.div (Binary64.of_nat (passedTests st))
                                    (Binary64.of_nat (totalTests st)))
                     (Binary64.of_nat 100)
  else Binary64.of_nat 0.

(** [onEnd]: the local [successRate], and the line it is logged in. *)
Definition onEnd_successRate (st : state) : float := guarded_rate st.

Definition onEnd_successRate_line (st : state) : string :=
  "Success Rate: " ++ Binary64.toFixed 2 (onEnd_successRate st) ++ "%".

(** The [summary] object of the JSON and of the metrics report. *)
Record summary := {
  total : nat;
  passed_ : nat;
  failed_ : nat;
  skipped_ : nat;
  successRate : float
}.

(** [generateJSONReport]: [report.summary] (duration and timestamp left out). *)
Definition generateJSONReport_summary (st : state) : summary :=
  {| total := totalTests st;
     passed_ := passedTests st;
     failed_ := failedTests st;
     skipped_ := skippedTests st;
     successRate := guarded_rate st |}.

(** [generateHTMLReport]: the local [successRate], which is also the width
    of the progress bar, and the text of the "Success Rate" metric. *)
Definition generateHTMLReport_successRate (st : state) : float :=
  guarded_rate st.

Definition generateHTMLReport_successRate_text (st : state) : string :=
  Binary64.toFixed 1 (generateHTMLReport_successRate st) ++ "%".

(** [generateMetricsReport]: [metrics.summary], whose rate is
    [Math.round(successRate * 100) / 100]. *)
Definition generateMetricsReport_summary (st : state) : summary :=
  let successRate := guarded_rate st in
  {| total := totalTests st;
     passed_ := passedTests st;
     failed_ := failedTests st;
     skipped_ := skippedTests st;
     successRate :=
       PrimFloat.div (Binary64.round (PrimFloat.mul successRate (Binary64.of_nat 100)))
                     (Binary64.of_nat 100) |}.

(** The unguarded quotient, for comparison. *)
Definition unguarded_rate (st : state) : float :=
  PrimFloat.mul (PrimFloat.div (Binary64.of_nat (passedTests st))
                               (Binary64.of_nat (totalTests st)))
                (Binary64.of_nat 100).

(** *** The CSV report *)

Definition newline : string := String (Ascii.ascii_of_nat 10) "".
Definition dquote : string := String (Ascii.ascii_of_nat 34) "".

Definition csvHeaders : string :=
  "Test Name,Status,Duration (ms),Project,Error" ++ newline.

(** [`"${x}"`] *)
Definition quoted (x : string) : string := dquote ++ x ++ dquote.

(** The template literal mapped over [this.results]. *)
Definition csvRow (r : Row) : string :=
  quoted (title r) ++ "," ++ quoted (status r) ++ "," ++
  quoted (show_Z (duration r)) ++ "," ++ quoted (projectName r) ++ "," ++
  quoted (or_else (error r) "").

(** [Array.prototype.join] *)
Fixpoint join (sep : string) (xs : list string) : string :=
  match xs with
  | [] => ""
  | [x] => x
  | x :: rest => x ++ sep ++ join sep rest
  end.

(** [generateCSVReport]: the content written to [report.csv]. *)
Definition generateCSVReport (st : state) : string :=
  let csvRows := join newline (map csvRow (results st)) in
  csvHeaders ++ csvRows.

End Reporter.

(** ** Page-object interaction helpers ([BasePage] and its subclasses) *)
Module BasePage.

(** What a helper does to the page, in order. *)
Inductive event :=
| Attempt (i : nat)            (* the interaction, numbered from 0 *)
| Warn (msg : string)          (* this.logger.warn *)
| WaitForTimeout (ms : Z).     (* this.page.waitForTimeout *)

#[global] Instance event_eq_dec : EqDecision event.
Proof. solve_decision. Defined.

Inductive outcome :=
| Returned
| Thrown (e : string).

(** The page under test: attempt [i] of the interaction succeeds ([None])
    or throws the given error. *)
Definition interaction := nat → option string.

(** The body of
    [for (let i = 0; i < retries; i++) { try {...; return} catch (error) {...} }]
    from index [i] on, for a count that is a natural number; [remaining]
    is [retries - i].  [RetryLoop] has the loop for a count that is any
    number. *)
Fixpoint retry_loop (what : string) (act : interaction) (retries remaining i : nat)
  : list event * outcome :=
  match remaining with
  | O => ([], Returned)
  | S remaining' =>
      match act i with
      | None => ([Attempt i], Returned)
      | Some error =>
          if (i =? retries - 1)%nat
          then ([Attempt i], Thrown error)
          else
            let '(evs, out) := retry_loop what act retries remaining' (S i) in
            (Attempt i
               :: Warn (what ++ " attempt " ++ show_Z (Z.of_nat (i + 1)) ++ " failed, retrying...")
               :: WaitForTimeout 1000 :: evs, out)
      end
  end.

(** [clickElement(locator, retries = 3)]: an attempt is
    [waitForElement(locator)] followed by [locator.click()]. *)
Definition clickElement (act : interaction) (retries : nat) : list event * outcome :=
  retry_loop "Click" act retries retries 0.

(** [fillInput(locator, value, retries = 3)]: an attempt is
    [waitForElement], [clear], [fill]. *)
Definition fillInput (act : interaction) (retries : nat) : list event * outcome :=
  retry_loop "Fill" act retries retries 0.

Definition default_retries : nat := 3.

(** A helper that awaits the interaction once, outside any [try]. *)
Definition once (act : interaction) : list event * outcome :=
  match act 0%nat with
  | None => ([Attempt 0], Returned)
  | Some error => ([Attempt 0], Thrown error)
  end.

(** [pressKey(key)]: [await this.page.keyboard.press(key)]. *)
Definition pressKey (act : interaction) := once act.

(** [ExamplePage.clickMoreInfoLink()]: [await this.moreInfoLink.click()]. *)
Definition clickMoreInfoLink (act : interaction) := once act.

(** [GoogleHomePage.clearSearchBox()]: [await this.searchBox.clear()]. *)
Definition clearSearchBox (act : interaction) := once act.

(** The interaction helpers, as the page objects call them (the retrying
    ones always with their default count). *)
Inductive helper :=
| ClickElement | FillInput | PressKey | ClickMoreInfoLink | ClearSearchBox.

Definition perform (h : helper) (act : interaction) : list event * outcome :=
  match h with
  | ClickElement => clickElement act default_retries
  | FillInput => fillInput act default_retries
  | PressKey => pressKey act
  | ClickMoreInfoLink => clickMoreInfoLink act
  | ClearSearchBox => clearSearchBox act
  end.

Definition is_attempt (e : event) : bool :=
  match e with Attempt _ => true | _ => false end.

Definition attempts (evs : list event) : nat :=
  length (List.filter is_attempt evs).

(** The sleeps of a trace, in order. *)
Fixpoint sleeps (evs : list event) : list Z :=
  match evs with
  | [] => []
  | WaitForTimeout ms :: rest => ms :: sleeps rest
  | _ :: rest => sleeps rest
  end.

(** An interaction that fails at every attempt. *)
Definition always_fails (e : string) : interaction := fun _ => Some e.

(** An interaction that fails until attempt [k], which succeeds. *)
Definition succeeds_at (k : nat) (e : string) : interaction :=
  fun i => if (i <? k)%nat then Some e else None.

(** Index of the first successful attempt among the first [n]. *)
Fixpoint first_success_from (act : interaction) (n i : nat) : option nat :=
  match n with
  | O => None
  | S n' =>
      match act i with
      | None => Some i
      | Some _ => first_success_from act n' (S i)
      end
  end.

Definition first_success (act : interaction) (n : nat) : option nat :=
  first_success_from act n 0.

(** The reading under which every helper, on an interaction that keeps
    failing, makes three attempts one second apart and then surfaces the
    failure. *)
Definition uniform_retry_policy (h : helper) : Prop :=
  ∀ e, attempts (fst (perform h (always_fails e))) = 3%nat ∧
       sleeps (fst (perform h (always_fails e))) = [1000; 1000]%Z ∧
       snd (perform h (always_fails e)) = Thrown e.

End BasePage.

(** ** Test data ([types/test-data] and [TestDataManager]) *)
Module TestData.

Inductive Role := admin | user | guest.
Inductive Theme := light | dark.
Inductive Category := valid | invalid | edge_case | performance.
Inductive Behavior := pass | fail.

#[global] Instance Role_eq_dec : EqDecision Role.
Proof. solve_decision. Defined.
#[global] Instance Category_eq_dec : EqDecision Category.
Proof. solve_decision. Defined.
#[global] Instance Behavior_eq_dec : EqDecision Behavior.
Proof. solve_decision. Defined.

Record Address := {
  street : string; city : string; state : string; country : string;
  zipCode : string
}.

Record UserPreferences := {
  language : string; theme : Theme; notifications : bool; newsletter : bool
}.

Record UserProfile := {
  firstName : string; lastName : string; dateOfBirth : string;
  address : Address; preferences : UserPreferences
}.

Record User := {
  user_id : string; username : string; email : string; password : string;
  role : Role; profile : UserProfile
}.

Record SearchQuery := {
  query_id : string;
  query : string;
  expectedResults : Z;
  category : Category;
  description : string;
  expectedBehavior : Behavior
}.

Record UrlData := {
  url_id : string; url_name : string; url : string; url_environment : string;
  expectedStatus : Z; timeout : Z
}.

Record Credentials := { cred_username : string; cred_password : string }.

Record Environment := {
  env_name : string; baseUrl : string; apiUrl : string;
  features : list string; credentials : Credentials
}.

Record TestData := {
  users : list User;
  searchQueries : list SearchQuery;
  urls : list UrlData;
  environments : list Environment
}.

End TestData.

Module TestDataManager.
Import TestData.

(** [getDefaultTestData()] *)
Definition getDefaultTestData : TestData :=
  {| users :=
       [ {| user_id := "user1";
            username := "testuser1";
            email := "testuser1@example.com";
            password := "password123";
            role := user;
            profile :=
              {| firstName := "Test";
                 lastName := "User";
                 dateOfBirth := "1990-01-01";
                 address :=
                   {| street := "123 Test St";
                      city := "Test City";
                      state := "Test State";
                      country := "Test Country";
                      zipCode := "12345" |};
                 preferences :=
                   {| language := "en";
                      theme := light;
                      notifications := true;
                      newsletter := false |} |} |} ];
     searchQueries :=
       [ {| query_id := "valid-search-1";
            query := "playwright testing";
            expectedResults := 10;
            category := valid;
            description := "Valid search for playwright testing";
            expectedBehavior := pass |};
         {| query_id := "valid-search-2";
            query := "typescript automation";
            expectedResults := 10;
            category := valid;
            description := "Valid search for typescript automation";
            expectedBehavior := pass |};
         {| query_id := "special-chars-search";
            query := "test @#$%^&*()";
            expectedResults := 5;
            category := edge_case;
            description := "Search with special characters";
            expectedBehavior := pass |};
         {| query_id := "long-query-search";
            query := repeat_string "a" 1000;
            expectedResults := 0;
            category := edge_case;
            description := "Extremely long search query";
            expectedBehavior := fail |};
         {| query_id := "pagination-test";
            query := "test pagination fail";
            expectedResults := 10;
            category := performance;
            description := "Search result pagination test that should fail";
            expectedBehavior := fail |} ];
     urls :=
       [ {| url_id := "google-home";
            url_name := "Google Home Page";
            url := "https://www.google.com";
            url_environment := "prod";
            expectedStatus := 200;
            timeout := 30000 |} ];
     environments :=
       [ {| env_name := "staging";
            baseUrl := "https://www.google.com";
            apiUrl := "https://jsonplaceholder.typicode.com";
            features := ["search"; "images"; "maps"];
            credentials :=
              {| cred_username := "staging_user"; cred_password := "staging_pass" |} |};
         {| env_name := "prod";
            baseUrl := "https://www.google.com";
            apiUrl := "https://jsonplaceholder.typicode.com";
            features := ["search"; "images"; "maps"; "news"];
            credentials :=
              {| cred_username := "prod_user"; cred_password := "prod_pass" |} |} ] |}.

(** The file system as [loadTestData] sees it, when the files hold data
    of the declared type.  A path that exists is bound to the outcome of
    [JSON.parse(fs.readFileSync(path, 'utf-8'))]: a throw (unreadable file,
    malformed JSON) or a value of the type of the field it is assigned to,
    [TestData | null].  [TestDataFile] takes the content as the JSON it
    is. *)
Record filesystem := {
  cwd : string;                                        (* process.cwd() *)
  files : gmap string (result (option TestData))
}.

(** [fs.existsSync] *)
Definition existsSync (fs : filesystem) (p : string) : bool :=
  bool_decide (is_Some (files fs !! p)).

(** [JSON.parse(fs.readFileSync(p, 'utf-8'))] *)
Definition readParse (fs : filesystem) (p : string) : result (option TestData) :=
  match files fs !! p with
  | Some r => r
  | None => Throw "ENOENT: no such file or directory"
  end.

(** [path.join] on already normal segments. *)
Definition path_join (a b : string) : string := a ++ "/" ++ b.

Record manager := {
  environment : string;
  testData : option TestData        (* TestData | null *)
}.

(** [new TestDataManager(environment)] *)
Definition new (environment : string) : manager :=
  {| environment := environment; testData := None |}.

Definition set_testData (d : option TestData) (m : manager) : manager :=
  {| environment := environment m; testData := d |}.

(** [loadTestData()] *)
Definition loadTestData (fs : filesystem) (m : manager) : result manager :=
  try_catch
    (let dataDir := path_join (path_join (cwd fs) "src") "data" in
     let envDataFile := path_join dataDir (environment m ++ ".json") in
     let defaultDataFile := path_join dataDir "default.json" in
     let dataFile :=
       if existsSync fs envDataFile then envDataFile else defaultDataFile in
     if existsSync fs dataFile
     then d ← readParse fs dataFile; mret (set_testData d m)
     else mret (set_testData (Some getDefaultTestData) m))
    (fun error => mret (set_testData (Some getDefaultTestData) m)).

(** [initialize()] *)
Definition initialize (fs : filesystem) (m : manager) : result manager :=
  loadTestData fs m.

(** [this.testData?.users || []] (an array is always truthy) *)
Definition getUsers (m : manager) : list User :=
  match testData m with
  | Some d => users d
  | None => []
  end.

Definition getSearchQueries (m : manager) : list SearchQuery :=
  match testData m with
  | Some d => searchQueries d
  | None => []
  end.

Definition getUrls (m : manager) : list UrlData :=
  match testData m with
  | Some d => urls d
  | None => []
  end.

(** [Array.prototype.find]; [None] is [undefined]. *)
Definition find {A} (p : A → bool) (xs : list A) : option A := List.find p xs.

(** [this.testData?.environments.find(env => env.name === name)] *)
Definition getEnvironment (m : manager) (name : string) : option Environment :=
  match testData m with
  | Some d => find (fun env => String.eqb (env_name env) name) (environments d)
  | None => None
  end.

Definition getSearchQueryById (m : manager) (id : string) : option SearchQuery :=
  match testData m with
  | Some d => find (fun q => String.eqb (query_id q) id) (searchQueries d)
  | None => None
  end.

(** [this.testData?.searchQueries.filter(query => query.expectedBehavior === behavior) || []] *)
Definition getSearchQueriesByBehavior (m : manager) (behavior : Behavior)
  : list SearchQuery :=
  match testData m with
  | Some d =>
      List.filter (fun query => bool_decide (expectedBehavior query = behavior))
                  (searchQueries d)
  | None => []
  end.

End TestDataManager.

(** ** JavaScript values reachable from a response body *)
Module Value.

(** The two built-in prototypes a parsed body inherits from. *)
Inductive builtin := ObjectPrototype | ArrayPrototype.

#[global] Instance builtin_eq_dec : EqDecision builtin.
Proof. solve_decision. Defined.

(** What [response.json()] or [response.text()] yields, plus what
    property access can reach from there: the built-in prototypes and
    their methods.  An object maps its own keys to values. *)
#[local] Unset Elimination Schemes.
Inductive value :=
| VNull
| VBool (b : bool)
| VNum (q : Q)
| VStr (s : string)
| VArr (items : list value)
| VObj (fields : gmap string value)
| VFunction (home : builtin) (name : string)
| VProto (b : builtin).
#[local] Set Elimination Schemes.

(** [!!v] *)
Definition truthy (v : value) : bool :=
  match v with
  | VNull => false
  | VBool b => b
  | VNum q => negb (Qeq_bool q 0)
  | VStr s => negb (String.eqb s "")
  | _ => true
  end.

(** [typeof v === 'object'] *)
Definition typeof_object (v : value) : bool :=
  match v with
  | VNull | VArr _ | VObj _ | VProto _ => true
  | _ => false
  end.

(** Function-valued properties of [Object.prototype] (ECMAScript, Annex B
    included). *)
Definition Object_prototype_methods : list string :=
  [ "constructor"; "hasOwnProperty"; "isPrototypeOf"; "propertyIsEnumerable";
    "toLocaleString"; "toString"; "valueOf";
    "__defineGetter__"; "__defineSetter__"; "__lookupGetter__"; "__lookupSetter__" ].

Definition mem (k : string) (ks : list string) : bool :=
  existsb (String.eqb k) ks.

(** A canonical array index: the decimal numeral of a natural number. *)
Definition array_index (key : string) : option nat :=
  match NilZero.uint_of_string key with
  | Some u =>
      let n := N.of_uint u in
      if String.eqb (show_Z (Z.of_N n)) key then Some (N.to_nat n) else None
  | None => None
  end.

Section Access.
(** Names of the methods of [Array.prototype] in the running engine
    (they grow with the language edition). *)
Variable Array_prototype_methods : list string.

(** Lookup of [key] starting at a built-in prototype. *)
Definition proto_lookup (b : builtin) (key : string) : option value :=
  match b with
  | ObjectPrototype =>
      if mem key Object_prototype_methods
      then Some (VFunction ObjectPrototype key)
      else None
  | ArrayPrototype =>
      if String.eqb key "length" then Some (VNum 0)
      else if String.eqb key "constructor" || mem key Array_prototype_methods
      then Some (VFunction ArrayPrototype key)
      else if mem key Object_prototype_methods
      then Some (VFunction ObjectPrototype key)
      else None
  end.

(** [key in v] together with [v[key]], for [v] an object: [None] when
    [key in v] is false, [Some x] when it is true and [v[key]] is [x].
    Own properties come first, then the prototype chain; [__proto__]
    is the inherited accessor and yields the receiver's prototype. *)
Definition property (key : string) (v : value) : option value :=
  match v with
  | VObj fields =>
      match fields !! key with
      | Some x => Some x
      | None =>
          if String.eqb key "__proto__" then Some (VProto ObjectPrototype)
          else proto_lookup ObjectPrototype key
      end
  | VArr items =>
      match (i ← array_index key; items !! i) with
      | Some x => Some x
      | None =>
          if String.eqb key "length"
          then Some (VNum (inject_Z (Z.of_nat (length items))))
          else if String.eqb key "__proto__" then Some (VProto ArrayPrototype)
          else proto_lookup ArrayPrototype key
      end
  | VProto ObjectPrototype =>
      if String.eqb key "__proto__" then Some VNull
      else proto_lookup ObjectPrototype key
  | VProto ArrayPrototype =>
      if String.eqb key "__proto__" then Some (VProto ObjectPrototype)
      else proto_lookup ArrayPrototype key
  | _ => None
  end.

(** Own properties only: what the body itself holds under [key]. *)
Definition own_property (key : string) (v : value) : option value :=
  match v with
  | VObj fields => fields !! key
  | VArr items =>
      match (i ← array_index key; items !! i) with
      | Some x => Some x
      | None =>
          if String.eqb key "length"
          then Some (VNum (inject_Z (Z.of_nat (length items))))
          else None
      end
  | _ => None
  end.

End Access.

End Value.

(** ** The API client *)
Module ApiClient.
Import Value.

(** [String.prototype.split] on a one-character separator. *)
Fixpoint split (sep : Ascii.ascii) (s : string) : list string :=
  match s with
  | EmptyString => [""]
  | String c rest =>
      let parts := split sep rest in
      if Ascii.eqb c sep then "" :: parts
      else match parts with
           | p :: ps => String c p :: ps
           | [] => [String c ""]
           end
  end.

Definition dot : Ascii.ascii := Ascii.ascii_of_nat 46.

(** [hay.includes(needle)] *)
Fixpoint includes (needle hay : string) : bool :=
  String.prefix needle hay ||
  match hay with
  | EmptyString => false
  | String _ rest => includes needle rest
  end.

(** A Playwright [APIResponse]: its synchronous getters, and the outcome
    of awaiting [json()] and [text()]. *)
Record APIResponse := {
  resp_status : Z;
  resp_statusText : string;
  resp_headers : gmap string string;
  resp_json : result value;
  resp_text : result string
}.

(** [ApiResponse<T>] of [types/test-data]. *)
Record ApiResponse := {
  status : Z;
  statusText : string;
  headers : gmap string string;
  data : value;
  responseTime : Z
}.

(** [processResponse(response, startTime)]; [now] is [Date.now()]. *)
Definition processResponse (response : APIResponse) (startTime now : Z)
  : result ApiResponse :=
  let responseTime := (now - startTime)%Z in
  let status := resp_status response in
  let statusText := resp_statusText response in
  let headers := resp_headers response in
  data ← try_catch
           (let contentType := or_else (headers !! "content-type") "" in
            if includes "application/json" contentType
            then resp_json response
            else text ← resp_text response; mret (VStr text))
           (fun _ => mret VNull);
  mret {| status := status; statusText := statusText; headers := headers;
          data := data; responseTime := responseTime |}.

(** The body as the interface describes it: the parsed JSON when the
    [content-type] header contains [application/json], the raw text
    otherwise, and [null] when obtaining it fails. *)
Definition described_data (response : APIResponse) : value :=
  let is_json :=
    match resp_headers response !! "content-type" with
    | Some contentType => includes "application/json" contentType
    | None => false
    end in
  if is_json
  then match resp_json response with Ok v => v | Throw _ => VNull end
  else match resp_text response with Ok text => VStr text | Throw _ => VNull end.

Section ExtractValue.
Variable Array_prototype_methods : list string.

(** The [for (const key of keys)] loop of [extractValue]. *)
Fixpoint walk (keys : list string) (value : value) : Value.value :=
  match keys with
  | [] => value
  | key :: rest =>
      if truthy value && typeof_object value
      then match property Array_prototype_methods key value with
           | Some next => walk rest next
           | None => VNull
           end
      else VNull
  end.

(** [extractValue(response, path)]; nothing in the [try] block throws. *)
Definition extractValue (response : ApiResponse) (path : string) : value :=
  let keys := split dot path in
  walk keys (data response).

(** The walk through the body's own members only. *)
Fixpoint walk_own (keys : list string) (value : value) : Value.value :=
  match keys with
  | [] => value
  | key :: rest =>
      match own_property key value with
      | Some next => walk_own rest next
      | None => VNull
      end
  end.

(** No segment of the walk names a member the body lacks but a built-in
    prototype supplies. *)
Fixpoint stays_in_body (keys : list string) (value : value) : Prop :=
  match keys with
  | [] => True
  | key :: rest =>
      match own_property key value with
      | Some next => stays_in_body rest next
      | None =>
          truthy value && typeof_object value = true →
          property Array_prototype_methods key value = None
      end
  end.

End ExtractValue.

(** *** Request contexts *)

(** The [APIRequestContext]s created so far and those not yet disposed. *)
Record world := {
  fresh : nat;
  live : gset nat
}.

(** [request.newContext(...)] *)
Definition newContext (w : world) : nat * world :=
  (fresh w, {| fresh := S (fresh w); live := {[fresh w]} ∪ live w |}).

(** [context.dispose()] *)
Definition dispose (id : nat) (w : world) : world :=
  {| fresh := fresh w; live := live w ∖ {[id]} |}.

Record client := {
  baseUrl : string;
  timeout : Z;
  retries : Z;
  client_headers : gmap string string;
  apiContext : option nat                 (* APIRequestContext | null *)
}.

Record config := {
  cfg_timeout : option Z;
  cfg_retries : option Z;
  cfg_headers : option (gmap string string)
}.

(** [n || d] on a number that may be [undefined]: zero is falsy. *)
Definition num_or (n : option Z) (d : Z) : Z :=
  match n with
  | Some x => if (x =? 0)%Z then d else x
  | None => d
  end.

(** [new ApiClient(baseUrl, config)].  The [retries] field is stored and
    read nowhere in the class. *)
Definition new (baseUrl : string) (config : option config) : client :=
  {| baseUrl := baseUrl;
     timeout := num_or (config ≫= cfg_timeout) 30000;
     retries := num_or (config ≫= cfg_retries) 3;
     client_headers := default ∅ (config ≫= cfg_headers);
     apiContext := None |}.

Definition set_apiContext (ctx : option nat) (c : client) : client :=
  {| baseUrl := baseUrl c; timeout := timeout c; retries := retries c;
     client_headers := client_headers c; apiContext := ctx |}.

(** The client at work.  [initialize] and [cleanup] are asynchronous: each
    runs up to its [await] when it is called and resumes later, and other
    calls may come in between.  [creating] holds the contexts that a call
    of [initialize] has asked for and not yet stored, in the order of the
    calls; [disposing] counts the calls of [cleanup] that await their
    [dispose]. *)
Record running := {
  run_world : world;
  run_client : client;
  creating : list nat;
  disposing : nat
}.

Definition started (w : world) (c : client) : running :=
  {| run_world := w; run_client := c; creating := []; disposing := 0 |}.

(** [initialize()] up to its [await]: [request.newContext(...)] is called. *)
Definition initialize (s : running) : running :=
  let '(id, w') := newContext (run_world s) in
  {| run_world := w';
     run_client := run_client s;
     creating := (creating s ++ [id])%list;
     disposing := disposing s |}.

(** [initialize()] from its [await] on, [this.apiContext = ...]: the
    [k]-th of the contexts awaited is stored. *)
Definition initialize_resumes (k : nat) (s : running) : running :=
  match creating s !! k with
  | Some id =>
      {| run_world := run_world s;
         run_client := set_apiContext (Some id) (run_client s);
         creating := delete k (creating s);
         disposing := disposing s |}
  | None => s
  end.

(** [getContext()] up to its [await]: the test of the stored context, and
    the call of [initialize] when there is none. *)
Definition getContext (s : running) : running :=
  match apiContext (run_client s) with
  | None => initialize s
  | Some _ => s
  end.

(** [cleanup()] up to its [await]: [dispose()] is called on the stored
    context, when there is one. *)
Definition cleanup (s : running) : running :=
  match apiContext (run_client s) with
  | Some id =>
      {| run_world := dispose id (run_world s);
         run_client := run_client s;
         creating := creating s;
         disposing := S (disposing s) |}
  | None => s
  end.

(** [cleanup()] from its [await] on: [this.apiContext = null]. *)
Definition cleanup_resumes (s : running) : running :=
  match disposing s with
  | S rest =>
      {| run_world := run_world s;
         run_client := set_apiContext None (run_client s);
         creating := creating s;
         disposing := rest |}
  | O => s
  end.

(** What happens to the client during a test: a call made on it (a
    request, [get], [post], [put], [delete] or [patch], touches the
    context state through [getContext] only, whether it then succeeds or
    throws), or the resumption of a call that awaits. *)
Inductive call :=
| CallRequest
| CallInitialize
| CallCleanup
| InitializeResumes (k : nat)
| CleanupResumes.

Definition exec (s : running) (c : call) : running :=
  match c with
  | CallRequest => getContext s
  | CallInitialize => initialize s
  | CallCleanup => cleanup s
  | InitializeResumes k => initialize_resumes k s
  | CleanupResumes => cleanup_resumes s
  end.

(** A call that is awaited before anything else happens: the call, then
    its resumption. *)
Definition awaited (c : call) : list call :=
  match c with
  | CallRequest => [CallRequest; InitializeResumes 0]
  | CallInitialize => [CallInitialize; InitializeResumes 0]
  | CallCleanup => [CallCleanup; CleanupResumes]
  | resumption => [resumption]
  end.

(** A test body that makes its calls one at a time, each awaited. *)
Definition in_turn (calls : list call) : list call := concat (map awaited calls).

(** A context is live beyond those of [w] only while the client stores it. *)
Definition held_or_old (w : world) (s : running) : Prop :=
  ∀ id : nat, id ∈ live (run_world s) →
              id ∈ live w ∨ apiContext (run_client s) = Some id.

(** A test body that only issues requests and, possibly, cleans up itself:
    [true] stands for a request, [false] for a call of [cleanup]. *)
Definition requests_and_cleanups (bs : list bool) : list call :=
  map (fun b : bool => if b then CallRequest else CallCleanup) bs.

(** Requests that overlap: [n] requests are made before any of them
    resumes, as under [Promise.all]; then all resume, in the order of the
    calls. *)
Definition overlapping (n : nat) : list call :=
  (replicate n CallRequest ++ replicate n (InitializeResumes 0))%list.

End ApiClient.

(** ** Fixtures ([base-fixtures]) *)
Module Fixtures.

(** [apiClient]: construct, [use], [await apiClient.cleanup()].  The test
    body is what happens to the client before the body ends. *)
Definition apiClient (apiBaseURL : string) (apiConfig : option ApiClient.config)
    (body : list ApiClient.call) (w : ApiClient.world) : ApiClient.running :=
  let apiClient := ApiClient.new apiBaseURL apiConfig in
  let used := foldl ApiClient.exec (ApiClient.started w apiClient) body in
  foldl ApiClient.exec used (ApiClient.awaited ApiClient.CallCleanup).

(** The reading under which no context that the client creates during
    the test is live after the fixture. *)
Definition no_context_outlives (apiBaseURL : string)
    (apiConfig : option ApiClient.config) (body : list ApiClient.call)
    (w : ApiClient.world) : Prop :=
  ApiClient.live (ApiClient.run_world (apiClient apiBaseURL apiConfig body w))
  ⊆ ApiClient.live w.

(** The browser: contexts created so far and those still open. *)
Record browser := {
  created : nat;
  open : gset nat
}.

(** [browser.newContext(contextOptions)] *)
Definition newContext (b : browser) : nat * browser :=
  (created b, {| created := S (created b); open := {[created b]} ∪ open b |}).

(** [context.close()] (closing a closed context changes nothing) *)
Definition close (id : nat) (b : browser) : browser :=
  {| created := created b; open := open b ∖ {[id]} |}.

(** [context]: create, [use], [close].  [body] is whatever the test does
    to the browser while it holds context [id]. *)
Definition context (body : nat → browser → browser) (b : browser) : nat * browser :=
  let '(context, b1) := newContext b in
  let b2 := body context b1 in
  (context, close context b2).

(** The pages of a context: [context.newPage()] and [page.close()]. *)
Record pages := {
  pages_created : nat;
  pages_open : gset nat
}.

Definition newPage (ps : pages) : nat * pages :=
  (pages_created ps,
   {| pages_created := S (pages_created ps);
      pages_open := {[pages_created ps]} ∪ pages_open ps |}).

Definition closePage (id : nat) (ps : pages) : pages :=
  {| pages_created := pages_created ps; pages_open := pages_open ps ∖ {[id]} |}.

(** [page]: [context.newPage()], [use], [page.close()]. *)
Definition page (body : nat → pages → pages) (ps : pages) : nat * pages :=
  let '(page, ps1) := newPage ps in
  let ps2 := body page ps1 in
  (page, closePage page ps2).

End Fixtures.

(** ** The accessibility report *)
Module Accessibility.

(** The inputs of the score: the [passed] flag of each of the six checks
    and [axeResults.violations.length]. *)
Record results := {
  keyboardNavigation : bool;
  colorContrast : bool;
  imageAltText : bool;
  formAccessibility : bool;
  headingStructure : bool;
  ariaLandmarks : bool;
  violations : nat
}.

Definition checks (r : results) : list bool :=
  [ keyboardNavigation r;
    colorContrast r;
    imageAltText r;
    formAccessibility r;
    headingStructure r;
    ariaLandmarks r;
    (violations r =? 0)%nat ].

(** [checks.filter(Boolean).length] *)
Definition passing (r : results) : nat :=
  length (List.filter (fun b : bool => b) (checks r)).

(** [(checks.filter(Boolean).length / checks.length) * 100] *)
Definition overallScore (r : results) : Number.number :=
  Number.mul (Number.div (Number.of_nat (passing r))
                         (Number.of_nat (length (checks r))))
             (Number.of_nat 100).

(** The same expression evaluated in binary64, as the engine does. *)
Definition float_of_nat (n : nat) : float :=
  PrimFloat.of_uint63 (Uint63.of_Z (Z.of_nat n)).

Definition overallScore_binary64 (r : results) : float :=
  PrimFloat.mul (PrimFloat.div (float_of_nat (passing r))
                               (float_of_nat (length (checks r))))
                (float_of_nat 100).

(** All seven checks pass. *)
Definition all_pass (r : results) : bool :=
  keyboardNavigation r && colorContrast r && imageAltText r &&
  formAccessibility r && headingStructure r && ariaLandmarks r &&
  (violations r =? 0)%nat.

End Accessibility.

(** ** Concrete inputs used in the examples below *)
Module Samples.

Definition timed_out_once : Reporter.TestEnd :=
  {| Reporter.te_title := "loads the page";
     Reporter.te_status := Reporter.timedOut;
     Reporter.te_duration := 30000;
     Reporter.te_error := Some "Test timeout of 30000ms exceeded.";
     Reporter.te_project := Some "chromium" |}.

Definition result_with (s : Reporter.TestStatus) : Reporter.TestEnd :=
  {| Reporter.te_title := "opens the home page";
     Reporter.te_status := s;
     Reporter.te_duration := 1250;
     Reporter.te_error := None;
     Reporter.te_project := Some "firefox" |}.

(** Three tests, one of which passes. *)
Definition one_of_three : Reporter.state :=
  Reporter.run 3 [ result_with Reporter.passed;
                   result_with Reporter.failed;
                   result_with Reporter.failed ].

(** 160 tests, 23 of which pass. *)
Definition twenty_three_of_160 : Reporter.state :=
  Reporter.run 160 (replicate 23 (result_with Reporter.passed)
                    ++ replicate 137 (result_with Reporter.failed)).

(** 80 tests, 23 of which pass. *)
Definition twenty_three_of_80 : Reporter.state :=
  Reporter.run 80 (replicate 23 (result_with Reporter.passed)
                   ++ replicate 57 (result_with Reporter.failed)).

(** A project without data files. *)
Definition no_data_files : TestDataManager.filesystem :=
  {| TestDataManager.cwd := "/work"; TestDataManager.files := ∅ |}.

(** A JSON response and an HTML response whose body cannot be read. *)
Definition json_response : ApiClient.APIResponse :=
  {| ApiClient.resp_status := 201;
     ApiClient.resp_statusText := "Created";
     ApiClient.resp_headers := {[ "content-type" := "application/json; charset=utf-8" ]};
     ApiClient.resp_json := Ok (Value.VObj {[ "id" := Value.VNum 101 ]});
     ApiClient.resp_text := Ok "{ id: 101 }" |}.

Definition unreadable_response : ApiClient.APIResponse :=
  {| ApiClient.resp_status := 502;
     ApiClient.resp_statusText := "Bad Gateway";
     ApiClient.resp_headers := {[ "content-type" := "text/html" ]};
     ApiClient.resp_json := Throw "SyntaxError";
     ApiClient.resp_text := Throw "Response has been disposed" |}.

(** A 200 response whose JSON body is the empty object. *)
Definition empty_object_response : ApiClient.ApiResponse :=
  {| ApiClient.status := 200;
     ApiClient.statusText := "OK";
     ApiClient.headers := {[ "content-type" := "application/json; charset=utf-8" ]};
     ApiClient.data := Value.VObj ∅;
     ApiClient.responseTime := 120 |}.

(** A response whose body is [{"user": {"roles": ["admin", "dev"]}}]. *)
Definition nested_response : ApiClient.ApiResponse :=
  {| ApiClient.status := 200;
     ApiClient.statusText := "OK";
     ApiClient.headers := {[ "content-type" := "application/json" ]};
     ApiClient.data :=
       Value.VObj {[ "user" :=
         Value.VObj {[ "roles" :=
           Value.VArr [Value.VStr "admin"; Value.VStr "dev"] ]} ]};
     ApiClient.responseTime := 85 |}.

End Samples.

(** * More of the code

    The parts of the same classes that the properties above did not need,
    and their neighbours. *)

(** ** The metrics report ([CustomReporter.generateMetricsReport]) *)
Module Metrics.
Import Reporter.

(** The [duration] field of a [reduce] accumulator: a number of
    milliseconds, or the [Infinity] the search for the fastest starts from. *)
Inductive bound :=
| Ms (d : Z)
| Infinity.

(** The accumulator of the two [reduce] calls: a result, or the initial
    object; only its [title] and [duration] are read. *)
Record leader := {
  leader_title : string;
  leader_duration : bound
}.

(** [d > b] and [d < b] for a duration [d] of a result. *)
Definition exceeds (d : Z) (b : bound) : bool :=
  match b with
  | Ms x => (x <? d)%Z
  | Infinity => false
  end.

Definition undercuts (d : Z) (b : bound) : bool :=
  match b with
  | Ms x => (d <? x)%Z
  | Infinity => true
  end.

Definition as_leader (r : Row) : leader :=
  {| leader_title := title r; leader_duration := Ms (duration r) |}.

(** [this.results.reduce((sum, result) => sum + result.duration, 0)] *)
Definition totalDuration (st : state) : Z :=
  foldl (fun sum result => (sum + duration result)%Z) 0%Z (results st).

(** The local [averageTestDuration]. *)
Definition averageTestDuration (st : state) : Number.number :=
  if (0 <? length (results st))%nat
  then Number.div (Number.Fin (inject_Z (totalDuration st)))
                  (Number.of_nat (length (results st)))
  else Number.of_nat 0.

(** The local [slowestTest]. *)
Definition slowestTest (st : state) : leader :=
  foldl (fun slowest result =>
           if exceeds (duration result) (leader_duration slowest)
           then as_leader result else slowest)
        {| leader_title := "None"; leader_duration := Ms 0 |}
        (results st).

(** The local [fastestTest]. *)
Definition fastestTest (st : state) : leader :=
  foldl (fun fastest result =>
           if undercuts (duration result) (leader_duration fastest)
           then as_leader result else fastest)
        {| leader_title := "None"; leader_duration := Infinity |}
        (results st).

(** [metrics.execution], without [totalDuration] (which reads the clock). *)
Record execution := {
  exec_averageTestDuration : Number.number;
  exec_slowestTest : string;
  exec_slowestTestDuration : bound;
  exec_fastestTest : string;
  exec_fastestTestDuration : Z
}.

Definition generateMetricsReport_execution (st : state) : execution :=
  let slowestTest := slowestTest st in
  let fastestTest := fastestTest st in
  {| exec_averageTestDuration := Number.round (averageTestDuration st);
     exec_slowestTest := leader_title slowestTest;
     exec_slowestTestDuration := leader_duration slowestTest;
     exec_fastestTest :=
       if negb (String.eqb (leader_title fastestTest) "None")
       then leader_title fastestTest else "None";
     exec_fastestTestDuration :=
       match leader_duration fastestTest with
       | Ms d => d
       | Infinity => 0%Z
       end |}.

(** One entry of [projectStats]. *)
Record stats := {
  stats_total : nat;
  stats_passed : nat;
  stats_failed : nat
}.

(** A key that [stats[key]] finds on [Object.prototype] when the object
    has no such key of its own. *)
Definition inherited_key (key : string) : bool :=
  Value.mem key Value.Object_prototype_methods || String.eqb key "__proto__".

(** One step of the [reduce] that builds [projectStats].  For a project
    whose name is an inherited key, [stats[name]] is a built-in and truthy:
    no entry is created and the increments land on the built-in. *)
Definition projectStats_step (acc : gmap string stats) (result : Row)
  : gmap string stats :=
  match acc !! projectName result with
  | None =>
      if inherited_key (projectName result) then acc
      else
        <[ projectName result :=
             {| stats_total := 1;
                stats_passed := if String.eqb (status result) "passed" then 1 else 0;
                stats_failed := if String.eqb (status result) "failed" then 1 else 0 |} ]>
          acc
  | Some s =>
      <[ projectName result :=
           {| stats_total := S (stats_total s);
              stats_passed :=
                if String.eqb (status result) "passed"
                then S (stats_passed s) else stats_passed s;
              stats_failed :=
                if String.eqb (status result) "failed"
                then S (stats_failed s) else stats_failed s |} ]>
        acc
  end.

(** [metrics.projects] *)
Definition projectStats (st : state) : gmap string stats :=
  foldl projectStats_step ∅ (results st).

(** Number of rows of project [p] whose status is [s] ([None]: any status). *)
Definition rows_of (p : string) (s : option string) (rs : list Row) : nat :=
  length (List.filter
            (fun r => String.eqb (projectName r) p &&
                      match s with
                      | Some s => String.eqb (status r) s
                      | None => true
                      end)
            rs).

Definition recorded (p : string) (s : option string) (st : state) : nat :=
  rows_of p s (results st).

End Metrics.

(** ** Links of a page ([BasePage.getAllLinks] and its override) *)
Module Links.

(** An [a] element of the page: its [href] attribute ([None] when it has
    none), and the error that [getAttribute] throws on it, if it does (the
    element is gone, the page is closed). *)
Record anchor := {
  href : option string;
  failure : option string
}.

(** What both versions read of the page: the outcome of [locator.all()],
    an error or the [a] elements in document order. *)
Definition page := result (list anchor).

(** [await link.getAttribute('href')] *)
Definition getAttribute (link : anchor) : result (option string) :=
  match failure link with
  | Some error => Throw error
  | None => Ok (href link)
  end.

(** [s.startsWith(prefix)] *)
Definition startsWith (s prefix : string) : bool := String.prefix prefix s.

(** The loop of [BasePage.getAllLinks()]: an error of [getAttribute] ends
    it. *)
Fixpoint BasePage_loop (links : list anchor) (hrefs : list string)
  : result (list string) :=
  match links with
  | [] => Ok hrefs
  | link :: rest =>
      href ← getAttribute link;
      BasePage_loop rest
        match href with
        | Some href =>
            if negb (String.eqb href "") &&
               negb (startsWith href "javascript:") &&
               negb (startsWith href "#")
            then (hrefs ++ [href])%list else hrefs
        | None => hrefs
        end
  end.

(** [BasePage.getAllLinks()]: the elements matching [a[href]], then the
    loop. *)
Definition BasePage_getAllLinks (p : page) : result (list string) :=
  anchors ← p;
  let links := List.filter (fun a : anchor => bool_decide (is_Some (href a))) anchors in
  BasePage_loop links [].

(** The body of the loop of [ExamplePage.getAllLinks()], with its
    [try]/[catch]: an error of [getAttribute] is logged and the link
    skipped. *)
Definition ExamplePage_step (linkUrls : list string) (link : anchor) : list string :=
  match getAttribute link with
  | Ok (Some href) =>
      if negb (String.eqb href "") then (linkUrls ++ [href])%list else linkUrls
  | Ok None => linkUrls
  | Throw error => linkUrls
  end.

(** [ExamplePage.getAllLinks()]: every [a] element, then the loop. *)
Definition ExamplePage_getAllLinks (p : page) : result (list string) :=
  anchors ← p;
  mret (foldl ExamplePage_step [] anchors).

End Links.

(** ** More getters of [TestDataManager] *)
Module TestDataQueries.
Import TestData TestDataManager.

Definition getUserById (m : manager) (id : string) : option User :=
  match testData m with
  | Some d => find (fun user => String.eqb (user_id user) id) (users d)
  | None => None
  end.

Definition getUsersByRole (m : manager) (r : Role) : list User :=
  match testData m with
  | Some d => List.filter (fun user => bool_decide (role user = r)) (users d)
  | None => []
  end.

Definition getSearchQueriesByCategory (m : manager) (c : Category) : list SearchQuery :=
  match testData m with
  | Some d => List.filter (fun query => bool_decide (category query = c)) (searchQueries d)
  | None => []
  end.

Definition getUrlById (m : manager) (id : string) : option UrlData :=
  match testData m with
  | Some d => find (fun url => String.eqb (url_id url) id) (urls d)
  | None => None
  end.

Definition getCurrentEnvironment (m : manager) : option Environment :=
  getEnvironment m (environment m).

(** [xs[i]] for an integer [i]; [None] is [undefined]. *)
Definition at_index {A} (xs : list A) (i : Z) : option A :=
  if (i <? 0)%Z then None else xs !! Z.to_nat i.

(** [Math.floor(random * n)], [random] being the value of [Math.random()]. *)
Definition random_index (random : Q) (n : nat) : Z :=
  Qfloor (random * inject_Z (Z.of_nat n)).

Definition getRandomUser (random : Q) (m : manager) : option User :=
  let users := getUsers m in
  at_index users (random_index random (length users)).

Definition getRandomSearchQuery (random : Q) (c : option Category) (m : manager)
  : option SearchQuery :=
  let queries := match c with
                 | Some c => getSearchQueriesByCategory m c
                 | None => getSearchQueries m
                 end in
  at_index queries (random_index random (length queries)).

End TestDataQueries.

(** ** More concrete inputs *)
Module MoreSamples.

(** A manager holding the built-in default data. *)
Definition default_manager : TestDataManager.manager :=
  {| TestDataManager.environment := "staging";
     TestDataManager.testData := Some TestDataManager.getDefaultTestData |}.

End MoreSamples.

(** ** Schema validation ([ApiClient.validateSchema]) *)
Module Schema.
Import Value ApiClient.

(** The keys that [for (const key in schema)] visits when [schema] is an
    object: its own keys (the built-in prototypes have no enumerable
    member), for an array its indices.  [None]: the loop is not entered
    ([schema] is [null], a primitive or a function).  The order of the
    visit does not show in the result of [validateSchema]. *)
Definition schema_keys (schema : value) : option (list string) :=
  match schema with
  | VObj fields => Some (map fst (map_to_list fields))
  | VArr items => Some (map (fun i => show_Z (Z.of_nat i)) (seq 0 (length items)))
  | VProto _ => Some []
  | _ => None
  end.

Section In.
Variable Array_prototype_methods : list string.

(** Whether the built-in function [name] of prototype [home] has member
    [key], own or inherited. *)
Variable function_has : builtin → string → string → bool.

(** [key in data]: a [TypeError] when [data] is not an object. *)
Definition has_key (key : string) (data : value) : result bool :=
  match data with
  | VNull | VBool _ | VNum _ | VStr _ =>
      Throw "TypeError: Cannot use 'in' operator to search for a key in a primitive"
  | VFunction home name => Ok (function_has home name key)
  | VArr _ | VObj _ | VProto _ =>
      Ok (bool_decide (is_Some (property Array_prototype_methods key data)))
  end.

(** The loop: [false] at the first key that is missing. *)
Fixpoint check_keys (keys : list string) (data : value) : result bool :=
  match keys with
  | [] => Ok true
  | key :: rest =>
      found ← has_key key data;
      if found : bool then check_keys rest data else Ok false
  end.

(** [validateSchema(response, schema)] *)
Definition validateSchema (response : ApiResponse) (schema : value) : result bool :=
  try_catch
    (match schema_keys schema with
     | Some keys => check_keys keys (data response)
     | None => Ok true
     end)
    (fun _ => Ok false).

End In.

End Schema.

(** ** The headers of the client, held by reference *)
Module Headers.

(** Header objects live in a store; the client, its configuration and the
    callers of [getHeaders] hold references to them. *)
Record store := {
  next_ref : nat;
  objects : gmap nat (gmap string string)
}.

(** A new object. *)
Definition alloc (o : gmap string string) (st : store) : nat * store :=
  (next_ref st,
   {| next_ref := S (next_ref st); objects := <[next_ref st := o]> (objects st) |}).

(** References below [next_ref] only. *)
Definition well_formed (st : store) : Prop :=
  ∀ ref, is_Some (objects st !! ref) → (ref < next_ref st)%nat.

(** The headers an object holds ([∅] for a reference that holds nothing). *)
Definition read (ref : nat) (st : store) : gmap string string :=
  default ∅ (objects st !! ref).

(** [this.headers = config?.headers || {}]: the object of the
    configuration itself when there is one. *)
Definition new (config_headers : option nat) (st : store) : nat * store :=
  match config_headers with
  | Some ref => (ref, st)
  | None => alloc ∅ st
  end.

(** [obj[name] = value] for a string [value].  The name [__proto__], when
    it is not a key of the object itself, reaches the inherited setter,
    which ignores a string. *)
Definition assign (ref : nat) (name value : string) (st : store) : store :=
  let o := read ref st in
  if String.eqb name "__proto__" && bool_decide (o !! name = None) then st
  else {| next_ref := next_ref st;
          objects := <[ref := <[name := value]> o]> (objects st) |}.

(** [setHeader(name, value)] on the client whose headers are [this]. *)
Definition setHeader (this : nat) (name value : string) (st : store) : store :=
  assign this name value st.

Inductive auth_type := Bearer | Basic.

Definition auth_type_string (t : auth_type) : string :=
  match t with Bearer => "Bearer" | Basic => "Basic" end.

(** [setAuthToken(token, type = 'Bearer')] *)
Definition setAuthToken (this : nat) (token : string) (t : auth_type) (st : store)
  : store :=
  assign this "Authorization" (auth_type_string t ++ " " ++ token) st.

(** [removeHeader(name)]: [delete this.headers[name]] *)
Definition removeHeader (this : nat) (name : string) (st : store) : store :=
  {| next_ref := next_ref st;
     objects := <[this := delete name (read this st)]> (objects st) |}.

(** [getHeaders()]: [{ ...this.headers }], a new object with the same keys. *)
Definition getHeaders (this : nat) (st : store) : nat * store :=
  alloc (read this st) st.

End Headers.

(** ** String operations of the language

    A string is a sequence of code units below 256. *)
Module Text.

(** Whether [c] occurs in [s]. *)
Fixpoint has_char (c : Ascii.ascii) (s : string) : bool :=
  match s with
  | EmptyString => false
  | String x rest => Ascii.eqb x c || has_char c rest
  end.

(** White space and line terminators, as [trim] sees them: TAB, LF, VT,
    FF, CR, SP and NBSP (the others lie above 255). *)
Definition is_space (c : Ascii.ascii) : bool :=
  let n := Ascii.nat_of_ascii c in
  (n =? 9)%nat || (n =? 10)%nat || (n =? 11)%nat || (n =? 12)%nat ||
  (n =? 13)%nat || (n =? 32)%nat || (n =? 160)%nat.

Fixpoint trimStart (s : string) : string :=
  match s with
  | EmptyString => ""
  | String c rest => if is_space c then trimStart rest else s
  end.

Fixpoint trimEnd (s : string) : string :=
  match s with
  | EmptyString => ""
  | String c rest =>
      match trimEnd rest with
      | EmptyString => if is_space c then "" else String c ""
      | kept => String c kept
      end
  end.

(** [s.trim()] *)
Definition trim (s : string) : string := trimEnd (trimStart s).

(** The scan of [s.split(sep)] for a non-empty [sep]: [skip] code units of
    a separator just met remain to be passed over, [cur] is the field read
    so far. *)
Fixpoint split_scan (sep s : string) (skip : nat) (cur : string) : list string :=
  match s with
  | EmptyString => [cur]
  | String c rest =>
      match skip with
      | S k => split_scan sep rest k cur
      | O =>
          if String.prefix sep s
          then cur :: split_scan sep rest (String.length sep - 1) ""
          else split_scan sep rest 0 (cur ++ String c "")
      end
  end.

(** [s.split(sep)]: with the empty separator, the code units of [s]. *)
Definition split_string (s sep : string) : list string :=
  match sep with
  | EmptyString => map (fun c => String c "") (String.list_ascii_of_string s)
  | _ => split_scan sep s 0 ""
  end.

End Text.

(** ** Concrete inputs for the schema and the headers *)
Module ApiSamples.

(** The schema [{ "user": null }]. *)
Definition user_schema : Value.value := Value.VObj {[ "user" := Value.VNull ]}.

(** A store with one header object, as a configuration holds it. *)
Definition configured_store : Headers.store :=
  {| Headers.next_ref := 1;
     Headers.objects := {[ 0%nat := {[ "Accept" := "application/json" ]} ]} |}.

End ApiSamples.

(** ** The timeout of a request ([get], [post], [put], [delete], [patch]) *)
Module Requests.
Import ApiClient.

(** [timeout: options?.timeout || this.timeout] *)
Definition request_timeout (options_timeout : option Z) (c : client) : Z :=
  num_or options_timeout (timeout c).

End Requests.

(** ** Comparisons of numbers *)
Module NumberOrder.
Import Number.

(** [a >= b] *)
Definition geb (a b : number) : bool :=
  match a, b with
  | NaN, _ | _, NaN => false
  | Fin x, Fin y => Qle_bool y x
  | Inf s, Inf t => s || negb t
  | Inf s, Fin _ => s
  | Fin _, Inf t => negb t
  end.

(** [a < b] *)
Definition ltb (a b : number) : bool :=
  match a, b with
  | NaN, _ | _, NaN => false
  | Fin x, Fin y => negb (Qle_bool y x)
  | Inf s, Inf t => negb s && t
  | Inf s, Fin _ => negb s
  | Fin _, Inf t => t
  end.

(** [a > b] *)
Definition gtb (a b : number) : bool := ltb b a.

(** Whether a number that may be [undefined] is truthy: [undefined], 0 and
    [NaN] are not. *)
Definition truthy (n : option number) : bool :=
  match n with
  | Some (Fin x) => negb (Qeq_bool x 0)
  | Some (Inf _) => true
  | Some NaN | None => false
  end.

End NumberOrder.

(** ** The checks of the accessibility report ([AccessibilityHelper])

    The page is what the checks read of the document, taken at the time of
    the report; its texts are sequences of code units below 256. *)
Module AccessibilityChecks.
Import Number NumberOrder.

Record text_element := {
  tag : string;                       (* element.tagName.toLowerCase() *)
  color : string;                     (* getComputedStyle(element).color *)
  backgroundColor : string
}.

Record image := {
  src : string;                       (* img.src *)
  alt : string                        (* img.alt *)
}.

Record heading := {
  level : nat;                        (* parseInt(heading.tagName.charAt(1)) *)
  textContent : string
}.

Record page := {
  text_elements : list text_element;  (* 'p, h1, h2, h3, h4, h5, h6, span, a, button, label' *)
  images : list image;                (* 'img' *)
  headings : list heading;            (* 'h1, h2, h3, h4, h5, h6' *)
  matching : string → nat             (* document.querySelectorAll(selector).length *)
}.

(** *** [checkColorContrast] *)

Record contrast_entry := {
  selector : string;
  contrast : number;
  entry_passed : bool
}.

Record contrast_result := {
  contrast_passed : bool;
  contrast_elements : list contrast_entry
}.

(** The placeholder of the source: 4.5 for every pair of colours. *)
Definition getContrastRatio (color1 color2 : string) : number := Fin (9 # 2).

(** [checkColorContrast(threshold = 4.5)] *)
Definition checkColorContrast (threshold : option number) (p : page) : contrast_result :=
  let contrastThreshold := default (Fin (9 # 2)) threshold in
  let elements :=
    imap (fun index element =>
            let contrast := getContrastRatio (color element) (backgroundColor element) in
            {| selector := tag element ++ ":nth-child("
                           ++ show_Z (Z.of_nat index + 1) ++ ")";
               contrast := contrast;
               entry_passed := geb contrast contrastThreshold |})
         (text_elements p) in
  {| contrast_passed := forallb entry_passed elements;
     contrast_elements := elements |}.

(** *** [checkImageAltText] *)

Record alt_issue := {
  issue_src : string;
  issue : string
}.

Record alt_result := {
  alt_passed : bool;
  alt_issues : list alt_issue;
  totalImages : nat
}.

(** The body of the loop: the issue pushed for an image, if any. *)
Definition image_issue (img : image) : option alt_issue :=
  let src := or_else (Some (src img)) "unknown" in
  let alt := alt img in
  if String.eqb alt ""
  then Some {| issue_src := src; issue := "Missing alt attribute" |}
  else if String.eqb (Text.trim alt) ""
  then Some {| issue_src := src; issue := "Empty alt attribute" |}
  else if (125 <? String.length alt)%nat
  then Some {| issue_src := src; issue := "Alt text too long (>125 characters)" |}
  else None.

Definition checkImageAltText (p : page) : alt_result :=
  let issues := omap image_issue (images p) in
  {| alt_passed := (length issues =? 0)%nat;
     alt_issues := issues;
     totalImages := length (images p) |}.

(** *** [checkHeadingStructure] *)

Record heading_data := {
  data_level : nat;
  data_text : string
}.

Record heading_result := {
  heading_passed : bool;
  heading_issues : list string;
  heading_headings : list heading_data
}.

(** [heading.textContent?.trim() || ''] *)
Definition heading_text (h : heading) : string :=
  or_else (Some (Text.trim (textContent h))) "".

Definition show_nat (n : nat) : string := show_Z (Z.of_nat n).

Definition jump_message (previousLevel level : nat) (text : string) : string :=
  "Heading level jump from h" ++ show_nat previousLevel ++ " to h"
  ++ show_nat level ++ " at " ++ Reporter.dquote ++ text ++ Reporter.dquote.

Definition empty_message (level : nat) : string :=
  "Empty heading at level h" ++ show_nat level.

(** The issues pushed for the heading at [index], [previousLevel] being
    the level of the heading before it (0 at the start). *)
Definition heading_step (index previousLevel : nat) (h : heading) : list string :=
  let level := level h in
  let text := heading_text h in
  ((if (index =? 0)%nat && negb (level =? 1)%nat
    then ["First heading should be h1"] else []) ++
   (if (1 <? Z.of_nat level - Z.of_nat previousLevel)%Z
    then [jump_message previousLevel level text] else []) ++
   (if String.eqb text "" then [empty_message level] else []))%list.

(** The loop over the headings. *)
Fixpoint heading_loop (index previousLevel : nat) (hs : list heading)
    (issues : list string) : list string :=
  match hs with
  | [] => issues
  | h :: rest =>
      heading_loop (S index) (level h) rest
                   (issues ++ heading_step index previousLevel h)%list
  end.

Definition checkHeadingStructure (p : page) : heading_result :=
  let issues := heading_loop 0 0 (headings p) [] in
  let issues :=
    if (length (headings p) =? 0)%nat
    then (issues ++ ["No headings found on page"])%list else issues in
  {| heading_passed := (length issues =? 0)%nat;
     heading_issues := issues;
     heading_headings :=
       map (fun h => {| data_level := level h; data_text := heading_text h |})
           (headings p) |}.

(** *** [checkARIALandmarks] *)

Record landmark_result := {
  landmark_passed : bool;
  landmarks : list string;
  recommendations : list string
}.

(** The selector [tag, [role=<dquote>role<dquote>]]. *)
Definition tag_or_role (tag role : string) : string :=
  tag ++ ", [role=" ++ Reporter.dquote ++ role ++ Reporter.dquote ++ "]".

Definition landmarkSelectors : list string :=
  [ tag_or_role "header" "banner";
    tag_or_role "nav" "navigation";
    tag_or_role "main" "main";
    tag_or_role "footer" "contentinfo";
    tag_or_role "aside" "complementary";
    tag_or_role "section" "region" ].

(** [selector.split(',')[0].trim()]; a split has a first field. *)
Definition first_field (selector : string) : string :=
  Text.trim (default "" (head (Text.split_string selector ","))).

Definition checkARIALandmarks (p : page) : landmark_result :=
  let landmarks :=
    map first_field
        (List.filter (fun selector => (0 <? matching p selector)%nat)
                     landmarkSelectors) in
  let mainElements := matching p (tag_or_role "main" "main") in
  let navElements := matching p (tag_or_role "nav" "navigation") in
  let recommendations :=
    ((if (mainElements =? 0)%nat
      then ["Add a main landmark for primary content"]
      else if (1 <? mainElements)%nat
      then ["Multiple main landmarks found - should have only one"]
      else []) ++
     (if (navElements =? 0)%nat
      then ["Consider adding navigation landmarks"] else []))%list in
  {| landmark_passed := (length recommendations =? 0)%nat;
     landmarks := landmarks;
     recommendations := recommendations |}.

(** *** [generateAccessibilityReport]

    The checks that are not modelled come as their outcome: the number of
    violations that the axe scan returns, and the [passed] flags of the
    keyboard and the form check. *)

Record report := {
  report_checks : Accessibility.results;
  report_landmarks : list string;          (* ariaLandmarks.landmarks *)
  report_overallScore : number
}.

Definition generateAccessibilityReport (p : page) (axe_violations : nat)
    (keyboardNavigation formAccessibility : bool) : report :=
  let colorContrast := checkColorContrast None p in
  let imageAltText := checkImageAltText p in
  let headingStructure := checkHeadingStructure p in
  let ariaLandmarks := checkARIALandmarks p in
  let checks :=
    {| Accessibility.keyboardNavigation := keyboardNavigation;
       Accessibility.colorContrast := contrast_passed colorContrast;
       Accessibility.imageAltText := alt_passed imageAltText;
       Accessibility.formAccessibility := formAccessibility;
       Accessibility.headingStructure := heading_passed headingStructure;
       Accessibility.ariaLandmarks := landmark_passed ariaLandmarks;
       Accessibility.violations := axe_violations |} in
  {| report_checks := checks;
     report_landmarks := landmarks ariaLandmarks;
     report_overallScore := Accessibility.overallScore checks |}.

(** *** [validateAccessibilityStandards] *)

Record standards := {
  minimumScore : option number;
  maxViolations : option number;
  requiredLandmarks : option (list string)
}.

(** The failures, each with what its message shows:
    [Overall score <score.toFixed(1)>% below minimum <minimum>%],
    [<violations> violations exceed maximum <maximum>],
    [Missing required landmarks: <missing.join(', ')>]. *)
Inductive failure :=
| ScoreBelowMinimum (score minimum : number)
| ViolationsExceedMaximum (violations : nat) (maximum : number)
| MissingRequiredLandmarks (missing : list string).

(** [list.includes(x)] on texts *)
Definition includes (l : list string) (x : string) : bool :=
  existsb (String.eqb x) l.

Definition validateAccessibilityStandards (r : report) (s : standards)
  : bool * list failure :=
  let violations := Accessibility.violations (report_checks r) in
  let failures :=
    ((if truthy (minimumScore s)
         && ltb (report_overallScore r) (default NaN (minimumScore s))
      then [ScoreBelowMinimum (report_overallScore r) (default NaN (minimumScore s))]
      else []) ++
     (if truthy (maxViolations s)
         && gtb (of_nat violations) (default NaN (maxViolations s))
      then [ViolationsExceedMaximum violations (default NaN (maxViolations s))]
      else []) ++
     match requiredLandmarks s with
     | Some required =>
         let missingLandmarks :=
           List.filter (fun landmark => negb (includes (report_landmarks r) landmark))
                       required in
         if (0 <? length missingLandmarks)%nat
         then [MissingRequiredLandmarks missingLandmarks] else []
     | None => []
     end)%list in
  ((length failures =? 0)%nat, failures).

End AccessibilityChecks.

(** ** Concrete pages *)
Module PageSamples.
Import AccessibilityChecks.

(** A page with one heading, [<h2>News</h2>], and nothing else. *)
Definition news_page : page :=
  {| text_elements := [ {| tag := "h2"; color := "rgb(0, 0, 0)";
                           backgroundColor := "rgba(0, 0, 0, 0)" |} ];
     images := [];
     headings := [ {| level := 2; textContent := "News" |} ];
     matching := fun _ => 0%nat |}.

End PageSamples.

(** ** The retry loop at any count

    [clickElement] and [fillInput] take their count as a number, which
    need not be a natural number. *)
Module RetryLoop.
Import Number NumberOrder BasePage.

(** [retries - 1] *)
Definition minus_one (retries : number) : number :=
  match retries with
  | Fin q => Fin (q - 1)
  | other => other
  end.

(** [i++] on the loop index: at 2^53 a binary64 number no longer grows
    by 1. *)
Definition next (i : nat) : nat :=
  if (Z.of_nat i <? 2 ^ 53)%Z then S i else i.

(** The loop
    [for (let i = 0; i < retries; i++) { try {...; return} catch (error)
    { if (i === retries - 1) throw error; warn; wait } }]
    from index [i] on.  With the count [Infinity] it need not end: [fuel]
    bounds the number of times the test [i < retries] is evaluated, and the
    outcome [None] says that the loop is still running then. *)
Fixpoint retry_loop (what : string) (act : interaction) (retries : number)
    (fuel i : nat) : list event * option outcome :=
  match fuel with
  | O => ([], None)
  | S fuel' =>
      if ltb (of_nat i) retries
      then
        match act i with
        | None => ([Attempt i], Some Returned)
        | Some error =>
            if eqb (of_nat i) (minus_one retries)
            then ([Attempt i], Some (Thrown error))
            else
              let '(evs, out) := retry_loop what act retries fuel' (next i) in
              (Attempt i
                 :: Warn (what ++ " attempt " ++ show_Z (Z.of_nat (i + 1))
                          ++ " failed, retrying...")
                 :: WaitForTimeout 1000 :: evs, out)
        end
      else ([], Some Returned)
  end.

(** [clickElement(locator, retries = 3)]; [None] is a count left out. *)
Definition clickElement (act : interaction) (retries : option number) (fuel : nat)
  : list event * option outcome :=
  retry_loop "Click" act (default (of_nat 3) retries) fuel 0.

(** [fillInput(locator, value, retries = 3)] *)
Definition fillInput (act : interaction) (retries : option number) (fuel : nat)
  : list event * option outcome :=
  retry_loop "Fill" act (default (of_nat 3) retries) fuel 0.

Inductive helper := ClickElement | FillInput.

Definition perform (h : helper) (act : interaction) (retries : option number)
    (fuel : nat) : list event * option outcome :=
  match h with
  | ClickElement => clickElement act retries fuel
  | FillInput => fillInput act retries fuel
  end.

End RetryLoop.

(** ** Test data as a file holds it

    [JSON.parse] returns whatever JSON the file holds, of the shape of
    [TestData] or not, and [loadTestData] stores it as it is. *)
Module Json.

#[local] Unset Elimination Schemes.
Inductive json :=
| JNull
| JBool (b : bool)
| JNum (n : Number.number)
| JStr (s : string)
| JArr (items : list json)
| JObj (fields : gmap string json).
#[local] Set Elimination Schemes.

(** Truthiness of a value that may be [undefined] ([None]). *)
Definition truthy (v : option json) : bool :=
  match v with
  | None | Some JNull => false
  | Some (JBool b) => b
  | Some (JNum n) => NumberOrder.truthy (Some n)
  | Some (JStr s) => negb (String.eqb s "")
  | Some (JArr _) | Some (JObj _) => true
  end.

(** [v[key]] on a value that is not [null], for a key that is no index and
    no member of a built-in prototype (as are [users], [searchQueries],
    [urls], [environments] and [name]): the property of an object,
    [undefined] on an array, a text, a number or a boolean. *)
Definition member (key : string) (v : json) : option json :=
  match v with
  | JObj fields => fields !! key
  | _ => None
  end.

(** [v?.[key]] *)
Definition optional_member (key : string) (v : json) : option json :=
  match v with
  | JNull => None
  | _ => member key v
  end.

(** The data of the declared types, as JSON. *)
Import TestData.

Definition of_Role (r : Role) : json :=
  JStr match r with admin => "admin" | user => "user" | guest => "guest" end.

Definition of_Theme (t : Theme) : json :=
  JStr match t with light => "light" | dark => "dark" end.

Definition of_Category (c : Category) : json :=
  JStr match c with
       | valid => "valid" | invalid => "invalid"
       | edge_case => "edge-case" | performance => "performance"
       end.

Definition of_Behavior (b : Behavior) : json :=
  JStr match b with pass => "pass" | fail => "fail" end.

Definition of_Z (z : Z) : json := JNum (Number.Fin (inject_Z z)).

Definition of_Address (a : Address) : json :=
  JObj {[ "street" := JStr (street a); "city" := JStr (city a);
          "state" := JStr (state a); "country" := JStr (country a);
          "zipCode" := JStr (zipCode a) ]}.

Definition of_UserPreferences (p : UserPreferences) : json :=
  JObj {[ "language" := JStr (language p); "theme" := of_Theme (theme p);
          "notifications" := JBool (notifications p);
          "newsletter" := JBool (newsletter p) ]}.

Definition of_UserProfile (p : UserProfile) : json :=
  JObj {[ "firstName" := JStr (firstName p); "lastName" := JStr (lastName p);
          "dateOfBirth" := JStr (dateOfBirth p);
          "address" := of_Address (address p);
          "preferences" := of_UserPreferences (preferences p) ]}.

Definition of_User (u : User) : json :=
  JObj {[ "id" := JStr (user_id u); "username" := JStr (username u);
          "email" := JStr (email u); "password" := JStr (password u);
          "role" := of_Role (role u); "profile" := of_UserProfile (profile u) ]}.

Definition of_SearchQuery (q : SearchQuery) : json :=
  JObj {[ "id" := JStr (query_id q); "query" := JStr (query q);
          "expectedResults" := of_Z (expectedResults q);
          "category" := of_Category (category q);
          "description" := JStr (description q);
          "expectedBehavior" := of_Behavior (expectedBehavior q) ]}.

Definition of_UrlData (u : UrlData) : json :=
  JObj {[ "id" := JStr (url_id u); "name" := JStr (url_name u);
          "url" := JStr (url u); "environment" := JStr (url_environment u);
          "expectedStatus" := of_Z (expectedStatus u);
          "timeout" := of_Z (timeout u) ]}.

Definition of_Credentials (c : Credentials) : json :=
  JObj {[ "username" := JStr (cred_username c);
          "password" := JStr (cred_password c) ]}.

Definition of_Environment (e : Environment) : json :=
  JObj {[ "name" := JStr (env_name e); "baseUrl" := JStr (baseUrl e);
          "apiUrl" := JStr (apiUrl e);
          "features" := JArr (map JStr (features e));
          "credentials" := of_Credentials (credentials e) ]}.

Definition of_TestData (d : TestData) : json :=
  JObj {[ "users" := JArr (map of_User (users d));
          "searchQueries" := JArr (map of_SearchQuery (searchQueries d));
          "urls" := JArr (map of_UrlData (urls d));
          "environments" := JArr (map of_Environment (environments d)) ]}.

End Json.

(** ** [TestDataManager] on the content of the files *)
Module TestDataFile.
Import Json.

(** The file system as [loadTestData] sees it.  A path that exists is
    bound to the outcome of [JSON.parse(fs.readFileSync(path, 'utf-8'))]:
    a throw (unreadable file, malformed JSON) or the JSON value that the
    file holds. *)
Record filesystem := {
  cwd : string;                                        (* process.cwd() *)
  files : gmap string (result json)
}.

(** [fs.existsSync] *)
Definition existsSync (fs : filesystem) (p : string) : bool :=
  bool_decide (is_Some (files fs !! p)).

(** [JSON.parse(fs.readFileSync(p, 'utf-8'))] *)
Definition readParse (fs : filesystem) (p : string) : result json :=
  match files fs !! p with
  | Some r => r
  | None => Throw "ENOENT: no such file or directory"
  end.

Record manager := {
  environment : string;
  testData : json                    (* [JNull] is [null] *)
}.

(** [new TestDataManager(environment)] *)
Definition new (environment : string) : manager :=
  {| environment := environment; testData := JNull |}.

Definition set_testData (d : json) (m : manager) : manager :=
  {| environment := environment m; testData := d |}.

(** [getDefaultTestData()] *)
Definition getDefaultTestData : json :=
  of_TestData TestDataManager.getDefaultTestData.

(** [loadTestData()] *)
Definition loadTestData (fs : filesystem) (m : manager) : result manager :=
  try_catch
    (let dataDir :=
       TestDataManager.path_join (TestDataManager.path_join (cwd fs) "src") "data" in
     let envDataFile := TestDataManager.path_join dataDir (environment m ++ ".json") in
     let defaultDataFile := TestDataManager.path_join dataDir "default.json" in
     let dataFile :=
       if existsSync fs envDataFile then envDataFile else defaultDataFile in
     if existsSync fs dataFile
     then d ← readParse fs dataFile; mret (set_testData d m)
     else mret (set_testData getDefaultTestData m))
    (fun error => mret (set_testData getDefaultTestData m)).

(** [initialize()] *)
Definition initialize (fs : filesystem) (m : manager) : result manager :=
  loadTestData fs m.

(** [x || []] *)
Definition or_empty (x : option json) : json :=
  match x with
  | Some v => if truthy (Some v) then v else JArr []
  | None => JArr []
  end.

(** [this.testData?.users || []] *)
Definition getUsers (m : manager) : json :=
  or_empty (optional_member "users" (testData m)).

Definition getSearchQueries (m : manager) : json :=
  or_empty (optional_member "searchQueries" (testData m)).

Definition getUrls (m : manager) : json :=
  or_empty (optional_member "urls" (testData m)).

(** [envs.find(env => env.name === name)] on an array: reading [name] of
    an element that is [null] throws. *)
Fixpoint find_by_name (name : string) (envs : list json) : result (option json) :=
  match envs with
  | [] => Ok None
  | env :: rest =>
      match env with
      | JNull => Throw "TypeError: Cannot read properties of null (reading 'name')"
      | _ =>
          match member "name" env with
          | Some (JStr s) => if String.eqb s name then Ok (Some env)
                             else find_by_name name rest
          | _ => find_by_name name rest
          end
      end
  end.

(** [this.testData?.environments.find(env => env.name === name)]: past
    the [?.], [environments] is read and [find] called on it, which
    throws unless it is an array. *)
Definition getEnvironment (m : manager) (name : string) : result (option json) :=
  match testData m with
  | JNull => Ok None
  | d =>
      match member "environments" d with
      | Some (JArr envs) => find_by_name name envs
      | Some JNull | None =>
          Throw "TypeError: Cannot read properties of undefined (reading 'find')"
      | Some _ =>
          Throw "TypeError: this.testData.environments.find is not a function"
      end
  end.

(** The file [loadTestData] settles on: the environment's file when it
    exists, the default file otherwise ([None]: neither exists). *)
Definition selected (fs : filesystem) (env : string) : option (result json) :=
  let dataDir :=
    TestDataManager.path_join (TestDataManager.path_join (cwd fs) "src") "data" in
  match files fs !! TestDataManager.path_join dataDir (env ++ ".json") with
  | Some r => Some r
  | None => files fs !! TestDataManager.path_join dataDir "default.json"
  end.


(** The manager of the declared type, as it is at run time. *)
Definition at_run_time (m : TestDataManager.manager) : manager :=
  {| environment := TestDataManager.environment m;
     testData := match TestDataManager.testData m with
                 | Some d => of_TestData d
                 | None => JNull
                 end |}.

(** The files of the declared type, as they are at run time. *)
Definition files_at_run_time (fs : TestDataManager.filesystem) : filesystem :=
  {| cwd := TestDataManager.cwd fs;
     files :=
       (fun outcome : result (option TestData.TestData) =>
          match outcome with
          | Ok (Some d) => Ok (of_TestData d)
          | Ok None => Ok JNull
          | Throw error => Throw error
          end) <$> TestDataManager.files fs |}.

End TestDataFile.

(** ** Concrete data files *)
Module DataFileSamples.
Import Json.



(** A project whose [staging.json] is malformed and whose [default.json]
    holds data without users. *)
Definition broken_staging_file : TestDataFile.filesystem :=
  {| TestDataFile.cwd := "/work";
     TestDataFile.files :=
       {[ "/work/src/data/staging.json" := Throw "SyntaxError: Unexpected end of JSON input";
          "/work/src/data/default.json" :=
            Ok (of_TestData {| TestData.users := [];
                               TestData.searchQueries := [];
                               TestData.urls := [];
                               TestData.environments := [] |}) ]} |}.

End DataFileSamples.

(** * Properties *)

(** ** Strings *)

Lemma append_assoc (a b c : string) : (a ++ b) ++ c = a ++ (b ++ c).
Proof.
  induction a as [|x a IH]; [reflexivity|].
  change (String x ((a ++ b) ++ c) = String x (a ++ (b ++ c))).
  rewrite IH. reflexivity.
Qed.

(** ** The reporter's counters *)
Section ReporterCounters.
Import Reporter Samples.

Lemma delivered_cons s ev evs :
  delivered s (ev :: evs) =
  ((if decide (te_status ev = s) then 1 else 0) + delivered s evs)%nat.
Proof.
  unfold delivered. rewrite filter_cons.
  destruct (decide (te_status ev = s)); reflexivity.
Qed.

Lemma delivered_nil s : delivered s [] = 0%nat.
Proof. reflexivity. Qed.

(** One [onTestEnd] moves exactly the counter its [switch] case names. *)
Lemma onTestEnd_counters ev st :
  let st' := onTestEnd ev st in
  passedTests st' = (passedTests st + delivered passed [ev])%nat ∧
  failedTests st' =
    (failedTests st + delivered failed [ev] + delivered timedOut [ev])%nat ∧
  skippedTests st' = (skippedTests st + delivered skipped [ev])%nat ∧
  totalTests st' = totalTests st ∧
  results st' = (results st ++ [row_of ev])%list.
Proof.
  unfold onTestEnd, delivered.
  destruct ev as [t s d e p]; simpl.
  destruct s; simpl; repeat split; lia.
Qed.

Lemma foldl_onTestEnd evs : ∀ st,
  let st' := foldl (fun st ev => onTestEnd ev st) st evs in
  passedTests st' = (passedTests st + delivered passed evs)%nat ∧
  failedTests st' =
    (failedTests st + delivered failed evs + delivered timedOut evs)%nat ∧
  skippedTests st' = (skippedTests st + delivered skipped evs)%nat ∧
  totalTests st' = totalTests st ∧
  results st' = (results st ++ map row_of evs)%list.
Proof.
  induction evs as [|ev evs IH]; intros st; simpl.
  - unfold delivered; simpl. rewrite app_nil_r. repeat split; lia.
  - specialize (IH (onTestEnd ev st)). simpl in IH.
    destruct IH as (Hp & Hf & Hs & Ht & Hr).
    destruct (onTestEnd_counters ev st) as (Hp1 & Hf1 & Hs1 & Ht1 & Hr1).
    rewrite Hp, Hf, Hs, Ht, Hr, Hp1, Hf1, Hs1, Ht1, Hr1.
    rewrite !delivered_cons, !delivered_nil, <- app_assoc. simpl.
    repeat split; try reflexivity; lia.
Qed.

(** C1, as worded, fails: a timed-out result has no bucket of its own, it
    is counted as a failure (and the total is not a count of results). *)
Lemma C1_timeout_shares_failed_bucket :
  ¬ one_bucket_per_status 1 [timed_out_once].
Proof.
  unfold one_bucket_per_status. intros (_ & Hf & _). vm_compute in Hf. discriminate.
Qed.

(** C1, amended: over a whole run, [passedTests] counts the results with
    status passed, [failedTests] those with status failed or timedOut,
    [skippedTests] those with status skipped; an interrupted result moves
    no counter; [totalTests] is the size of the suite given to [onBegin];
    every delivered result is recorded, in order; and the summaries of the
    JSON and metrics reports carry these four counters. *)
Theorem C1_counters_follow_switch (allTests : nat) (evs : list TestEnd) :
  let st := run allTests evs in
  passedTests st = delivered passed evs ∧
  failedTests st = (delivered failed evs + delivered timedOut evs)%nat ∧
  skippedTests st = delivered skipped evs ∧
  totalTests st = allTests ∧
  results st = map row_of evs ∧
  (passedTests st + failedTests st + skippedTests st + delivered interrupted evs
   = length evs)%nat ∧
  (let s := generateJSONReport_summary st in
   (total s, passed_ s, failed_ s, skipped_ s)
   = (totalTests st, passedTests st, failedTests st, skippedTests st)) ∧
  (let s := generateMetricsReport_summary st in
   (total s, passed_ s, failed_ s, skipped_ s)
   = (totalTests st, passedTests st, failedTests st, skippedTests st)).
Proof.
  unfold run.
  destruct (foldl_onTestEnd evs (onBegin allTests init)) as (Hp & Hf & Hs & Ht & Hr).
  simpl in *. rewrite Hp, Hf, Hs, Ht, Hr. split_and!; try reflexivity.
  clear. induction evs as [|ev evs IH]; [reflexivity|].
  rewrite !(delivered_cons _ ev evs). simpl.
  destruct (te_status ev); repeat (case_decide; try congruence); simpl; lia.
Qed.

End ReporterCounters.

(** ** The success rate *)
Section SuccessRate.
Import Reporter Samples.

Lemma of_nat_nonzero n : (0 < n)%nat → Qeq_bool (inject_Z (Z.of_nat n)) 0 = false.
Proof.
  intros Hn. unfold Qeq_bool. simpl. apply Z.eqb_neq. lia.
Qed.

(** C4: the console summary, the JSON report, the HTML report and the
    metrics report each take the success rate from the guarded expression.
    On a zero total nothing is divided: every one of them shows the rate
    0, whatever the other counters are.  On a positive total the rate is
    the quotient, [passedTests / totalTests * 100] as computed on
    binary64 numbers: the JSON report stores it and the HTML report uses it
    as the width of its bar; the console prints it with two decimals and
    the HTML report with one; the metrics report stores it rounded to two
    decimals.  So with 1 test of 3 passed they show 33.33%, 33.3% and
    33.33; and with 23 of 160 passed, where the binary64 quotient lies
    just below 14.375, they show 14.37%, 14.4% and 14.37. *)
Theorem C4_rate_guarded (st : state) :
  (totalTests st = 0%nat →
   onEnd_successRate st = 0%float ∧
   onEnd_successRate_line st = "Success Rate: 0.00%" ∧
   successRate (generateJSONReport_summary st) = 0%float ∧
   generateHTMLReport_successRate st = 0%float ∧
   generateHTMLReport_successRate_text st = "0.0%" ∧
   successRate (generateMetricsReport_summary st) = 0%float) ∧
  ((0 < totalTests st)%nat →
   let quotient :=
     PrimFloat.mul (PrimFloat.div (Binary64.of_nat (passedTests st))
                                  (Binary64.of_nat (totalTests st)))
                   100%float in
   onEnd_successRate st = quotient ∧
   onEnd_successRate_line st
   = "Success Rate: " ++ Binary64.toFixed 2 quotient ++ "%" ∧
   successRate (generateJSONReport_summary st) = quotient ∧
   generateHTMLReport_successRate st = quotient ∧
   generateHTMLReport_successRate_text st = Binary64.toFixed 1 quotient ++ "%" ∧
   successRate (generateMetricsReport_summary st)
   = PrimFloat.div (Binary64.round (PrimFloat.mul quotient 100%float)) 100%float) ∧
  (totalTests st = 0%nat → passedTests st = 0%nat →
   PrimFloat.is_nan (unguarded_rate st) = true) ∧
  (successRate (generateJSONReport_summary one_of_three)
   = PrimFloat.mul (PrimFloat.div 1 3) 100 ∧
   onEnd_successRate_line one_of_three = "Success Rate: 33.33%" ∧
   generateHTMLReport_successRate_text one_of_three = "33.3%" ∧
   successRate (generateMetricsReport_summary one_of_three) = PrimFloat.div 3333 100) ∧
  (PrimFloat.ltb (onEnd_successRate twenty_three_of_160)
                 (PrimFloat.div 14375 1000) = true ∧
   onEnd_successRate_line twenty_three_of_160 = "Success Rate: 14.37%" ∧
   generateHTMLReport_successRate_text twenty_three_of_160 = "14.4%" ∧
   successRate (generateMetricsReport_summary twenty_three_of_160)
   = PrimFloat.div 1437 100).
Proof.
  assert (Binary64.of_nat 100 = 100%float) as H100 by (vm_compute; reflexivity).
  refine (conj _ (conj _ (conj _ (conj _ _))));
    [| | |vm_compute; auto|vm_compute; auto].
  all: unfold onEnd_successRate_line, generateHTMLReport_successRate_text,
    onEnd_successRate, generateHTMLReport_successRate,
    generateJSONReport_summary, generateMetricsReport_summary, unguarded_rate,
    guarded_rate; cbn [successRate].
  - intros ->. cbn [Nat.ltb Nat.leb]. split_and!; vm_compute; reflexivity.
  - intros Hpos. apply Nat.ltb_lt in Hpos. rewrite Hpos, H100.
    cbv zeta. split_and!; reflexivity.
  - intros -> ->. vm_compute. reflexivity.
Qed.

(** C4, witness: an empty suite. *)
Lemma C4_rate_guarded_empty_suite :
  onEnd_successRate_line (run 0 []) = "Success Rate: 0.00%" ∧
  successRate (generateMetricsReport_summary (run 0 [])) = 0%float ∧
  PrimFloat.is_nan (unguarded_rate (run 0 [])) = true.
Proof.
  destruct (C4_rate_guarded (run 0 [])) as (Hzero & _ & Hnan & _).
  destruct (Hzero eq_refl) as (_ & Hline & _ & _ & _ & Hmetrics).
  split_and!; [exact Hline | exact Hmetrics | exact (Hnan eq_refl eq_refl)].
Defined.

(** 23 tests of 80 passed: the binary64 quotient lies just below 28.75. *)
Example rates_of_23_in_80 :
  PrimFloat.ltb (onEnd_successRate twenty_three_of_80)
                (PrimFloat.div 2875 100) = true ∧
  onEnd_successRate_line twenty_three_of_80 = "Success Rate: 28.75%" ∧
  generateHTMLReport_successRate_text twenty_three_of_80 = "28.7%".
Proof. vm_compute. auto. Qed.

End SuccessRate.

(** ** The CSV report *)
Section CsvReport.
Import Reporter.

Lemma run_results allTests evs : results (run allTests evs) = map row_of evs.
Proof.
  unfold run.
  destruct (foldl_onTestEnd evs (onBegin allTests init)) as (_ & _ & _ & _ & Hr).
  exact Hr.
Qed.

(** Joining one more element: the separator, unless it is the first, and
    the element. *)
Lemma join_snoc (sep : string) (xs : list string) (x : string) :
  join sep (xs ++ [x])
  = join sep xs ++ (match xs with [] => "" | _ :: _ => sep end) ++ x.
Proof.
  induction xs as [|y xs IH]; [reflexivity|].
  destruct xs as [|z xs]; [reflexivity|].
  change (join sep ((y :: z :: xs) ++ [x]))
    with (y ++ sep ++ join sep ((z :: xs) ++ [x])).
  rewrite IH.
  change (join sep (y :: z :: xs)) with (y ++ sep ++ join sep (z :: xs)).
  rewrite !append_assoc. reflexivity.
Qed.

(** C5: the CSV content of a run without results is the header line; and
    every further result delivered adds, at the end of the content, a
    newline (unless it is the first result) and one row: the title, the
    status, the duration, the project name ([unknown] when the project has
    no name) and the error message of that result, each wrapped in double
    quotes and separated by commas, the Error field being empty when the
    result carries no error.  So the content is the header line followed
    by exactly one row per delivered result, in delivery order. *)
Theorem C5_csv_content (allTests : nat) (evs : list TestEnd) (ev : TestEnd) :
  let line_feed := String (Ascii.ascii_of_nat 10) "" in
  let quote := String (Ascii.ascii_of_nat 34) "" in
  generateCSVReport (run allTests [])
  = "Test Name,Status,Duration (ms),Project,Error" ++ line_feed ∧
  generateCSVReport (run allTests (evs ++ [ev]))
  = generateCSVReport (run allTests evs)
    ++ (match evs with [] => "" | _ :: _ => line_feed end)
    ++ quote ++ te_title ev ++ quote ++ ","
    ++ quote ++ (match te_status ev with
                 | passed => "passed"
                 | failed => "failed"
                 | timedOut => "timedOut"
                 | skipped => "skipped"
                 | interrupted => "interrupted"
                 end) ++ quote ++ ","
    ++ quote ++ show_Z (te_duration ev) ++ quote ++ ","
    ++ quote ++ (match te_project ev with
                 | Some name => if String.eqb name "" then "unknown" else name
                 | None => "unknown"
                 end) ++ quote ++ ","
    ++ quote ++ (match te_error ev with
                 | Some message => message
                 | None => ""
                 end) ++ quote.
Proof.
  cbv zeta. split; [reflexivity|].
  unfold generateCSVReport. cbv zeta. rewrite !run_results, !map_app.
  cbn [map]. rewrite join_snoc.
  assert (csvRow (row_of ev)
          = dquote ++ te_title ev ++ dquote ++ ","
            ++ dquote ++ status_string (te_status ev) ++ dquote ++ ","
            ++ dquote ++ show_Z (te_duration ev) ++ dquote ++ ","
            ++ dquote ++ (match te_project ev with
                          | Some name => if String.eqb name "" then "unknown" else name
                          | None => "unknown"
                          end) ++ dquote ++ ","
            ++ dquote ++ (match te_error ev with
                          | Some message => message
                          | None => ""
                          end) ++ dquote) as ->.
  { unfold csvRow, quoted, row_of. cbn [title status duration projectName error].
    rewrite !append_assoc.
    assert (or_else (te_error ev) ""
            = match te_error ev with Some message => message | None => "" end) as ->.
    { destruct (te_error ev) as [message|]; [|reflexivity].
      unfold or_else. destruct (String.eqb_spec message ""); congruence. }
    reflexivity. }
  rewrite !append_assoc.
  destruct evs as [|ev0 evs], (te_status ev); reflexivity.
Qed.

Example csv_of_two_results :
  generateCSVReport (run 2 [Samples.timed_out_once; Samples.result_with skipped])
  = "Test Name,Status,Duration (ms),Project,Error" ++ newline
    ++ quoted "loads the page" ++ "," ++ quoted "timedOut" ++ "," ++ quoted "30000"
    ++ "," ++ quoted "chromium" ++ "," ++ quoted "Test timeout of 30000ms exceeded."
    ++ newline
    ++ quoted "opens the home page" ++ "," ++ quoted "skipped" ++ "," ++ quoted "1250"
    ++ "," ++ quoted "firefox" ++ "," ++ quoted "".
Proof. reflexivity. Qed.

Example csv_of_no_result :
  generateCSVReport (run 0 []) = "Test Name,Status,Duration (ms),Project,Error" ++ newline.
Proof. reflexivity. Qed.

End CsvReport.

(** ** Retries of the interaction helpers *)
Section Retry.
Import BasePage.

Lemma attempts_step i msg evs :
  attempts (Attempt i :: Warn msg :: WaitForTimeout 1000 :: evs) = S (attempts evs).
Proof. reflexivity. Qed.

Lemma sleeps_step i msg evs :
  sleeps (Attempt i :: Warn msg :: WaitForTimeout 1000 :: evs) = 1000%Z :: sleeps evs.
Proof. reflexivity. Qed.

(** The loop, when every attempt from [i] on fails: it makes all the
    remaining attempts, sleeps 1000 ms between two of them, and throws
    the error of the last one. *)
Lemma retry_loop_exhausted what act retries : ∀ remaining i,
  (i + remaining = retries)%nat →
  (0 < remaining)%nat →
  (∀ j, (i ≤ j < retries)%nat → is_Some (act j)) →
  attempts (fst (retry_loop what act retries remaining i)) = remaining ∧
  sleeps (fst (retry_loop what act retries remaining i))
    = replicate (remaining - 1) 1000%Z ∧
  Some (snd (retry_loop what act retries remaining i))
    = Thrown <$> act (retries - 1)%nat.
Proof.
  induction remaining as [|remaining IH]; intros i Hsum Hpos Hfail; [lia|].
  simpl. destruct (Hfail i ltac:(lia)) as [e He]. rewrite He.
  destruct (Nat.eqb_spec i (retries - 1)) as [Hlast|Hmore].
  - assert (remaining = 0%nat) as -> by lia. simpl.
    rewrite <- Hlast, He. auto.
  - destruct remaining as [|remaining]; [lia|].
    assert (∀ j, (S i ≤ j < retries)%nat → is_Some (act j)) as Hfail'.
    { intros j Hj. apply Hfail. lia. }
    destruct (IH (S i) ltac:(lia) ltac:(lia) Hfail') as (Ha & Hs & Ho).
    destruct (retry_loop what act retries (S remaining) (S i)) as [evs out].
    cbn [fst snd] in *. rewrite attempts_step, sleeps_step, Ha, Hs.
    split_and!; [reflexivity | | exact Ho].
    replace (S remaining - 0)%nat with (S (S remaining - 1)) by lia. reflexivity.
Qed.

(** The loop returns at the first attempt that succeeds, having slept
    once per failed attempt. *)
Lemma retry_loop_success what act retries : ∀ remaining i k,
  (i + remaining = retries)%nat →
  first_success_from act remaining i = Some k →
  attempts (fst (retry_loop what act retries remaining i)) = (S k - i)%nat ∧
  sleeps (fst (retry_loop what act retries remaining i))
    = replicate (k - i) 1000%Z ∧
  snd (retry_loop what act retries remaining i) = Returned ∧
  (i ≤ k < retries)%nat.
Proof.
  induction remaining as [|remaining IH]; intros i k Hsum Hk; [discriminate|].
  simpl in *. destruct (act i) as [e|] eqn:He.
  - assert (first_success_from act remaining (S i) = Some k → (S i ≤ k)%nat) as Hge.
    { clear. revert i. induction remaining as [|r IHr]; intros i; [discriminate|].
      simpl. destruct (act (S i)); [|intros [= <-]; lia].
      intros H. apply IHr in H. lia. }
    specialize (Hge Hk).
    destruct (Nat.eqb_spec i (retries - 1)) as [Hlast|Hmore].
    + assert (remaining = 0%nat) as -> by lia. discriminate.
    + destruct (IH (S i) k ltac:(lia) Hk) as (Ha & Hs & Ho & Hb).
      destruct (retry_loop what act retries remaining (S i)) as [evs out].
      cbn [fst snd] in *. rewrite attempts_step, sleeps_step, Ha, Hs.
      replace (k - i)%nat with (S (k - S i)) by lia.
      replace (S k - i)%nat with (S (S k - S i)) by lia.
      split_and!; auto; lia.
  - injection Hk as <-. simpl.
    replace (S i - i)%nat with 1%nat by lia. rewrite Nat.sub_diag.
    split_and!; auto; lia.
Qed.

(** C2, as worded, fails: [pressKey] awaits the key press once and lets
    its error through, with no second attempt and no sleep. *)
Lemma C2_pressKey_is_not_retried : ¬ uniform_retry_policy PressKey.
Proof.
  intros H. destruct (H "Timeout 30000ms exceeded.") as (Ha & _).
  vm_compute in Ha. discriminate.
Qed.

(** C2, amended: [clickElement] and [fillInput], called with their
    default count, make at most three attempts in all: they return at the
    first attempt that succeeds, sleep 1000 ms after each failed attempt
    but the third, and throw the error of the third; [pressKey],
    [clickMoreInfoLink] and [clearSearchBox] make one attempt and let its
    error through. *)
Theorem C2_retry_policy (h : helper) (act : interaction) :
  let evs := fst (perform h act) in
  let out := snd (perform h act) in
  match h with
  | ClickElement | FillInput =>
      match first_success act 3 with
      | Some k =>
          (k < 3)%nat ∧ attempts evs = S k ∧
          sleeps evs = replicate k 1000%Z ∧ out = Returned
      | None =>
          attempts evs = 3%nat ∧ sleeps evs = [1000; 1000]%Z ∧
          Some out = Thrown <$> act 2%nat
      end
  | PressKey | ClickMoreInfoLink | ClearSearchBox =>
      attempts evs = 1%nat ∧ sleeps evs = [] ∧
      out = match act 0%nat with None => Returned | Some e => Thrown e end
  end.
Proof.
  assert (∀ what,
    match first_success act 3 with
    | Some k =>
        (k < 3)%nat ∧
        attempts (fst (retry_loop what act 3 3 0)) = S k ∧
        sleeps (fst (retry_loop what act 3 3 0)) = replicate k 1000%Z ∧
        snd (retry_loop what act 3 3 0) = Returned
    | None =>
        attempts (fst (retry_loop what act 3 3 0)) = 3%nat ∧
        sleeps (fst (retry_loop what act 3 3 0)) = [1000; 1000]%Z ∧
        Some (snd (retry_loop what act 3 3 0)) = Thrown <$> act 2%nat
    end) as Hloop.
  { intros what. unfold first_success.
    destruct (first_success_from act 3 0) as [k|] eqn:Hk.
    - destruct (retry_loop_success what act 3 3 0 k eq_refl Hk) as (Ha & Hs & Ho & Hb).
      rewrite Nat.sub_0_r in Ha, Hs. split_and!; auto; lia.
    - apply (retry_loop_exhausted what act 3 3 0 eq_refl); [lia|].
      intros j Hj. simpl in Hk.
      destruct (act 0%nat) eqn:H0; [|discriminate].
      destruct (act 1%nat) eqn:H1; [|discriminate].
      destruct (act 2%nat) eqn:H2; [|discriminate].
      assert (j = 0 ∨ j = 1 ∨ j = 2)%nat as [->|[->| ->]] by lia;
        rewrite ?H0, ?H1, ?H2; eauto. }
  destruct h; simpl;
    try apply Hloop;
    unfold pressKey, clickMoreInfoLink, clearSearchBox, once;
    destruct (act 0%nat); auto.
Qed.

Example click_succeeds_at_second_attempt :
  clickElement (succeeds_at 1 "element is not visible") default_retries
  = ([ Attempt 0; Warn "Click attempt 1 failed, retrying..."; WaitForTimeout 1000;
       Attempt 1 ], Returned).
Proof. reflexivity. Qed.

Example fill_gives_up_after_third_attempt :
  fillInput (always_fails "element is detached") default_retries
  = ([ Attempt 0; Warn "Fill attempt 1 failed, retrying..."; WaitForTimeout 1000;
       Attempt 1; Warn "Fill attempt 2 failed, retrying..."; WaitForTimeout 1000;
       Attempt 2 ], Thrown "element is detached").
Proof. reflexivity. Qed.

(** With a count of zero the loop body never runs: nothing is clicked and
    the helper returns normally. *)
Example click_with_zero_retries act : clickElement act 0 = ([], Returned).
Proof. reflexivity. Qed.

End Retry.

(** ** Loading the test data *)
Section LoadTestData.
Import TestData Json TestDataFile DataFileSamples.

(** [loadTestData] never throws, and what it stores is decided by the
    selected file. *)
Lemma loadTestData_selected fs m :
  loadTestData fs m
  = Ok (set_testData
          match selected fs (environment m) with
          | Some (Ok content) => content
          | Some (Throw _) | None => getDefaultTestData
          end m).
Proof.
  unfold loadTestData, selected, readParse.
  set (dataDir := TestDataManager.path_join (TestDataManager.path_join (cwd fs) "src")
                                            "data").
  set (envf := TestDataManager.path_join dataDir (environment m ++ ".json")).
  set (deff := TestDataManager.path_join dataDir "default.json").
  assert (∀ p, existsSync fs p = bool_decide (is_Some (files fs !! p))) as Hex
    by reflexivity.
  destruct (files fs !! envf) as [r|] eqn:He.
  - rewrite !(Hex envf), He, !bool_decide_eq_true_2 by done.
    rewrite Hex, He, bool_decide_eq_true_2 by done.
    destruct r; reflexivity.
  - rewrite !(Hex envf), He, !bool_decide_eq_false_2 by (intros [? ?]; discriminate).
    rewrite Hex.
    destruct (files fs !! deff) as [r|] eqn:Hd.
    + rewrite bool_decide_eq_true_2 by done. destruct r; reflexivity.
    + rewrite bool_decide_eq_false_2 by (intros [? ?]; discriminate). reflexivity.
Qed.

Lemma member_of_TestData (d : TestData) :
  member "users" (of_TestData d) = Some (JArr (map of_User (users d))) ∧
  member "searchQueries" (of_TestData d)
  = Some (JArr (map of_SearchQuery (searchQueries d))) ∧
  member "urls" (of_TestData d) = Some (JArr (map of_UrlData (urls d))) ∧
  member "environments" (of_TestData d)
  = Some (JArr (map of_Environment (environments d))).
Proof. split_and!; reflexivity. Qed.

Lemma optional_of_TestData (key : string) (d : TestData) :
  optional_member key (of_TestData d) = member key (of_TestData d).
Proof. reflexivity. Qed.

Lemma name_of_Environment (e : Environment) :
  member "name" (of_Environment e) = Some (JStr (env_name e)).
Proof. reflexivity. Qed.

Lemma find_by_name_typed (name : string) (envs : list Environment) :
  find_by_name name (map of_Environment envs)
  = Ok (of_Environment <$> List.find (fun e => String.eqb (env_name e) name) envs).
Proof.
  induction envs as [|e envs IH]; [reflexivity|].
  change (map of_Environment (e :: envs))
    with (of_Environment e :: map of_Environment envs).
  cbn [find_by_name List.find].
  change (of_Environment e)
    with (JObj {[ "name" := JStr (env_name e); "baseUrl" := JStr (baseUrl e);
                  "apiUrl" := JStr (apiUrl e);
                  "features" := JArr (map JStr (features e));
                  "credentials" := of_Credentials (credentials e) ]}) at 1.
  cbv beta iota.
  rewrite name_of_Environment.
  destruct (String.eqb (env_name e) name); [reflexivity | exact IH].
Qed.

Lemma getEnvironment_of_TestData (m : manager) (d : TestData) (name : string) :
  testData m = of_TestData d →
  getEnvironment m name
  = Ok (of_Environment <$> List.find (fun e => String.eqb (env_name e) name)
                                     (environments d)).
Proof.
  intros Hd. unfold getEnvironment. rewrite Hd.
  transitivity (find_by_name name (map of_Environment (environments d)));
    [reflexivity | apply find_by_name_typed].
Qed.



(** A malformed environment file falls back to the built-in data even when
    a default file exists. *)
Example broken_staging_uses_builtin_data :
  initialize broken_staging_file (new "staging")
  = Ok {| environment := "staging";
          testData := of_TestData TestDataManager.getDefaultTestData |}.
Proof.
  unfold initialize. rewrite loadTestData_selected. reflexivity.
Qed.

(** Another environment has no file of its own and gets the default file. *)
Example prod_uses_default_file :
  getUsers <$> initialize broken_staging_file (new "prod") = Ok (JArr []) ∧
  (fun m => getEnvironment m "prod") <$> initialize broken_staging_file (new "prod")
  = Ok (Ok None).
Proof.
  unfold initialize. rewrite !loadTestData_selected. split; reflexivity.
Qed.

(** At the declared type the getters of [TestDataManager] are those of the
    run-time data. *)
Lemma declared_type_getters (m : TestDataManager.manager) (name : string) :
  getUsers (at_run_time m) = JArr (map of_User (TestDataManager.getUsers m)) ∧
  getSearchQueries (at_run_time m)
  = JArr (map of_SearchQuery (TestDataManager.getSearchQueries m)) ∧
  getUrls (at_run_time m) = JArr (map of_UrlData (TestDataManager.getUrls m)) ∧
  getEnvironment (at_run_time m) name
  = Ok (of_Environment <$> TestDataManager.getEnvironment m name).
Proof.
  unfold TestDataManager.getUsers, TestDataManager.getSearchQueries,
    TestDataManager.getUrls, TestDataManager.getEnvironment, at_run_time.
  destruct (TestDataManager.testData m) as [d|]; [|split_and!; reflexivity].
  unfold getUsers, getSearchQueries, getUrls. cbn [testData].
  destruct (member_of_TestData d) as (Hu & Hq & Hl & He).
  rewrite !optional_of_TestData, Hu, Hq, Hl.
  split_and!; try reflexivity.
  apply getEnvironment_of_TestData. reflexivity.
Qed.

(** And on files that hold data of the declared type, [initialize] of
    [TestDataManager] is [initialize] on the content of the files. *)
Lemma declared_type_initialize (fs : TestDataManager.filesystem) (env : string) :
  at_run_time <$> TestDataManager.initialize fs (TestDataManager.new env)
  = initialize (files_at_run_time fs) (new env).
Proof.
  unfold initialize, loadTestData, TestDataManager.initialize,
    TestDataManager.loadTestData, existsSync, TestDataManager.existsSync,
    readParse, TestDataManager.readParse, files_at_run_time.
  cbv zeta.
  cbn [cwd files environment new TestDataManager.environment TestDataManager.new].
  set (dataDir := TestDataManager.path_join
                    (TestDataManager.path_join (TestDataManager.cwd fs) "src") "data").
  set (envf := TestDataManager.path_join dataDir (env ++ ".json")).
  set (deff := TestDataManager.path_join dataDir "default.json").
  assert (∀ (A : Type) (x : A), bool_decide (is_Some (Some x)) = true) as Hsome
    by (intros; apply bool_decide_eq_true_2; done).
  assert (∀ A : Type, bool_decide (is_Some (@None A)) = false) as Hnone
    by (intros; apply bool_decide_eq_false_2; intros [? ?]; discriminate).
  rewrite !lookup_fmap.
  destruct (TestDataManager.files fs !! envf) as [r|] eqn:He.
  - repeat first [ rewrite Hsome | rewrite He
                 | progress cbn [fmap option_fmap option_map] | progress cbv iota ].
    destruct r as [[d|]|e]; reflexivity.
  - repeat first [ rewrite Hnone | rewrite He
                 | progress cbn [fmap option_fmap option_map] | progress cbv iota ].
    destruct (TestDataManager.files fs !! deff) as [r|] eqn:Hd.
    + repeat first [ rewrite Hsome | rewrite Hd
                   | progress cbn [fmap option_fmap option_map] | progress cbv iota ].
      destruct r as [[d|]|e]; reflexivity.
    + repeat first [ rewrite Hnone | rewrite Hd
                   | progress cbn [fmap option_fmap option_map] | progress cbv iota ].
      reflexivity.
Qed.

End LoadTestData.

(** ** Queries by expected behaviour *)
Section ExpectedBehavior.
Import TestData TestDataManager Samples.

Lemma filter_sublist {A} (p : A → bool) (xs : list A) : sublist (List.filter p xs) xs.
Proof.
  induction xs as [|x xs IH]; simpl; [constructor|].
  destruct (p x); [apply sublist_skip | apply sublist_cons]; exact IH.
Qed.

Lemma byBehavior_filter m behavior :
  getSearchQueriesByBehavior m behavior
  = List.filter (fun q => bool_decide (expectedBehavior q = behavior))
                (getSearchQueries m).
Proof.
  unfold getSearchQueriesByBehavior, getSearchQueries.
  destruct (testData m); reflexivity.
Qed.

(** C6: the built-in default data, which is what [initialize] loads when
    no data file exists, holds exactly two queries expected to fail, the
    1000-character [long-query-search] (expecting 0 results) and
    [pagination-test]; and for every manager and behaviour,
    [getSearchQueriesByBehavior] returns the loaded queries with that
    expected behaviour: the same members, in the same order. *)
Theorem C6_queries_by_behavior :
  (∃ m0, initialize no_data_files (new "staging") = Ok m0 ∧
         map query_id (getSearchQueriesByBehavior m0 fail)
         = ["long-query-search"; "pagination-test"] ∧
         (String.length ∘ query) <$> getSearchQueryById m0 "long-query-search"
         = Some 1000%nat ∧
         expectedResults <$> getSearchQueryById m0 "long-query-search" = Some 0%Z ∧
         expectedBehavior <$> getSearchQueryById m0 "long-query-search" = Some fail ∧
         expectedBehavior <$> getSearchQueryById m0 "pagination-test" = Some fail) ∧
  (∀ m behavior,
     getSearchQueriesByBehavior m behavior
     = List.filter (fun q => bool_decide (expectedBehavior q = behavior))
                   (getSearchQueries m)) ∧
  (∀ m behavior q,
     q ∈ getSearchQueriesByBehavior m behavior
     ↔ q ∈ getSearchQueries m ∧ expectedBehavior q = behavior) ∧
  (∀ m behavior,
     sublist (getSearchQueriesByBehavior m behavior) (getSearchQueries m)).
Proof.
  split_and!.
  - eexists. split; [reflexivity|]. vm_compute. auto.
  - apply byBehavior_filter.
  - intros m behavior q. rewrite byBehavior_filter.
    rewrite !list_elem_of_In, filter_In, bool_decide_eq_true. reflexivity.
  - intros m behavior. rewrite byBehavior_filter. apply filter_sublist.
Qed.

End ExpectedBehavior.

(** ** Releasing what the fixtures hold *)
Section FixtureTeardown.
Import ApiClient.

(** [id] is not a member of a set it has just been removed from. *)
Ltac removed :=
  let Hin := fresh "Hin" in
  let Hne := fresh "Hne" in
  intros Hin; apply elem_of_difference in Hin as [_ Hne];
  apply Hne, elem_of_singleton; reflexivity.

Lemma cleanup_clears s :
  apiContext (run_client (foldl exec s (awaited CallCleanup))) = None.
Proof.
  simpl. unfold cleanup, cleanup_resumes.
  destruct (apiContext (run_client s)) eqn:Hc; simpl; [reflexivity|].
  destruct (disposing s); simpl; [exact Hc | reflexivity].
Qed.

Lemma cleanup_disposes s id :
  apiContext (run_client s) = Some id →
  id ∉ live (run_world (foldl exec s (awaited CallCleanup))).
Proof.
  intros Hc. simpl. unfold cleanup, cleanup_resumes. rewrite Hc. simpl. removed.
Qed.

(** Between two calls that are awaited nothing is pending. *)
Lemma awaited_requests_held w s (b : bool) :
  creating s = [] → disposing s = 0%nat → held_or_old w s →
  let s' := foldl exec s (awaited (if b then CallRequest else CallCleanup)) in
  creating s' = [] ∧ disposing s' = 0%nat ∧ held_or_old w s'.
Proof.
  destruct s as [w1 c pending d]. unfold held_or_old. simpl.
  intros -> -> H. destruct b; simpl.
  - unfold getContext, initialize_resumes. simpl.
    destruct (apiContext c) as [held|] eqn:Hc; simpl.
    + rewrite Hc. auto.
    + split_and!; [reflexivity | reflexivity |].
      intros id Hid. apply elem_of_union in Hid as [Hid|Hid].
      * apply elem_of_singleton in Hid. subst. right. reflexivity.
      * destruct (H id Hid) as [?|?]; [left; assumption | discriminate].
  - unfold cleanup, cleanup_resumes. simpl.
    destruct (apiContext c) as [held|] eqn:Hc; simpl.
    + split_and!; [reflexivity | reflexivity |].
      intros id Hid. apply elem_of_difference in Hid as [Hid Hne].
      destruct (H id Hid) as [?|Heq]; [left; assumption|].
      exfalso. apply Hne. injection Heq as ->. apply elem_of_singleton. reflexivity.
    + rewrite Hc. auto.
Qed.

Lemma in_turn_requests_held w bs : ∀ s,
  creating s = [] → disposing s = 0%nat → held_or_old w s →
  held_or_old w (foldl exec s (in_turn (requests_and_cleanups bs))).
Proof.
  induction bs as [|b bs IH]; intros s Hc Hd Hs; [exact Hs|].
  change (in_turn (requests_and_cleanups (b :: bs)))
    with (awaited (if b then CallRequest else CallCleanup)
          ++ in_turn (requests_and_cleanups bs))%list.
  rewrite foldl_app.
  destruct (awaited_requests_held w s b Hc Hd Hs) as (Hc' & Hd' & Hs').
  apply IH; assumption.
Qed.

(** C7, as worded, fails: two requests that overlap each find no stored
    context and each create one; the client stores the second over the
    first, and [cleanup] disposes the second only. *)
Lemma C7_overlapping_requests_leak :
  ¬ Fixtures.no_context_outlives "https://jsonplaceholder.typicode.com" None
      (overlapping 2) {| fresh := 0; live := ∅ |}.
Proof.
  unfold Fixtures.no_context_outlives. intros Hsub.
  apply (not_elem_of_empty (C := gset nat) 0%nat), Hsub.
  unfold Fixtures.apiClient. simpl.
  apply elem_of_difference. split.
  - apply elem_of_union_r, elem_of_union_l, elem_of_singleton. reflexivity.
  - intros H1. apply elem_of_singleton in H1. discriminate H1.
Qed.

(** C7, amended: the [apiClient] fixture awaits [cleanup] after the test
    body: whatever happened to the client during the test, the stored
    context is then [null] and the context that the client stored when the
    body ended is disposed.  When the body made its requests (and calls of
    [cleanup]) one at a time, each awaited, no context created during the
    fixture is left live: the context that a request creates is live
    until the fixture disposes it.  The [context] fixture leaves the context it
    created closed, and the [page] fixture the page it created, whatever
    the test did with them. *)
Theorem C7_fixtures_release
    (url : string) (cfg : option config) (w : world) :
  (∀ body,
     apiContext (run_client (Fixtures.apiClient url cfg body w)) = None ∧
     ∀ id, apiContext (run_client (foldl exec (started w (new url cfg)) body)) = Some id →
           id ∉ live (run_world (Fixtures.apiClient url cfg body w))) ∧
  (∀ bs, Fixtures.no_context_outlives url cfg (in_turn (requests_and_cleanups bs)) w) ∧
  (fresh w ∈ live (run_world (foldl exec (started w (new url cfg)) (awaited CallRequest))) ∧
   fresh w ∉ live (run_world (Fixtures.apiClient url cfg (awaited CallRequest) w))) ∧
  (∀ body b, fst (Fixtures.context body b) ∉ Fixtures.open (snd (Fixtures.context body b))) ∧
  (∀ body ps, fst (Fixtures.page body ps)
              ∉ Fixtures.pages_open (snd (Fixtures.page body ps))).
Proof.
  split_and!.
  - intros body. unfold Fixtures.apiClient. split.
    + apply cleanup_clears.
    + intros id Hid. apply cleanup_disposes, Hid.
  - intros bs id Hid. unfold Fixtures.apiClient in Hid.
    pose proof (in_turn_requests_held w bs (started w (new url cfg))
                  eq_refl eq_refl) as Hheld.
    assert (held_or_old w (started w (new url cfg))) as H0
      by (intros i Hi; left; exact Hi).
    specialize (Hheld H0).
    destruct (foldl exec (started w (new url cfg)) (in_turn (requests_and_cleanups bs)))
      as [w1 c1 pending d].
    unfold held_or_old in Hheld. simpl in Hheld, Hid.
    unfold cleanup, cleanup_resumes in Hid. simpl in Hid.
    destruct (apiContext c1) as [held|] eqn:Hc; simpl in Hid.
    + apply elem_of_difference in Hid as [Hid Hne].
      destruct (Hheld id Hid) as [?|Heq]; [assumption|].
      exfalso. apply Hne. injection Heq as ->. apply elem_of_singleton. reflexivity.
    + destruct d; simpl in Hid;
        (destruct (Hheld id Hid) as [?|?]; [assumption | discriminate]).
  - change (foldl exec (started w (new url cfg)) (awaited CallRequest))
      with {| run_world := {| fresh := S (fresh w); live := {[fresh w]} ∪ live w |};
              run_client := set_apiContext (Some (fresh w)) (new url cfg);
              creating := [];
              disposing := 0 |}.
    cbn [run_world live]. apply elem_of_union_l, elem_of_singleton. reflexivity.
  - unfold Fixtures.apiClient. apply cleanup_disposes. reflexivity.
  - intros body b. unfold Fixtures.context. simpl. removed.
  - intros body ps. unfold Fixtures.page. simpl. removed.
Qed.

(** A test that awaits [initialize] twice leaves the first context live
    as well: [initialize] overwrites the stored context without disposing
    it. *)
Lemma initialize_twice_leaks url cfg :
  live (run_world (Fixtures.apiClient url cfg (in_turn [CallInitialize; CallInitialize])
                     {| fresh := 0; live := ∅ |}))
  = {[ 0%nat ]}.
Proof. unfold Fixtures.apiClient. simpl. set_solver. Qed.

End FixtureTeardown.

(** ** Processing a response *)
Section ProcessResponse.
Import Value ApiClient.

Lemma or_else_empty (o : option string) : or_else o "" = default "" o.
Proof.
  destruct o as [s|]; simpl; [|reflexivity].
  destruct (String.eqb_spec s ""); congruence.
Qed.

(** C8: [processResponse] always returns a record of the five fields
    [status], [statusText], [headers], [data], [responseTime]; the first
    three are the response's own, [responseTime] is the time elapsed since
    [startTime], and [data] is the parsed JSON body when the content type
    contains [application/json], the text body otherwise, and [null] when
    reading the body throws; no throw gets out. *)
Theorem C8_processResponse_total (response : APIResponse) (startTime now : Z) :
  processResponse response startTime now
  = Ok {| status := resp_status response;
          statusText := resp_statusText response;
          headers := resp_headers response;
          data := described_data response;
          responseTime := now - startTime |}.
Proof.
  unfold processResponse, described_data.
  rewrite or_else_empty.
  destruct (resp_headers response !! "content-type") as [contentType|]; simpl.
  - destruct (includes "application/json" contentType).
    + destruct (resp_json response); reflexivity.
    + destruct (resp_text response); reflexivity.
  - destruct (resp_text response); reflexivity.
Qed.

Example processResponse_json :
  processResponse Samples.json_response 1000 1042
  = Ok {| status := 201; statusText := "Created";
          headers := {[ "content-type" := "application/json; charset=utf-8" ]};
          data := VObj {[ "id" := VNum 101 ]};
          responseTime := 42 |}.
Proof. reflexivity. Qed.

Example processResponse_unreadable :
  data <$> processResponse Samples.unreadable_response 1000 1042 = Ok VNull.
Proof. reflexivity. Qed.

End ProcessResponse.

(** ** Extracting a value by path *)
Section ExtractValue.
Import Value ApiClient Samples.
Variable Array_prototype_methods : list string.

Local Abbreviation property := (property Array_prototype_methods).
Local Abbreviation walk := (walk Array_prototype_methods).
Local Abbreviation extractValue := (extractValue Array_prototype_methods).
Local Abbreviation stays_in_body := (stays_in_body Array_prototype_methods).

(** A member the body holds is found by [key in value], and is [value[key]]. *)
Lemma own_property_found key v x :
  own_property key v = Some x →
  truthy v && typeof_object v = true ∧ property key v = Some x.
Proof.
  destruct v as [| | | |items|fields| |]; simpl; try discriminate.
  - destruct (i ← array_index key; items !! i) as [y|].
    + intros [= ->]. auto.
    + destruct (String.eqb key "length"); [|discriminate]. intros [= <-]. auto.
  - intros ->. auto.
Qed.

(** While no segment meets an inherited member, [extractValue] follows the
    path through the members of the body and yields [null] at the first
    segment that is missing or applied to a non-object. *)
Lemma walk_own_members keys : ∀ v,
  stays_in_body keys v → walk keys v = walk_own keys v.
Proof.
  induction keys as [|key keys IH]; intros v Hstay; simpl in *; [reflexivity|].
  destruct (own_property key v) as [x|] eqn:Hown.
  - destruct (own_property_found key v x Hown) as [-> ->]. apply IH, Hstay.
  - destruct (truthy v && typeof_object v); [|reflexivity].
    rewrite (Hstay eq_refl). reflexivity.
Qed.

(** An example of the walk through own members:
    [user.roles.1] in [{"user": {"roles": ["admin", "dev"]}}]. *)
Lemma walk_own_members_example :
  extractValue nested_response "user.roles.1" = VStr "dev".
Proof.
  unfold extractValue.
  rewrite walk_own_members; [reflexivity | vm_compute; exact I].
Defined.

(** A missing member, and a member asked of a string, give [null]. *)
Lemma extractValue_missing_example :
  extractValue nested_response "user.name" = VNull ∧
  extractValue nested_response "user.roles.1.x" = VNull.
Proof. split; reflexivity. Qed.

(** C9 at the body [{}] and the path [constructor]: the body has no such
    member, so following the path through it gives [null]; [extractValue]
    finds the name with [in] on the prototype chain and returns the
    built-in [Object.prototype.constructor] instead. *)
Theorem C9_inherited_member_returned :
  walk_own (split dot "constructor") (data empty_object_response) = VNull ∧
  extractValue empty_object_response "constructor"
  = VFunction ObjectPrototype "constructor" ∧
  extractValue empty_object_response "constructor" ≠ VNull.
Proof. split_and!; [reflexivity | reflexivity | discriminate]. Qed.

End ExtractValue.

(** ** The overall accessibility score *)
Section OverallScore.
Import Accessibility.






(** Rounding does not disturb the bounds: the binary64 score lies between
    0 and 100 and is 100 exactly when all seven checks pass. *)
Lemma overallScore_binary64_bounds (r : results) :
  PrimFloat.leb (float_of_nat 0) (overallScore_binary64 r) = true ∧
  PrimFloat.leb (overallScore_binary64 r) (float_of_nat 100) = true ∧
  PrimFloat.eqb (overallScore_binary64 r) (float_of_nat 100) = all_pass r.
Proof.
  unfold overallScore_binary64, all_pass, passing, checks.
  destruct (keyboardNavigation r), (colorContrast r), (imageAltText r),
    (formAccessibility r), (headingStructure r), (ariaLandmarks r),
    (violations r =? 0)%nat; vm_compute; auto.
Qed.

End OverallScore.

(** * Further properties *)

(** ** The metrics report *)
Section MetricsReport.
Import Reporter Metrics.

(** The slowest-test fold from a finite accumulator: the result holds the
    maximum of the accumulator and the durations, and is either the
    accumulator itself or the first result reaching that maximum. *)
Lemma slowest_fold rs : ∀ acc a,
  leader_duration acc = Ms a →
  let l := foldl (fun slowest result =>
                    if exceeds (duration result) (leader_duration slowest)
                    then as_leader result else slowest) acc rs in
  ∃ m, leader_duration l = Ms m ∧ (a ≤ m)%Z ∧
       Forall (fun r => (duration r ≤ m)%Z) rs ∧
       ((m = a ∧ l = acc) ∨
        ∃ i r, rs !! i = Some r ∧ l = as_leader r ∧ duration r = m ∧ (a < m)%Z ∧
               ∀ j r', (j < i)%nat → rs !! j = Some r' → (duration r' < m)%Z).
Proof.
  induction rs as [|r rs IH]; intros acc a Ha; simpl.
  - exists a. split_and!; [assumption | lia | constructor | left; auto].
  - rewrite Ha. simpl. destruct (Z.ltb_spec a (duration r)) as [Hlt|Hge].
    + destruct (IH (as_leader r) (duration r) eq_refl) as (m & Hm & Hle & Hall & Hcase).
      exists m. split_and!; [assumption | lia | constructor; [lia | assumption] |].
      right. destruct Hcase as [[-> ->]|(i & r' & Hi & Hl & Hd & Hlt' & Hbefore)].
      * exists 0%nat, r. split_and!; auto. intros j r' Hj. lia.
      * exists (S i), r'. split_and!; auto; [lia|].
        intros [|j] r'' Hj Hlook; simpl in Hlook.
        -- injection Hlook as <-. lia.
        -- apply (Hbefore j r''); [lia | assumption].
    + destruct (IH acc a Ha) as (m & Hm & Hle & Hall & Hcase).
      exists m. split_and!; [assumption | lia | constructor; [lia | assumption] |].
      destruct Hcase as [[-> ->]|(i & r' & Hi & Hl & Hd & Hlt' & Hbefore)].
      * left. auto.
      * right. exists (S i), r'. split_and!; auto.
        intros [|j] r'' Hj Hlook; simpl in Hlook.
        -- injection Hlook as <-. lia.
        -- apply (Hbefore j r''); [lia | assumption].
Qed.

(** The fastest-test fold from a finite accumulator, symmetrically. *)
Lemma fastest_fold rs : ∀ acc a,
  leader_duration acc = Ms a →
  let l := foldl (fun fastest result =>
                    if undercuts (duration result) (leader_duration fastest)
                    then as_leader result else fastest) acc rs in
  ∃ m, leader_duration l = Ms m ∧ (m ≤ a)%Z ∧
       Forall (fun r => (m ≤ duration r)%Z) rs ∧
       ((m = a ∧ l = acc) ∨
        ∃ i r, rs !! i = Some r ∧ l = as_leader r ∧ duration r = m ∧ (m < a)%Z ∧
               ∀ j r', (j < i)%nat → rs !! j = Some r' → (m < duration r')%Z).
Proof.
  induction rs as [|r rs IH]; intros acc a Ha; simpl.
  - exists a. split_and!; [assumption | lia | constructor | left; auto].
  - rewrite Ha. simpl. destruct (Z.ltb_spec (duration r) a) as [Hlt|Hge].
    + destruct (IH (as_leader r) (duration r) eq_refl) as (m & Hm & Hle & Hall & Hcase).
      exists m. split_and!; [assumption | lia | constructor; [lia | assumption] |].
      right. destruct Hcase as [[-> ->]|(i & r' & Hi & Hl & Hd & Hlt' & Hbefore)].
      * exists 0%nat, r. split_and!; auto. intros j r' Hj. lia.
      * exists (S i), r'. split_and!; auto; [lia|].
        intros [|j] r'' Hj Hlook; simpl in Hlook.
        -- injection Hlook as <-. lia.
        -- apply (Hbefore j r''); [lia | assumption].
    + destruct (IH acc a Ha) as (m & Hm & Hle & Hall & Hcase).
      exists m. split_and!; [assumption | lia | constructor; [lia | assumption] |].
      destruct Hcase as [[-> ->]|(i & r' & Hi & Hl & Hd & Hlt' & Hbefore)].
      * left. auto.
      * right. exists (S i), r'. split_and!; auto.
        intros [|j] r'' Hj Hlook; simpl in Hlook.
        -- injection Hlook as <-. lia.
        -- apply (Hbefore j r''); [lia | assumption].
Qed.

(** X1: the slowest duration of the metrics report is the largest of 0 and
    the recorded durations.  When it is positive, the slowest test named is
    the first recorded result with that duration; when no result took more
    than 0 ms, the report names ["None"] with duration 0. *)
Theorem slowest_test_is_first_maximum (st : state) :
  let e := generateMetricsReport_execution st in
  ∃ m, exec_slowestTestDuration e = Ms m ∧ (0 ≤ m)%Z ∧
       Forall (fun r => (duration r ≤ m)%Z) (results st) ∧
       ((m = 0%Z ∧ exec_slowestTest e = "None") ∨
        ∃ i r, results st !! i = Some r ∧ duration r = m ∧ (0 < m)%Z ∧
               exec_slowestTest e = title r ∧
               ∀ j r', (j < i)%nat → results st !! j = Some r' →
                       (duration r' < m)%Z).
Proof.
  simpl. unfold slowestTest.
  destruct (slowest_fold (results st) {| leader_title := "None"; leader_duration := Ms 0 |}
              0%Z eq_refl) as (m & Hm & Hle & Hall & Hcase).
  exists m. split_and!; [assumption | lia | assumption |].
  destruct Hcase as [[-> ->]|(i & r & Hi & Hl & Hd & Hlt & Hbefore)].
  - left. auto.
  - right. exists i, r. rewrite Hl. split_and!; auto.
Qed.

(** X2: with no recorded result the metrics report names ["None"] as the
    fastest test, with duration 0; otherwise the fastest duration is the
    smallest recorded duration and the test named is the first recorded
    result with that duration. *)
Theorem fastest_test_is_first_minimum (st : state) :
  let e := generateMetricsReport_execution st in
  match results st with
  | [] => exec_fastestTest e = "None" ∧ exec_fastestTestDuration e = 0%Z
  | _ :: _ =>
      ∃ i r, results st !! i = Some r ∧
             exec_fastestTestDuration e = duration r ∧
             exec_fastestTest e = title r ∧
             Forall (fun r' => (duration r ≤ duration r')%Z) (results st) ∧
             ∀ j r', (j < i)%nat → results st !! j = Some r' →
                     (duration r < duration r')%Z
  end.
Proof.
  assert (∀ l, (if negb (String.eqb (leader_title l) "None")
                then leader_title l else "None") = leader_title l) as Htitle.
  { intros l. destruct (String.eqb_spec (leader_title l) "None") as [->|]; reflexivity. }
  simpl. unfold fastestTest. rewrite Htitle.
  destruct (results st) as [|r0 rs]; [split; reflexivity|].
  simpl.
  destruct (fastest_fold rs (as_leader r0) (duration r0) eq_refl)
    as (m & Hm & Hle & Hall & Hcase).
  rewrite Hm.
  destruct Hcase as [[-> Hl]|(i & r & Hi & Hl & Hd & Hlt & Hbefore)]; rewrite Hl.
  - exists 0%nat, r0.
    split_and!;
      [reflexivity | reflexivity | reflexivity | constructor; [lia | assumption] |].
    intros j r' Hj. lia.
  - exists (S i), r. subst m.
    split_and!;
      [exact Hi | reflexivity | reflexivity | constructor; [lia | assumption] |].
    intros [|j] r' Hj Hlook; simpl in Hlook.
    + injection Hlook as <-. lia.
    + apply (Hbefore j r'); [lia | assumption].
Qed.

Lemma totalDuration_bounds lo hi rs : ∀ a,
  Forall (fun r => (lo ≤ duration r ≤ hi)%Z) rs →
  (a + lo * Z.of_nat (length rs)
   ≤ foldl (fun sum result => (sum + duration result)%Z) a rs
   ≤ a + hi * Z.of_nat (length rs))%Z.
Proof.
  induction rs as [|r rs IH]; intros a Hall; simpl; [lia|].
  inversion Hall as [|? ? Hr Hrs]; subst.
  specialize (IH (a + duration r)%Z Hrs). lia.
Qed.

(** The rounded quotient of a sum by the number of its terms lies between
    any two integers that bound every term. *)
Lemma rounded_mean_between (lo hi total : Z) (n : nat) :
  (0 < n)%nat →
  (lo * Z.of_nat n ≤ total ≤ hi * Z.of_nat n)%Z →
  (lo ≤ Qfloor (inject_Z total / inject_Z (Z.of_nat n) + (1 # 2)) ≤ hi)%Z.
Proof.
  intros Hn [Hlo Hhi].
  assert (0 < inject_Z (Z.of_nat n))%Q as Hpos.
  { rewrite <- (Zlt_Qlt 0). lia. }
  set (q := (inject_Z total / inject_Z (Z.of_nat n))%Q).
  assert (inject_Z lo <= q)%Q as Hq1.
  { apply Qle_shift_div_l; [exact Hpos|].
    rewrite <- inject_Z_mult, <- Zle_Qle. exact Hlo. }
  assert (q <= inject_Z hi)%Q as Hq2.
  { apply Qle_shift_div_r; [exact Hpos|].
    rewrite <- inject_Z_mult, <- Zle_Qle. exact Hhi. }
  split.
  - rewrite <- (Qfloor_Z lo). apply Qfloor_resp_le.
    apply Qle_trans with q; [exact Hq1|].
    rewrite <- (Qplus_0_r q) at 1. apply Qplus_le_compat; [apply Qle_refl | discriminate].
  - assert (inject_Z (Qfloor (q + (1 # 2))) < inject_Z (hi + 1))%Q as Hlt.
    { apply Qle_lt_trans with (q + (1 # 2))%Q; [apply Qfloor_le|].
      rewrite inject_Z_plus, (Qplus_comm q), (Qplus_comm (inject_Z hi)).
      apply Qplus_lt_le_compat; [reflexivity | exact Hq2]. }
    rewrite <- Zlt_Qlt in Hlt. lia.
Qed.

(** X3: without results the average duration of the metrics report is 0;
    otherwise it is an integer (the mean, rounded) that lies between the
    reported fastest and slowest durations. *)
Theorem average_between_fastest_and_slowest (st : state) :
  let e := generateMetricsReport_execution st in
  match results st with
  | [] => exec_averageTestDuration e = Number.Fin (inject_Z 0)
  | _ :: _ =>
      ∃ a m, exec_averageTestDuration e = Number.Fin (inject_Z a) ∧
             exec_slowestTestDuration e = Ms m ∧
             (exec_fastestTestDuration e ≤ a ≤ m)%Z
  end.
Proof.
  simpl. unfold averageTestDuration, totalDuration, slowestTest, fastestTest.
  destruct (results st) as [|r0 rs] eqn:Hrs; [reflexivity|].
  rewrite <- Hrs.
  destruct (slowest_fold (results st) {| leader_title := "None"; leader_duration := Ms 0 |}
              0%Z eq_refl) as (m & Hm & _ & Hmax & _).
  assert (∃ lo, match leader_duration
                        (foldl (fun fastest result =>
                                  if undercuts (duration result) (leader_duration fastest)
                                  then as_leader result else fastest)
                               {| leader_title := "None"; leader_duration := Infinity |}
                               (results st)) with
                | Ms d => d
                | Infinity => 0%Z
                end = lo ∧ Forall (fun r => (lo ≤ duration r)%Z) (results st))
    as (lo & Hlo & Hmin).
  { rewrite Hrs. simpl.
    destruct (fastest_fold rs (as_leader r0) (duration r0) eq_refl)
      as (lo & Hl & Hle & Hall & _).
    exists lo. rewrite Hl. split; [reflexivity|]. constructor; [lia | assumption]. }
  rewrite Hlo, Hm.
  assert (0 < length (results st))%nat as Hlen by (rewrite Hrs; simpl; lia).
  assert ((0 <? length (results st))%nat = true) as -> by (apply Nat.ltb_lt; exact Hlen).
  unfold Number.div, Number.of_nat. rewrite (of_nat_nonzero _ Hlen). simpl.
  eexists _, m. split; [reflexivity|]. split; [reflexivity|].
  apply rounded_mean_between; [exact Hlen|].
  pose proof (totalDuration_bounds lo m (results st) 0%Z) as Hb.
  simpl in Hb. apply Hb.
  clear -Hmin Hmax. induction (results st) as [|r rs IH]; [constructor|].
  inversion Hmin; inversion Hmax; subst. constructor; [lia | auto].
Qed.

Lemma rows_of_cons p s r rs :
  rows_of p s (r :: rs)
  = ((if String.eqb (projectName r) p &&
         match s with Some s => String.eqb (status r) s | None => true end
      then 1 else 0) + rows_of p s rs)%nat.
Proof.
  unfold rows_of. simpl.
  destruct (String.eqb (projectName r) p &&
            match s with Some s => String.eqb (status r) s | None => true end);
    reflexivity.
Qed.

(** The fold that builds [projectStats], from any accumulator: an entry
    grows by the rows of its project, and a new entry appears for a project
    with rows unless its name is an inherited key. *)
Lemma projectStats_fold p rs : ∀ acc,
  foldl projectStats_step acc rs !! p
  = match acc !! p with
    | Some s =>
        Some {| stats_total := stats_total s + rows_of p None rs;
                stats_passed := stats_passed s + rows_of p (Some "passed") rs;
                stats_failed := stats_failed s + rows_of p (Some "failed") rs |}
    | None =>
        if inherited_key p || (rows_of p None rs =? 0)%nat then None
        else Some {| stats_total := rows_of p None rs;
                     stats_passed := rows_of p (Some "passed") rs;
                     stats_failed := rows_of p (Some "failed") rs |}
    end.
Proof.
  induction rs as [|r rs IH]; intros acc.
  - simpl. destruct (acc !! p) as [[t ps f]|]; simpl.
    + unfold rows_of; simpl. rewrite !Nat.add_0_r. reflexivity.
    + rewrite orb_true_r. reflexivity.
  - simpl. rewrite IH. clear IH. rewrite !rows_of_cons. simpl.
    unfold projectStats_step.
    destruct (String.eqb_spec (projectName r) p) as [Hp|Hp]; simpl.
    + rewrite Hp.
      destruct (acc !! p) as [[t ps f]|] eqn:Hacc; simpl.
      * rewrite lookup_insert_eq. simpl.
        destruct (String.eqb (status r) "passed"), (String.eqb (status r) "failed");
          f_equal; f_equal; lia.
      * destruct (inherited_key p) eqn:Hin; simpl.
        -- rewrite Hacc. reflexivity.
        -- rewrite lookup_insert_eq. simpl.
           destruct (String.eqb (status r) "passed"), (String.eqb (status r) "failed");
             reflexivity.
    + assert (∀ v, (<[projectName r := v]> acc : gmap string stats) !! p = acc !! p)
        as Hne by (intros v; apply lookup_insert_ne; exact Hp).
      destruct (acc !! projectName r) as [s0|];
        [|destruct (inherited_key (projectName r))]; rewrite ?Hne; reflexivity.
Qed.

(** X4: the per-project statistics of the metrics report.  A project has an
    entry exactly when some recorded result belongs to it and its name is
    not a key that every object inherits (such as [constructor]); the entry
    counts the project's results, those with status passed, and those with
    status failed: a timed-out result adds to [total] only. *)
Theorem projectStats_counts (st : state) (p : string) :
  projectStats st !! p
  = if inherited_key p || (recorded p None st =? 0)%nat then None
    else Some {| stats_total := recorded p None st;
                 stats_passed := recorded p (Some "passed") st;
                 stats_failed := recorded p (Some "failed") st |}.
Proof.
  unfold projectStats, recorded. rewrite projectStats_fold, lookup_empty. reflexivity.
Qed.

End MetricsReport.

(** ** Retries, for any count *)
Section RetryAnyCount.
Import BasePage.

Lemma first_success_none act : ∀ n i,
  first_success_from act n i = None →
  ∀ j, (i ≤ j < i + n)%nat → is_Some (act j).
Proof.
  induction n as [|n IH]; intros i Hnone j Hj; [lia|].
  simpl in Hnone. destruct (act i) as [e|] eqn:He; [|discriminate].
  destruct (decide (j = i)) as [->|Hne]; [rewrite He; eauto|].
  apply (IH (S i) Hnone). lia.
Qed.

Lemma retry_loop_any_count what act retries :
  let evs := fst (retry_loop what act retries retries 0) in
  let out := snd (retry_loop what act retries retries 0) in
  (attempts evs ≤ retries)%nat ∧
  sleeps evs = replicate (attempts evs - 1) 1000%Z ∧
  match first_success act retries with
  | Some k => (k < retries)%nat ∧ attempts evs = S k ∧ out = Returned
  | None =>
      attempts evs = retries ∧
      match retries with
      | O => out = Returned
      | S last => Some out = Thrown <$> act last
      end
  end.
Proof.
  unfold first_success.
  destruct (first_success_from act retries 0) as [k|] eqn:Hk.
  - destruct (retry_loop_success what act retries retries 0 k eq_refl Hk)
      as (Ha & Hs & Ho & Hb).
    cbv zeta. rewrite Ha, Hs, Ho.
    replace (S k - 0 - 1)%nat with (k - 0)%nat by lia.
    split_and!; auto; lia.
  - destruct retries as [|last].
    + simpl. auto.
    + destruct (retry_loop_exhausted what act (S last) (S last) 0 eq_refl) as (Ha & Hs & Ho).
      * lia.
      * intros j Hj. apply (first_success_none act (S last) 0 Hk). lia.
      * replace (S last - 1)%nat with last in Hs, Ho by lia.
        cbv zeta. rewrite Ha, Hs.
        replace (S last - 1)%nat with last by lia. auto.
Qed.

Import Number NumberOrder.

(** The number of indices below a count. *)
Local Abbreviation indices q := (Z.to_nat (Qceiling q)).

Lemma index_below (q : Q) (i : nat) :
  ltb (of_nat i) (Fin q) = (i <? indices q)%nat.
Proof.
  unfold ltb, of_nat.
  destruct (Nat.ltb_spec i (Z.to_nat (Qceiling q))) as [Hlt|Hge].
  - apply negb_true_iff, not_true_iff_false. intros Hle.
    apply Qle_bool_iff in Hle.
    assert (Z.of_nat i < Qceiling q)%Z as Hz by lia.
    pose proof (Qceiling_lt q) as Hc.
    assert (inject_Z (Z.of_nat i) <= inject_Z (Qceiling q - 1))%Q as Hi
      by (rewrite <- Zle_Qle; lia).
    apply (Qlt_irrefl q).
    eapply Qle_lt_trans; [exact Hle|]. eapply Qle_lt_trans; [exact Hi | exact Hc].
  - apply negb_false_iff, Qle_bool_iff.
    eapply Qle_trans; [apply Qle_ceiling|].
    rewrite <- Zle_Qle. lia.
Qed.

Lemma index_last (q : Q) (i : nat) :
  eqb (of_nat i) (RetryLoop.minus_one (Fin q)) = true ↔ (q == inject_Z (Z.of_nat (S i)))%Q.
Proof.
  unfold eqb, of_nat, RetryLoop.minus_one. rewrite Qeq_bool_iff.
  rewrite Nat2Z.inj_succ. unfold Z.succ. rewrite inject_Z_plus.
  split; intros H.
  - rewrite H. ring.
  - rewrite H. ring.
Qed.

Lemma indices_of_integer (q : Q) (i : nat) :
  (q == inject_Z (Z.of_nat (S i)))%Q → indices q = S i.
Proof.
  intros H. rewrite (Qceiling_comp _ _ H), Qceiling_Z. apply Nat2Z.id.
Qed.

Lemma next_index (i n : nat) :
  (i < n)%nat → (Z.of_nat n ≤ 2 ^ 53)%Z → RetryLoop.next i = S i.
Proof.
  intros Hi Hn. unfold RetryLoop.next.
  destruct (Z.ltb_spec (Z.of_nat i) (2 ^ 53)) as [_|Hge]; [reflexivity | lia].
Qed.

Lemma first_success_bounds act : ∀ n i k,
  first_success_from act n i = Some k → (i ≤ k < i + n)%nat.
Proof.
  induction n as [|n IH]; intros i k Hk; [discriminate|].
  simpl in Hk. destruct (act i); [|injection Hk as <-; lia].
  apply IH in Hk. lia.
Qed.

(** The loop returns at the first attempt that succeeds. *)
Lemma loop_number_success what act q : ∀ remaining i k fuel,
  (Z.of_nat (indices q) ≤ 2 ^ 53)%Z →
  (i + remaining = indices q)%nat →
  first_success_from act remaining i = Some k →
  (k - i < fuel)%nat →
  let r := RetryLoop.retry_loop what act (Fin q) fuel i in
  attempts (fst r) = (S k - i)%nat ∧
  sleeps (fst r) = replicate (k - i) 1000%Z ∧
  snd r = Some Returned.
Proof.
  induction remaining as [|remaining IH]; intros i k fuel Hn Hsum Hk Hfuel;
    [discriminate|].
  destruct fuel as [|fuel]; [lia|].
  pose proof (first_success_bounds act _ _ _ Hk) as Hb.
  simpl in Hk. cbn [RetryLoop.retry_loop].
  rewrite index_below.
  replace (i <? indices q)%nat with true by (symmetry; apply Nat.ltb_lt; lia).
  destruct (act i) as [e|] eqn:He.
  - pose proof (first_success_bounds act _ _ _ Hk) as Hb'.
    destruct (eqb (of_nat i) (RetryLoop.minus_one (Fin q))) eqn:Hlast.
    + apply index_last, indices_of_integer in Hlast. lia.
    + rewrite (next_index i (indices q)) by lia.
      destruct (IH (S i) k fuel Hn ltac:(lia) Hk ltac:(lia)) as (Ha & Hs & Ho).
      destruct (RetryLoop.retry_loop what act (Fin q) fuel (S i)) as [evs out].
      cbn [fst snd] in *. rewrite attempts_step, sleeps_step, Ha, Hs.
      replace (k - i)%nat with (S (k - S i)) by lia.
      replace (S k - i)%nat with (S (S k - S i)) by lia.
      split_and!; auto.
  - injection Hk as <-. cbn [fst snd].
    replace (S i - i)%nat with 1%nat by lia. rewrite Nat.sub_diag.
    split_and!; reflexivity.
Qed.

(** When every attempt fails and the count is a natural number, the loop
    throws at the last index. *)
Lemma loop_number_throws what act q last : ∀ remaining i fuel,
  (q == inject_Z (Z.of_nat (S last)))%Q →
  (Z.of_nat (S last) ≤ 2 ^ 53)%Z →
  (i + S remaining = S last)%nat →
  (∀ j, (i ≤ j < S last)%nat → is_Some (act j)) →
  (remaining < fuel)%nat →
  let r := RetryLoop.retry_loop what act (Fin q) fuel i in
  attempts (fst r) = S remaining ∧
  sleeps (fst r) = replicate remaining 1000%Z ∧
  Some (snd r) = (Some ∘ Thrown) <$> act last.
Proof.
  induction remaining as [|remaining IH]; intros i fuel Hq Hn Hsum Hfail Hfuel.
  - destruct fuel as [|fuel]; [lia|]. cbn [RetryLoop.retry_loop].
    rewrite index_below, (indices_of_integer q last Hq).
    replace (i <? S last)%nat with true by (symmetry; apply Nat.ltb_lt; lia).
    assert (i = last) as -> by lia.
    destruct (Hfail last ltac:(lia)) as [e He]. rewrite He.
    replace (eqb (of_nat last) (RetryLoop.minus_one (Fin q))) with true
      by (symmetry; apply index_last; exact Hq).
    simpl. auto.
  - destruct fuel as [|fuel]; [lia|]. cbn [RetryLoop.retry_loop].
    rewrite index_below, (indices_of_integer q last Hq).
    replace (i <? S last)%nat with true by (symmetry; apply Nat.ltb_lt; lia).
    destruct (Hfail i ltac:(lia)) as [e He]. rewrite He.
    destruct (eqb (of_nat i) (RetryLoop.minus_one (Fin q))) eqn:Hlast.
    + apply index_last in Hlast.
      pose proof (Qeq_trans _ _ _ (Qeq_sym _ _ Hq) Hlast) as Heq.
      apply (proj1 (inject_Z_injective _ _)) in Heq. lia.
    + rewrite (next_index i (S last)) by lia.
      assert (∀ j, (S i ≤ j < S last)%nat → is_Some (act j)) as Hfail'
        by (intros j Hj; apply Hfail; lia).
      destruct (IH (S i) fuel Hq Hn ltac:(lia) Hfail' ltac:(lia)) as (Ha & Hs & Ho).
      destruct (RetryLoop.retry_loop what act (Fin q) fuel (S i)) as [evs out].
      cbn [fst snd] in *. rewrite attempts_step, sleeps_step, Ha, Hs.
      split_and!; auto.
Qed.

(** When every attempt fails and the count is no natural number, the loop
    sleeps after every attempt and returns. *)
Lemma loop_number_gives_up what act q : ∀ remaining i fuel,
  (∀ last, ¬ (q == inject_Z (Z.of_nat (S last)))%Q) →
  (Z.of_nat (indices q) ≤ 2 ^ 53)%Z →
  (i + remaining = indices q)%nat →
  (∀ j, (i ≤ j < indices q)%nat → is_Some (act j)) →
  (remaining < fuel)%nat →
  let r := RetryLoop.retry_loop what act (Fin q) fuel i in
  attempts (fst r) = remaining ∧
  sleeps (fst r) = replicate remaining 1000%Z ∧
  snd r = Some Returned.
Proof.
  induction remaining as [|remaining IH]; intros i fuel Hq Hn Hsum Hfail Hfuel.
  - destruct fuel as [|fuel]; [lia|]. cbn [RetryLoop.retry_loop].
    rewrite index_below.
    replace (i <? indices q)%nat with false by (symmetry; apply Nat.ltb_ge; lia).
    simpl. auto.
  - destruct fuel as [|fuel]; [lia|]. cbn [RetryLoop.retry_loop].
    rewrite index_below.
    replace (i <? indices q)%nat with true by (symmetry; apply Nat.ltb_lt; lia).
    destruct (Hfail i ltac:(lia)) as [e He]. rewrite He.
    destruct (eqb (of_nat i) (RetryLoop.minus_one (Fin q))) eqn:Hlast.
    + apply index_last in Hlast. exfalso. exact (Hq i Hlast).
    + rewrite (next_index i (indices q)) by lia.
      assert (∀ j, (S i ≤ j < indices q)%nat → is_Some (act j)) as Hfail'
        by (intros j Hj; apply Hfail; lia).
      destruct (IH (S i) fuel Hq Hn ltac:(lia) Hfail' ltac:(lia)) as (Ha & Hs & Ho).
      destruct (RetryLoop.retry_loop what act (Fin q) fuel (S i)) as [evs out].
      cbn [fst snd] in *. rewrite attempts_step, sleeps_step, Ha, Hs.
      split_and!; auto.
Qed.

(** With the count [Infinity] and attempts that all fail, the loop is
    still running whenever one looks. *)
Lemma loop_number_never_ends what act : ∀ fuel i,
  (∀ j, is_Some (act j)) →
  let r := RetryLoop.retry_loop what act (Inf true) fuel i in
  attempts (fst r) = fuel ∧ snd r = None.
Proof.
  induction fuel as [|fuel IH]; intros i Hfail; [split; reflexivity|].
  cbn [RetryLoop.retry_loop ltb of_nat eqb RetryLoop.minus_one].
  destruct (Hfail i) as [e He]. rewrite He.
  destruct (IH (RetryLoop.next i) Hfail) as (Ha & Ho).
  destruct (RetryLoop.retry_loop what act (Inf true) fuel (RetryLoop.next i)) as [evs out].
  cbn [fst snd] in *. rewrite attempts_step, Ha. auto.
Qed.

(** At a count that is a natural number the loop is [BasePage.retry_loop]. *)
Lemma loop_number_natural what act (n : nat) : ∀ remaining i fuel,
  (Z.of_nat n ≤ 2 ^ 53)%Z →
  (i + remaining = n)%nat →
  (remaining < fuel)%nat →
  RetryLoop.retry_loop what act (of_nat n) fuel i
  = (fst (retry_loop what act n remaining i),
     Some (snd (retry_loop what act n remaining i))).
Proof.
  assert (indices (inject_Z (Z.of_nat n)) = n) as Hn
    by (rewrite Qceiling_Z; apply Nat2Z.id).
  induction remaining as [|remaining IH]; intros i fuel Hbound Hsum Hfuel;
    (destruct fuel as [|fuel]; [lia|]);
    cbn [RetryLoop.retry_loop retry_loop];
    change (of_nat n) with (Fin (inject_Z (Z.of_nat n)));
    rewrite index_below, Hn.
  - replace (i <? n)%nat with false by (symmetry; apply Nat.ltb_ge; lia).
    reflexivity.
  - replace (i <? n)%nat with true by (symmetry; apply Nat.ltb_lt; lia).
    destruct (act i) as [e|]; [|reflexivity].
    assert (eqb (of_nat i) (RetryLoop.minus_one (Fin (inject_Z (Z.of_nat n))))
            = (i =? n - 1)%nat) as ->.
    { destruct (Nat.eqb_spec i (n - 1)) as [Heq|Hne].
      - apply index_last. replace (S i) with n by lia. reflexivity.
      - apply not_true_iff_false. intros Hlast. apply index_last in Hlast.
        apply (proj1 (inject_Z_injective _ _)) in Hlast. lia. }
    destruct (i =? n - 1)%nat; [reflexivity|].
    rewrite (next_index i n) by lia.
    change (Fin (inject_Z (Z.of_nat n))) with (of_nat n).
    rewrite (IH (S i) fuel Hbound ltac:(lia) ltac:(lia)).
    destruct (retry_loop what act n remaining (S i)) as [evs out]. reflexivity.
Qed.

(** X5: [clickElement] and [fillInput] at any count, the count left out
    being 3.  For a count that is a natural number, [first_success] being
    the first attempt that succeeds: they return at that attempt, having
    slept 1000 ms after each attempt that failed; when every attempt
    fails they make as many attempts as the count says, sleep between two
    attempts only, and throw the error of the last one.  For a count that
    is no natural number, such as 2.5, they make an attempt for every index
    below the count (three), and when every attempt fails they sleep after
    the last one as well and return without an error.  For a count that is
    zero, negative or not a number nothing is attempted.  For the count
    [Infinity] they never throw, and never end when every attempt fails. *)
Theorem retry_with_any_count
    (h : RetryLoop.helper) (act : interaction) (retries : option number) (fuel : nat) :
  let evs := fst (RetryLoop.perform h act retries fuel) in
  let out := snd (RetryLoop.perform h act retries fuel) in
  match default (of_nat 3) retries with
  | Fin q =>
      let n := Z.to_nat (Qceiling q) in
      (q <= 2 ^ 53)%Q → (n < fuel)%nat →
      (attempts evs ≤ n)%nat ∧
      match first_success act n with
      | Some k =>
          attempts evs = S k ∧ sleeps evs = replicate k 1000%Z ∧ out = Some Returned
      | None =>
          attempts evs = n ∧
          match n with
          | S last =>
              if Qeq_bool q (inject_Z (Z.of_nat n))
              then sleeps evs = replicate last 1000%Z ∧
                   Some out = (Some ∘ Thrown) <$> act last
              else sleeps evs = replicate n 1000%Z ∧ out = Some Returned
          | O => evs = [] ∧ out = Some Returned
          end
      end
  | NaN | Inf false => (0 < fuel)%nat → evs = [] ∧ out = Some Returned
  | Inf true =>
      (∀ e, out ≠ Some (Thrown e)) ∧
      ((∀ i, is_Some (act i)) → attempts evs = fuel ∧ out = None)
  end.
Proof.
  assert (∀ what,
    let evs := fst (RetryLoop.retry_loop what act (default (of_nat 3) retries) fuel 0) in
    let out := snd (RetryLoop.retry_loop what act (default (of_nat 3) retries) fuel 0) in
    match default (of_nat 3) retries with
    | Fin q =>
        let n := Z.to_nat (Qceiling q) in
        (q <= 2 ^ 53)%Q → (n < fuel)%nat →
        (attempts evs ≤ n)%nat ∧
        match first_success act n with
        | Some k =>
            attempts evs = S k ∧ sleeps evs = replicate k 1000%Z ∧ out = Some Returned
        | None =>
            attempts evs = n ∧
            match n with
            | S last =>
                if Qeq_bool q (inject_Z (Z.of_nat n))
                then sleeps evs = replicate last 1000%Z ∧
                     Some out = (Some ∘ Thrown) <$> act last
                else sleeps evs = replicate n 1000%Z ∧ out = Some Returned
            | O => evs = [] ∧ out = Some Returned
            end
        end
    | NaN | Inf false => (0 < fuel)%nat → evs = [] ∧ out = Some Returned
    | Inf true =>
        (∀ e, out ≠ Some (Thrown e)) ∧
        ((∀ i, is_Some (act i)) → attempts evs = fuel ∧ out = None)
    end) as Hloop.
  { intros what. cbv zeta.
    destruct (default (of_nat 3) retries) as [q| |[|]].
    - intros Hq Hfuel.
      assert (Z.of_nat (indices q) ≤ 2 ^ 53)%Z as Hn.
      { destruct (Z.le_gt_cases (Qceiling q) 0) as [Hneg|Hpos]; [lia|].
        rewrite Z2Nat.id by lia.
        change (2 ^ 53)%Z with (Qceiling (inject_Z (2 ^ 53))).
        apply Qceiling_resp_le. exact Hq. }
      unfold first_success.
      destruct (first_success_from act (indices q) 0) as [k|] eqn:Hk.
      + pose proof (first_success_bounds act _ _ _ Hk) as Hb.
        destruct (loop_number_success what act q (indices q) 0 k fuel Hn eq_refl Hk
                    ltac:(lia)) as (Ha & Hs & Ho).
        rewrite Nat.sub_0_r in Ha, Hs. rewrite Ha, Hs, Ho.
        split_and!; auto; lia.
      + pose proof (first_success_none act (indices q) 0 Hk) as Hfail.
        destruct (indices q) as [|last] eqn:Hi.
        * destruct fuel as [|fuel']; [lia|]. cbn [RetryLoop.retry_loop].
          rewrite index_below, Hi. simpl. auto.
        * destruct (Qeq_bool q (inject_Z (Z.of_nat (S last)))) eqn:Hint.
          -- apply Qeq_bool_iff in Hint.
             destruct (loop_number_throws what act q last last 0 fuel Hint
                         ltac:(lia) eq_refl ltac:(intros j Hj; apply Hfail; lia)
                         ltac:(lia)) as (Ha & Hs & Ho).
             rewrite Ha, Hs. split_and!; auto.
          -- assert (∀ l, ¬ (q == inject_Z (Z.of_nat (S l)))%Q) as Hfrac.
             { intros l Hl. pose proof (indices_of_integer q l Hl) as Hl'.
               rewrite Hi in Hl'. injection Hl' as <-.
               apply Qeq_bool_iff in Hl. congruence. }
             destruct (loop_number_gives_up what act q (S last) 0 fuel Hfrac
                         ltac:(lia) ltac:(lia)
                         ltac:(intros j Hj; apply Hfail; lia) ltac:(lia))
               as (Ha & Hs & Ho).
             rewrite Ha, Hs, Ho. split_and!; auto.
    - intros Hfuel. destruct fuel as [|fuel']; [lia|]. split; reflexivity.
    - split.
      + intros e. generalize 0%nat as i.
        induction fuel as [|fuel' IH]; intros i; [discriminate|].
        cbn [RetryLoop.retry_loop ltb of_nat eqb RetryLoop.minus_one].
        destruct (act i); [|discriminate].
        specialize (IH (RetryLoop.next i)).
        destruct (RetryLoop.retry_loop what act (Inf true) fuel' (RetryLoop.next i)).
        exact IH.
      + intros Hfail. apply (loop_number_never_ends what act fuel 0 Hfail).
    - intros Hfuel. destruct fuel as [|fuel']; [lia|]. split; reflexivity. }
  destruct h; apply Hloop.
Qed.

(** X5, witness: [clickElement] with the count 2.5 on an element that
    cannot be clicked makes three attempts, sleeps three times and returns
    as if it had clicked. *)
Lemma retry_with_any_count_witness :
  RetryLoop.clickElement (always_fails "element is not visible")
                         (Some (Fin (5 # 2))) 4
  = ([ Attempt 0; Warn "Click attempt 1 failed, retrying..."; WaitForTimeout 1000;
       Attempt 1; Warn "Click attempt 2 failed, retrying..."; WaitForTimeout 1000;
       Attempt 2; Warn "Click attempt 3 failed, retrying..."; WaitForTimeout 1000 ],
     Some Returned) ∧
  attempts (fst (RetryLoop.clickElement (always_fails "element is not visible")
                                        (Some (Fin (5 # 2))) 4)) = 3%nat ∧
  sleeps (fst (RetryLoop.clickElement (always_fails "element is not visible")
                                      (Some (Fin (5 # 2))) 4))
  = [1000; 1000; 1000]%Z.
Proof.
  assert (5 # 2 <= 2 ^ 53)%Q as Hq by (vm_compute; discriminate).
  assert (Z.to_nat (Qceiling (5 # 2)) < 4)%nat as Hfuel by (vm_compute; lia).
  destruct (retry_with_any_count RetryLoop.ClickElement
              (always_fails "element is not visible") (Some (Fin (5 # 2))) 4
              Hq Hfuel) as (_ & Ha & Hs & _).
  split_and!; [reflexivity | exact Ha | exact Hs].
Defined.

End RetryAnyCount.

(** ** Links of a page *)
Section PageLinks.
Import Links.

(** What the override keeps of an element, and what the base class keeps
    of a link. *)
Local Abbreviation readable_href :=
  (fun a : anchor =>
     match failure a, href a with
     | None, Some href => if negb (String.eqb href "") then Some href else None
     | _, _ => None
     end).

Local Abbreviation http_like :=
  (fun href : string =>
     negb (String.prefix "javascript:" href) && negb (String.prefix "#" href)).

(** An element that the base class reads and cannot. *)
Local Abbreviation unreadable_link :=
  (fun a : anchor => bool_decide (is_Some (href a)) && bool_decide (is_Some (failure a))).

Lemma ExamplePage_fold anchors : ∀ acc,
  foldl ExamplePage_step acc anchors = (acc ++ omap readable_href anchors)%list.
Proof.
  induction anchors as [|[[h|] [e|]] anchors IH]; intros acc; simpl.
  - rewrite app_nil_r. reflexivity.
  - apply IH.
  - rewrite IH. unfold ExamplePage_step, getAttribute. simpl.
    destruct (String.eqb h ""); simpl; [|rewrite <- app_assoc]; reflexivity.
  - apply IH.
  - apply IH.
Qed.

Lemma BasePage_loop_fold anchors : ∀ acc,
  BasePage_loop (List.filter (fun a : anchor => bool_decide (is_Some (href a))) anchors) acc
  = match List.find unreadable_link anchors with
    | Some a => from_option Throw (Ok []) (failure a)
    | None => Ok (acc ++ List.filter http_like (omap readable_href anchors))%list
    end.
Proof.
  induction anchors as [|[[h|] [e|]] anchors IH]; intros acc; simpl.
  - rewrite app_nil_r. reflexivity.
  - reflexivity.
  - rewrite IH.
    destruct (List.find _ anchors); [reflexivity|].
    destruct (String.eqb h ""); simpl; [reflexivity|].
    unfold startsWith.
    destruct (negb (String.prefix "javascript:" h) && negb (String.prefix "#" h));
      [rewrite <- app_assoc|]; reflexivity.
  - apply IH.
  - apply IH.
Qed.

(** X6: when the links of the page cannot be listed, both versions of
    [getAllLinks] throw.  Otherwise the override of [ExamplePage] does not
    throw: it returns the links it can read, in document order, none of
    them empty.  The base version throws the error of the first link, among
    the elements that have an [href], that it cannot read; when it can read
    them all it returns the links of the override except those starting
    with [javascript:] or [#]. *)
Theorem getAllLinks_base_filters_override (p : page) :
  match p with
  | Throw error =>
      BasePage_getAllLinks p = Throw error ∧ ExamplePage_getAllLinks p = Throw error
  | Ok anchors =>
      ∃ linkUrls,
        ExamplePage_getAllLinks p = Ok linkUrls ∧
        linkUrls = omap readable_href anchors ∧
        Forall (fun href => href ≠ "") linkUrls ∧
        match List.find unreadable_link anchors with
        | Some a => Some (BasePage_getAllLinks p) = Throw <$> failure a
        | None =>
            BasePage_getAllLinks p = Ok (List.filter http_like linkUrls) ∧
            Forall (fun href => String.prefix "javascript:" href = false ∧
                                String.prefix "#" href = false)
                   (List.filter http_like linkUrls)
        end
  end.
Proof.
  destruct p as [anchors|error]; [|split; reflexivity].
  exists (omap readable_href anchors). split_and!.
  - simpl. rewrite (ExamplePage_fold anchors []). reflexivity.
  - reflexivity.
  - induction anchors as [|[[h|] [e|]] anchors IH]; simpl; try exact IH; [constructor|].
    destruct (String.eqb_spec h ""); simpl; [exact IH|]. constructor; assumption.
  - simpl. rewrite (BasePage_loop_fold anchors []).
    destruct (List.find unreadable_link anchors) as [a|] eqn:Hfind.
    + apply find_some in Hfind as [_ Ha].
      apply andb_true_iff in Ha as [_ Hf]. apply bool_decide_eq_true in Hf as [e He].
      rewrite He. reflexivity.
    + split; [reflexivity|].
      apply Forall_forall. intros h Hin.
      apply list_elem_of_In, filter_In in Hin as [_ Hok].
      apply andb_true_iff in Hok as [H1 H2].
      split; apply negb_true_iff; assumption.
Qed.

End PageLinks.

(** ** More getters of the test data *)
Section TestDataGetters.
Import TestData TestDataManager TestDataQueries.

Lemma concat_insert_one {A K} `{EqDecision K} (a : A) (k0 : K) (g : K → list A) ks :
  NoDup ks →
  concat (map (fun k => if bool_decide (k0 = k) then a :: g k else g k) ks)
  ≡ₚ (if bool_decide (k0 ∈ ks) then a :: concat (map g ks) else concat (map g ks)).
Proof.
  induction ks as [|k ks IH]; intros Hnd; simpl.
  - reflexivity.
  - apply NoDup_cons in Hnd as [Hk Hnd]. rewrite (IH Hnd).
    assert (k0 ∈ k :: ks ↔ k0 = k ∨ k0 ∈ ks) as Hcons by apply elem_of_cons.
    repeat case_bool_decide; subst;
      try reflexivity;
      try (symmetry; apply Permutation_middle);
      exfalso; tauto.
Qed.

(** Filtering by each value of a classifier splits a list. *)
Lemma classify_partition {A K} `{EqDecision K} (f : A → K) (ks : list K) (l : list A) :
  NoDup ks → (∀ a, f a ∈ ks) →
  concat (map (fun k => List.filter (fun a => bool_decide (f a = k)) l) ks) ≡ₚ l.
Proof.
  intros Hnd Hall. induction l as [|a l IH]; simpl.
  - clear Hnd Hall. induction ks as [|k ks IHk]; simpl; [reflexivity | exact IHk].
  - rewrite (concat_insert_one a (f a)
               (fun k => List.filter (fun a => bool_decide (f a = k)) l) ks Hnd).
    rewrite bool_decide_eq_true_2 by apply Hall. constructor. exact IH.
Qed.

(** A closed decidable proposition, by evaluation. *)
Ltac decided := apply (bool_decide_unpack _); vm_compute; exact I.

(** X7: the filtering getters split the loaded data: every query is
    returned for exactly one expected behaviour and for exactly one
    category, and every user for exactly one role. *)
Theorem filters_partition_the_data (m : manager) :
  (getSearchQueriesByBehavior m pass ++ getSearchQueriesByBehavior m fail)
    ≡ₚ getSearchQueries m ∧
  (getSearchQueriesByCategory m valid ++ getSearchQueriesByCategory m invalid ++
   getSearchQueriesByCategory m edge_case ++ getSearchQueriesByCategory m performance)
    ≡ₚ getSearchQueries m ∧
  (getUsersByRole m admin ++ getUsersByRole m user ++ getUsersByRole m guest)
    ≡ₚ getUsers m.
Proof.
  unfold getSearchQueriesByBehavior, getSearchQueriesByCategory, getUsersByRole,
    getSearchQueries, getUsers.
  destruct (testData m) as [d|]; [|split_and!; reflexivity].
  split_and!.
  - pose proof (classify_partition expectedBehavior [pass; fail] (searchQueries d)) as H.
    simpl in H. rewrite app_nil_r in H. apply H.
    + decided.
    + intros q. destruct (expectedBehavior q); decided.
  - pose proof (classify_partition category [valid; invalid; edge_case; performance]
                  (searchQueries d)) as H.
    simpl in H. rewrite app_nil_r in H. apply H.
    + decided.
    + intros q. destruct (category q); decided.
  - pose proof (classify_partition role [admin; user; guest] (users d)) as H.
    simpl in H. rewrite app_nil_r in H. apply H.
    + decided.
    + intros u. destruct (role u); decided.
Qed.

Lemma find_first {A} (p : A → bool) (l : list A) (x : A) :
  List.find p l = Some x
  ↔ ∃ before after, l = (before ++ x :: after)%list ∧ p x = true ∧
                    Forall (fun y => p y = false) before.
Proof.
  induction l as [|a l IH]; simpl.
  - split; [discriminate|]. intros (before & after & Heq & _).
    destruct before; discriminate.
  - destruct (p a) eqn:Ha.
    + split.
      * intros [= <-]. exists [], l. split_and!; [reflexivity | exact Ha | constructor].
      * intros (before & after & Heq & Hx & Hbefore).
        destruct before as [|b before]; simpl in Heq.
        -- injection Heq as -> _. reflexivity.
        -- injection Heq as -> _. inversion Hbefore; congruence.
    + rewrite IH. split.
      * intros (before & after & -> & Hx & Hbefore).
        exists (a :: before), after. split_and!; [reflexivity | exact Hx |].
        constructor; assumption.
      * intros (before & after & Heq & Hx & Hbefore).
        destruct before as [|b before]; simpl in Heq.
        -- injection Heq as -> _. congruence.
        -- injection Heq as -> ->. exists before, after.
           inversion Hbefore; subst. split_and!; auto.
Qed.

Lemma find_nothing {A} (p : A → bool) (l : list A) :
  List.find p l = None ↔ Forall (fun y => p y = false) l.
Proof.
  induction l as [|a l IH]; simpl; [split; [constructor | reflexivity]|].
  destruct (p a) eqn:Ha.
  - split; [discriminate|]. intros H. inversion H; congruence.
  - rewrite IH. split; [constructor; assumption | intros H; inversion H; assumption].
Qed.

(** X8: the getters by identifier return the first element whose
    identifier matches, in the order of the loaded data, and [undefined]
    exactly when no element matches (in particular when no data is loaded). *)
Theorem lookups_return_first_match (m : manager) (id : string) :
  (∀ u, getUserById m id = Some u
        ↔ ∃ before after, getUsers m = (before ++ u :: after)%list ∧ user_id u = id ∧
                          Forall (fun x => user_id x ≠ id) before) ∧
  (getUserById m id = None ↔ Forall (fun x => user_id x ≠ id) (getUsers m)) ∧
  (∀ q, getSearchQueryById m id = Some q
        ↔ ∃ before after, getSearchQueries m = (before ++ q :: after)%list ∧
                          query_id q = id ∧
                          Forall (fun x => query_id x ≠ id) before) ∧
  (getSearchQueryById m id = None
   ↔ Forall (fun x => query_id x ≠ id) (getSearchQueries m)) ∧
  (∀ u, getUrlById m id = Some u
        ↔ ∃ before after, getUrls m = (before ++ u :: after)%list ∧ url_id u = id ∧
                          Forall (fun x => url_id x ≠ id) before) ∧
  (getUrlById m id = None ↔ Forall (fun x => url_id x ≠ id) (getUrls m)).
Proof.
  assert (∀ (A : Type) (key : A → string) (l : list A),
            (∀ x, List.find (fun y => String.eqb (key y) id) l = Some x
                  ↔ ∃ before after, l = (before ++ x :: after)%list ∧ key x = id ∧
                                    Forall (fun y => key y ≠ id) before) ∧
            (List.find (fun y => String.eqb (key y) id) l = None
             ↔ Forall (fun y => key y ≠ id) l)) as Hgen.
  { intros A key l. split; [intros x|].
    - rewrite find_first. split; intros (before & after & Heq & Hx & Hb);
        exists before, after; (split_and!; [exact Heq | apply String.eqb_eq, Hx |]);
        (eapply Forall_impl; [exact Hb|]); intros y Hy; apply String.eqb_neq, Hy.
    - rewrite find_nothing. split; intros H; (eapply Forall_impl; [exact H|]);
        intros y Hy; apply String.eqb_neq, Hy. }
  unfold getUserById, getSearchQueryById, getUrlById, getUsers, getSearchQueries,
    getUrls, find.
  destruct (testData m) as [d|].
  - split_and!; try (intros x); apply Hgen.
  - split_and!; try (intros x);
      first [ split; [discriminate | intros (before & ? & Heq & _);
                                     destruct before; discriminate]
            | split; [constructor | reflexivity] ].
Qed.

(** A draw [random] in [0, 1) indexes a non-empty list within its bounds. *)
Lemma random_index_in_range (random : Q) (n : nat) :
  (0 <= random)%Q → (random < 1)%Q → (0 < n)%nat →
  (0 ≤ random_index random n < Z.of_nat n)%Z.
Proof.
  intros H0 H1 Hn. unfold random_index.
  assert (0 < inject_Z (Z.of_nat n))%Q as Hpos by (rewrite <- (Zlt_Qlt 0); lia).
  split.
  - rewrite <- (Qfloor_Z 0). apply Qfloor_resp_le.
    apply Qmult_le_0_compat; [exact H0 | apply Qlt_le_weak, Hpos].
  - rewrite Zlt_Qlt.
    apply Qle_lt_trans with (random * inject_Z (Z.of_nat n))%Q; [apply Qfloor_le|].
    rewrite <- (Qmult_1_l (inject_Z (Z.of_nat n))) at 2.
    apply Qmult_lt_compat_r; assumption.
Qed.

Lemma at_random_index {A} (xs : list A) (random : Q) :
  (0 <= random)%Q → (random < 1)%Q →
  match xs with
  | [] => at_index xs (random_index random (length xs)) = None
  | _ :: _ => ∃ x, at_index xs (random_index random (length xs)) = Some x ∧ x ∈ xs
  end.
Proof.
  intros H0 H1. destruct xs as [|x0 xs'] eqn:Hxs.
  - unfold at_index. destruct (_ <? 0)%Z; [reflexivity|]. apply lookup_nil.
  - rewrite <- Hxs.
    assert (0 < length xs)%nat as Hn by (rewrite Hxs; simpl; lia).
    pose proof (random_index_in_range random (length xs) H0 H1 Hn) as [Hlo Hhi].
    unfold at_index.
    destruct (Z.ltb_spec (random_index random (length xs)) 0); [lia|].
    destruct (lookup_lt_is_Some_2 xs (Z.to_nat (random_index random (length xs))))
      as [x Hx]; [lia|].
    exists x. split; [exact Hx|]. eapply list_elem_of_lookup_2, Hx.
Qed.

Lemma every_index_can_be_drawn {A} (xs : list A) (x : A) :
  x ∈ xs →
  ∃ random, (0 <= random)%Q ∧ (random < 1)%Q ∧
            at_index xs (random_index random (length xs)) = Some x.
Proof.
  intros Hin. apply list_elem_of_lookup in Hin as [i Hi].
  assert (i < length xs)%nat as Hlt by (eapply lookup_lt_Some, Hi).
  assert (0 < inject_Z (Z.of_nat (length xs)))%Q as Hpos
    by (rewrite <- (Zlt_Qlt 0); lia).
  exists (inject_Z (Z.of_nat i) / inject_Z (Z.of_nat (length xs)))%Q.
  split_and!.
  - apply Qle_shift_div_l; [exact Hpos|]. rewrite Qmult_0_l, <- (Zle_Qle 0). lia.
  - apply Qlt_shift_div_r; [exact Hpos|]. rewrite Qmult_1_l, <- Zlt_Qlt. lia.
  - unfold at_index, random_index.
    assert (inject_Z (Z.of_nat i) / inject_Z (Z.of_nat (length xs))
            * inject_Z (Z.of_nat (length xs)) == inject_Z (Z.of_nat i))%Q as Heq.
    { field. intros Hz. rewrite Hz in Hpos. discriminate. }
    assert (Qfloor (inject_Z (Z.of_nat i) / inject_Z (Z.of_nat (length xs))
                    * inject_Z (Z.of_nat (length xs))) = Z.of_nat i) as Hfloor
      by (rewrite Heq; apply Qfloor_Z).
    rewrite !Hfloor.
    destruct (Z.ltb_spec (Z.of_nat i) 0); [lia|]. rewrite Nat2Z.id. exact Hi.
Qed.

(** X9: [getRandomUser] and [getRandomSearchQuery], for a draw of
    [Math.random()] in [0, 1): on an empty list they return [undefined],
    otherwise a member of the list, never an index out of bounds; and every
    member is returned for some draw. *)
Theorem random_getters_stay_in_range
    (random : Q) (m : manager) (c : option Category) :
  (0 <= random)%Q → (random < 1)%Q →
  let queries := match c with
                 | Some c => getSearchQueriesByCategory m c
                 | None => getSearchQueries m
                 end in
  match getUsers m with
  | [] => getRandomUser random m = None
  | _ :: _ => ∃ u, getRandomUser random m = Some u ∧ u ∈ getUsers m
  end ∧
  match queries with
  | [] => getRandomSearchQuery random c m = None
  | _ :: _ => ∃ q, getRandomSearchQuery random c m = Some q ∧ q ∈ queries
  end ∧
  (∀ u, u ∈ getUsers m →
        ∃ r, (0 <= r)%Q ∧ (r < 1)%Q ∧ getRandomUser r m = Some u) ∧
  (∀ q, q ∈ queries →
        ∃ r, (0 <= r)%Q ∧ (r < 1)%Q ∧ getRandomSearchQuery r c m = Some q).
Proof.
  intros H0 H1 queries. unfold getRandomUser, getRandomSearchQuery. fold queries.
  split_and!.
  - apply at_random_index; assumption.
  - apply at_random_index; assumption.
  - intros u Hu. apply every_index_can_be_drawn, Hu.
  - intros q Hq. apply every_index_can_be_drawn, Hq.
Qed.

(** X9, witness: the draw 1/2 on the built-in data. *)
Lemma random_getters_stay_in_range_witness :
  ∃ u, getRandomUser (1 # 2) MoreSamples.default_manager = Some u ∧
       u ∈ getUsers MoreSamples.default_manager.
Proof.
  assert (0 <= 1 # 2)%Q as H0 by discriminate.
  assert (1 # 2 < 1)%Q as H1 by reflexivity.
  destruct (random_getters_stay_in_range (1 # 2) MoreSamples.default_manager None H0 H1)
    as (Hu & _).
  exact Hu.
Defined.

End TestDataGetters.

(** ** Paths of [extractValue] *)
Section ExtractPaths.
Import Value ApiClient.
Variable Array_prototype_methods : list string.

Local Abbreviation walk := (walk Array_prototype_methods).
Local Abbreviation extractValue := (extractValue Array_prototype_methods).

Lemma split_nonempty c s : split c s ≠ [].
Proof.
  destruct s as [|x s]; simpl; [discriminate|].
  destruct (Ascii.eqb x c); [discriminate|]. destruct (split c s); discriminate.
Qed.

(** Splitting at a separator that joins two strings. *)
Lemma split_join c p q :
  split c (p ++ String c q) = (split c p ++ split c q)%list.
Proof.
  induction p as [|x p IH].
  - simpl. rewrite Ascii.eqb_refl. reflexivity.
  - change (String x p ++ String c q) with (String x (p ++ String c q)).
    simpl. rewrite IH. destruct (Ascii.eqb x c); [reflexivity|].
    pose proof (split_nonempty c p) as Hne.
    destruct (split c p) as [|p0 ps]; [contradiction|]. reflexivity.
Qed.

Lemma walk_null keys : keys ≠ [] → walk keys VNull = VNull.
Proof. destruct keys; [contradiction | reflexivity]. Qed.

Lemma walk_app k1 : ∀ k2 v, walk (k1 ++ k2) v = walk k2 (walk k1 v).
Proof.
  induction k1 as [|key k1 IH]; intros k2 v; simpl; [reflexivity|].
  assert (walk k2 VNull = VNull) as Hnull by (destruct k2; reflexivity).
  destruct (truthy v && typeof_object v); [|symmetry; exact Hnull].
  destruct (property Array_prototype_methods key v); [apply IH | symmetry; exact Hnull].
Qed.

(** X10: a path is followed segment by segment: extracting [p.q] gives what
    extracting [q] gives from a response whose body is the value extracted
    by [p] (and so [null] as soon as [p] gives [null]). *)
Theorem extractValue_composes (response : ApiResponse) (p q : string) :
  extractValue response (p ++ "." ++ q)
  = extractValue {| status := status response;
                    statusText := statusText response;
                    headers := headers response;
                    data := extractValue response p;
                    responseTime := responseTime response |} q.
Proof.
  unfold ApiClient.extractValue. simpl.
  change (p ++ "." ++ q) with (p ++ String dot q).
  rewrite split_join. apply walk_app.
Qed.

(** X11: from a body that is not an object or an array ([null], a
    boolean, a number, a text), [extractValue] gives [null] for every path,
    the empty path included: it never returns such a body itself. *)
Theorem extractValue_of_scalar_body (response : ApiResponse) (path : string) :
  match data response with
  | VNull | VBool _ | VNum _ | VStr _ => extractValue response path = VNull
  | _ => True
  end.
Proof.
  unfold ApiClient.extractValue.
  pose proof (split_nonempty dot path) as Hne.
  destruct (split dot path) as [|key keys]; [contradiction|].
  destruct (data response) as [|b|n|s| | | |]; simpl; try exact I; try reflexivity.
  - rewrite andb_false_r. reflexivity.
  - rewrite andb_false_r. reflexivity.
  - rewrite andb_false_r. reflexivity.
Qed.

End ExtractPaths.

(** ** The request context is created once *)
Section LazyContext.
Import ApiClient.

Lemma requests_reuse n : ∀ s id,
  apiContext (run_client s) = Some id → creating s = [] →
  foldl exec s (in_turn (replicate n CallRequest)) = s.
Proof.
  induction n as [|n IH]; intros s id Hc Hp; simpl; [reflexivity|].
  unfold getContext, initialize_resumes. rewrite Hc, Hp. simpl.
  apply (IH s id Hc Hp).
Qed.

(** Requests made while no context is stored each ask for one. *)
Lemma requests_overlap n : ∀ s,
  apiContext (run_client s) = None →
  foldl exec s (replicate n CallRequest)
  = {| run_world := {| fresh := (fresh (run_world s) + n)%nat;
                       live := list_to_set (seq (fresh (run_world s)) n)
                               ∪ live (run_world s) |};
       run_client := run_client s;
       creating := (creating s ++ seq (fresh (run_world s)) n)%list;
       disposing := disposing s |}.
Proof.
  induction n as [|n IH]; intros s Hc.
  - destruct s as [[f l] c p d]. simpl.
    rewrite Nat.add_0_r, app_nil_r, (left_id_L ∅ (∪)). reflexivity.
  - change (foldl exec s (replicate (S n) CallRequest))
      with (foldl exec (getContext s) (replicate n CallRequest)).
    assert (getContext s = initialize s) as -> by (unfold getContext; rewrite Hc; reflexivity).
    rewrite (IH (initialize s)) by exact Hc.
    destruct s as [[f l] c p d]. simpl.
    rewrite <- app_assoc. simpl.
    rewrite (assoc_L (∪)), (comm_L (∪) _ {[f]}).
    replace (S (f + n))%nat with (f + S n)%nat by lia. reflexivity.
Qed.

(** The contexts awaited are stored one after the other, the last one
    staying. *)
Lemma resumes_in_order pending : ∀ s,
  creating s = pending →
  foldl exec s (replicate (length pending) (InitializeResumes 0))
  = {| run_world := run_world s;
       run_client := set_apiContext (from_option Some (apiContext (run_client s))
                                                 (last pending))
                                    (run_client s);
       creating := [];
       disposing := disposing s |}.
Proof.
  induction pending as [|id pending IH]; intros s Hp.
  - destruct s as [w [u t r h a] p d]. simpl in *. subst. reflexivity.
  - change (foldl exec s (replicate (length (id :: pending)) (InitializeResumes 0)))
      with (foldl exec (initialize_resumes 0 s)
                  (replicate (length pending) (InitializeResumes 0))).
    destruct s as [w [u t r h a] p d]. simpl in Hp. subst p.
    unfold initialize_resumes. cbn [creating lookup list_lookup].
    rewrite IH by reflexivity. simpl.
    destruct pending as [|id' pending]; [reflexivity|].
    change (last (id :: id' :: pending)) with (last (id' :: pending)).
    destruct (last (id' :: pending)) eqn:Hlast; [reflexivity|].
    apply last_None in Hlast. discriminate Hlast.
Qed.

(** X12: requests that are awaited in turn share one context: the first
    creates it and the client keeps it; [cleanup] disposes it, a second
    [cleanup] changes nothing, and a request after [cleanup] creates a new
    context.  Requests that overlap, each made before the context of an
    earlier one is stored, each create a context: the client stores the
    one created last, [cleanup] disposes that one, and the others stay
    live. *)
Theorem one_context_for_all_requests
    (url : string) (cfg : option config) (w : world) (n : nat) :
  (let s := foldl exec (started w (new url cfg)) (in_turn (replicate (S n) CallRequest)) in
   let cleaned := foldl exec s (awaited CallCleanup) in
   fresh (run_world s) = S (fresh w) ∧
   apiContext (run_client s) = Some (fresh w) ∧
   live (run_world s) = {[fresh w]} ∪ live w ∧
   foldl exec cleaned (awaited CallCleanup) = cleaned ∧
   (fresh w ∉ live (run_world cleaned)) ∧
   apiContext (run_client (foldl exec cleaned (awaited CallRequest)))
   = Some (S (fresh w))) ∧
  (let s := foldl exec (started w (new url cfg)) (overlapping (S (S n))) in
   let cleaned := foldl exec s (awaited CallCleanup) in
   fresh (run_world s) = (fresh w + S (S n))%nat ∧
   apiContext (run_client s) = Some (fresh w + S n)%nat ∧
   live (run_world s) = list_to_set (seq (fresh w) (S (S n))) ∪ live w ∧
   apiContext (run_client cleaned) = None ∧
   ((fresh w + S n)%nat ∉ live (run_world cleaned)) ∧
   ∀ id, (fresh w ≤ id < fresh w + S n)%nat → id ∈ live (run_world cleaned)).
Proof.
  split.
  - assert (foldl exec (started w (new url cfg)) (in_turn (replicate (S n) CallRequest))
            = {| run_world := {| fresh := S (fresh w); live := {[fresh w]} ∪ live w |};
                 run_client := set_apiContext (Some (fresh w)) (new url cfg);
                 creating := [];
                 disposing := 0 |}) as Hs.
    { change (in_turn (replicate (S n) CallRequest))
        with (awaited CallRequest ++ in_turn (replicate n CallRequest))%list.
      rewrite foldl_app. simpl.
      apply (requests_reuse n _ (fresh w)); reflexivity. }
    rewrite Hs. simpl.
    split_and!; try reflexivity.
    intros Hin. apply elem_of_difference in Hin as [_ Hne].
    apply Hne, elem_of_singleton. reflexivity.
  - assert (foldl exec (started w (new url cfg)) (overlapping (S (S n)))
            = {| run_world := {| fresh := (fresh w + S (S n))%nat;
                                 live := list_to_set (seq (fresh w) (S (S n))) ∪ live w |};
                 run_client := set_apiContext (Some (fresh w + S n)%nat) (new url cfg);
                 creating := [];
                 disposing := 0 |}) as Hs.
    { unfold overlapping. rewrite foldl_app.
      rewrite (requests_overlap (S (S n)) (started w (new url cfg))) by reflexivity.
      cbn [started run_world run_client creating disposing app].
      replace (replicate (S (S n)) (InitializeResumes 0))
        with (replicate (length (seq (fresh w) (S (S n)))) (InitializeResumes 0))
        by (rewrite length_seq; reflexivity).
      rewrite (resumes_in_order (seq (fresh w) (S (S n)))) by reflexivity.
      cbn [run_world run_client creating disposing].
      replace (last (seq (fresh w) (S (S n)))) with (Some (fresh w + S n)%nat).
      - reflexivity.
      - rewrite seq_S, last_snoc. reflexivity. }
    rewrite Hs. cbn [foldl awaited exec]. unfold cleanup, cleanup_resumes.
    cbn [run_world run_client creating disposing apiContext set_apiContext
         fresh live dispose].
    split_and!; try reflexivity.
    + intros Hin. apply elem_of_difference in Hin as [_ Hne].
      apply Hne, elem_of_singleton. reflexivity.
    + intros id Hid. apply elem_of_difference. split.
      * apply elem_of_union_l, elem_of_list_to_set, list_elem_of_In, in_seq. lia.
      * intros Heq. apply elem_of_singleton in Heq. lia.
Qed.

End LazyContext.

(** ** Schema validation *)
Section SchemaValidation.
Import Value ApiClient Schema.
Variable Array_prototype_methods : list string.
Variable function_has : builtin → string → string → bool.

Local Abbreviation property := (property Array_prototype_methods).
Local Abbreviation has_key := (has_key Array_prototype_methods function_has).
Local Abbreviation check_keys := (check_keys Array_prototype_methods function_has).
Local Abbreviation validateSchema :=
  (validateSchema Array_prototype_methods function_has).
Local Abbreviation extractValue := (extractValue Array_prototype_methods).

(** What [key in data] answers when [data] is an object; [None] when it
    throws. *)
Local Abbreviation answers :=
  (fun (data : value) (key : string) =>
     match data with
     | VNull | VBool _ | VNum _ | VStr _ => None
     | VFunction home name => Some (function_has home name key)
     | VArr _ | VObj _ | VProto _ => Some (bool_decide (is_Some (property key data)))
     end).

Lemma check_keys_closed keys data :
  check_keys keys data
  = match keys with
    | [] => Ok true
    | _ :: _ =>
        match answers data "" with
        | None => Throw "TypeError: Cannot use 'in' operator to search for a key in a primitive"
        | Some _ => Ok (forallb (fun key => default false (answers data key)) keys)
        end
    end.
Proof.
  destruct keys as [|key0 keys0]; [reflexivity|].
  destruct data as [|b|n|s|items|fields|home name|pr]; try reflexivity.
  all: generalize (key0 :: keys0) as keys; intros keys;
    induction keys as [|key keys IH]; [reflexivity|];
    simpl in *; rewrite IH;
    match goal with |- context [if ?b then _ else _] => destruct b end;
    try reflexivity; destruct keys; reflexivity.
Qed.

Lemma validateSchema_result (response : ApiResponse) (schema : value) :
  validateSchema response schema
  = Ok match schema_keys schema with
       | None | Some [] => true
       | Some keys =>
           match data response with
           | VNull | VBool _ | VNum _ | VStr _ => false
           | VFunction home name => forallb (function_has home name) keys
           | VArr _ | VObj _ | VProto _ =>
               forallb (fun key => bool_decide (is_Some (property key (data response))))
                       keys
           end
       end.
Proof.
  unfold Schema.validateSchema.
  destruct (schema_keys schema) as [keys|]; [|reflexivity].
  rewrite check_keys_closed.
  destruct keys as [|key keys]; [reflexivity|].
  destruct (data response); reflexivity.
Qed.

(** X13: [validateSchema] never throws.  It accepts every body, [null]
    included, when the schema is not an object or has no key; otherwise it
    rejects every body that is not an object ([null], a boolean, a number,
    a text), and accepts an object exactly when [key in body] holds for
    every key of the schema. *)
Theorem validateSchema_never_throws (response : ApiResponse) (schema : value) :
  ∃ accepted : bool,
    validateSchema response schema = Ok accepted ∧
    (accepted = true ↔
     match schema_keys schema with
     | None | Some [] => True
     | Some keys =>
         match data response with
         | VNull | VBool _ | VNum _ | VStr _ => False
         | VFunction home name =>
             Forall (fun key => function_has home name key = true) keys
         | VArr _ | VObj _ | VProto _ =>
             Forall (fun key => is_Some (property key (data response))) keys
         end
     end).
Proof.
  eexists. split; [apply validateSchema_result|].
  destruct (schema_keys schema) as [[|key keys]|]; [tauto| |tauto].
  destruct (data response) as [|b|n|s|items|fields|home name|pr];
    try (split; [discriminate | contradiction]).
  all: rewrite forallb_forall, Forall_forall; split; intros H x Hx.
  all: first [ apply H, list_elem_of_In, Hx
             | apply bool_decide_eq_true, H, list_elem_of_In, Hx
             | apply (bool_decide_eq_true _), H, list_elem_of_In, Hx ].
Qed.

Lemma split_one c s : Text.has_char c s = false → split c s = [s].
Proof.
  induction s as [|x s IH]; simpl; [reflexivity|].
  intros H. apply orb_false_iff in H as [Hx Hs].
  rewrite Hx, (IH Hs). reflexivity.
Qed.

(** X14: what [validateSchema] accepts can be extracted: when it accepts
    an object or array body, every key of the schema that contains no dot
    is a member of the body, and [extractValue] returns that member. *)
Theorem accepted_keys_are_extractable
    (response : ApiResponse) (schema : value) (keys : list string) (key : string) :
  validateSchema response schema = Ok true →
  schema_keys schema = Some keys →
  key ∈ keys →
  Text.has_char dot key = false →
  match data response with
  | VArr _ | VObj _ =>
      property key (data response) = Some (extractValue response key)
  | _ => True
  end.
Proof.
  intros Hok Hkeys Hin Hdot.
  rewrite validateSchema_result, Hkeys in Hok.
  unfold ApiClient.extractValue. rewrite (split_one dot key Hdot).
  destruct keys as [|k0 ks]; [apply elem_of_nil in Hin; contradiction|].
  destruct (data response) as [| | | |items|fields| |] eqn:Hdata; try exact I.
  all: assert (∀ a b : bool, @Ok bool a = Ok b → a = b) as Hinj
         by (intros a b [=]; assumption);
    apply Hinj in Hok as Hall;
    rewrite forallb_forall in Hall;
    specialize (Hall key (proj1 (list_elem_of_In _ _) Hin));
    apply bool_decide_eq_true in Hall as [x Hx];
    simpl; simpl in Hx; rewrite Hx; reflexivity.
Qed.

End SchemaValidation.

(** X14, witness: the schema [{ "user": null }] on a body with a [user]. *)
Lemma accepted_keys_are_extractable_witness :
  Value.property [] "user" (ApiClient.data Samples.nested_response)
  = Some (ApiClient.extractValue [] Samples.nested_response "user").
Proof.
  apply (accepted_keys_are_extractable [] (fun _ _ _ => false)
           Samples.nested_response ApiSamples.user_schema ["user"] "user").
  - vm_compute. reflexivity.
  - vm_compute. reflexivity.
  - apply list_elem_of_In. left. reflexivity.
  - reflexivity.
Defined.

(** ** The headers of the client *)
Section HeaderObjects.
Import Headers.

Lemma read_alloc_old o st ref :
  well_formed st → is_Some (objects st !! ref) →
  read ref (alloc o st).2 = read ref st ∧ ref ≠ (alloc o st).1.
Proof.
  intros Hwf Href. pose proof (Hwf ref Href) as Hlt.
  unfold read, alloc; simpl.
  rewrite lookup_insert_ne by lia. split; [reflexivity | lia].
Qed.

Lemma read_alloc_new o st :
  well_formed st → read (alloc o st).1 (alloc o st).2 = o.
Proof.
  intros _. unfold read, alloc; simpl. rewrite lookup_insert_eq. reflexivity.
Qed.

Lemma read_assign_other ref other name value st :
  ref ≠ other → read other (assign ref name value st) = read other st.
Proof.
  intros Hne. unfold assign.
  destruct (_ && _); [reflexivity|].
  unfold read; simpl. rewrite lookup_insert_ne by exact Hne. reflexivity.
Qed.

Lemma read_remove_other ref other name st :
  ref ≠ other → read other (removeHeader ref name st) = read other st.
Proof.
  intros Hne. unfold removeHeader, read; simpl.
  rewrite lookup_insert_ne by exact Hne. reflexivity.
Qed.

Lemma read_assign_same ref name value st :
  read ref (assign ref name value st)
  = if String.eqb name "__proto__" && bool_decide (read ref st !! name = None)
    then read ref st
    else <[name := value]> (read ref st).
Proof.
  unfold assign.
  destruct (_ && _); [reflexivity|].
  unfold read at 1; simpl. rewrite lookup_insert_eq. reflexivity.
Qed.

Lemma read_remove_same ref name st :
  read ref (removeHeader ref name st) = delete name (read ref st).
Proof.
  unfold removeHeader. unfold read at 1; simpl.
  rewrite lookup_insert_eq. reflexivity.
Qed.

(** X15: a client built from a configuration with headers holds the very
    object of the configuration: what [setHeader], [setAuthToken] and
    [removeHeader] do to the client shows in the headers of the
    configuration. *)
Theorem client_shares_the_headers_of_its_configuration
    (cfg : nat) (st : store) (name value token : string) (t : auth_type) :
  let '(this, st1) := new (Some cfg) st in
  st1 = st ∧
  (name ≠ "__proto__" → read cfg (setHeader this name value st1) !! name = Some value) ∧
  read cfg (setAuthToken this token t st1) !! "Authorization"
    = Some (auth_type_string t ++ " " ++ token) ∧
  read cfg (removeHeader this name st1) !! name = None.
Proof.
  simpl. split_and!.
  - reflexivity.
  - intros Hname. unfold setHeader. rewrite read_assign_same.
    apply String.eqb_neq in Hname. rewrite Hname. simpl.
    apply lookup_insert_eq.
  - unfold setAuthToken. rewrite read_assign_same. simpl.
    apply lookup_insert_eq.
  - rewrite read_remove_same. apply lookup_delete_eq.
Qed.

(** X16: [getHeaders] hands out a copy: it holds the headers of the client
    at the time of the call, later changes of the client leave it as it
    is, and changing it leaves the client as it is; a client built without
    configured headers shares its headers with no object there was. *)
Theorem getHeaders_returns_a_copy
    (this : nat) (st : store) (name value : string) :
  well_formed st →
  is_Some (objects st !! this) →
  let '(copy, st1) := getHeaders this st in
  let '(other, st2) := new None st in
  read copy st1 = read this st ∧
  read this st1 = read this st ∧
  read copy (setHeader this name value st1) = read this st ∧
  read copy (removeHeader this name st1) = read this st ∧
  read this (assign copy name value st1) = read this st ∧
  read other st2 = ∅ ∧
  read this (setHeader other name value st2) = read this st ∧
  read this (removeHeader other name st2) = read this st.
Proof.
  intros Hwf Hthis.
  unfold getHeaders, new.
  destruct (read_alloc_old (read this st) st this Hwf Hthis) as [Hold Hne].
  destruct (read_alloc_old ∅ st this Hwf Hthis) as [Hold' Hne'].
  pose proof (read_alloc_new (read this st) st Hwf) as Hnew.
  pose proof (read_alloc_new ∅ st Hwf) as Hnew'.
  destruct (alloc (read this st) st) as [copy st1].
  destruct (alloc ∅ st) as [other st2]. simpl in *.
  split_and!.
  - exact Hnew.
  - exact Hold.
  - unfold setHeader. rewrite read_assign_other by exact Hne. exact Hnew.
  - rewrite read_remove_other by exact Hne. exact Hnew.
  - rewrite read_assign_other by (intros E; apply Hne; symmetry; exact E).
    exact Hold.
  - exact Hnew'.
  - unfold setHeader.
    rewrite read_assign_other by (intros E; apply Hne'; symmetry; exact E).
    exact Hold'.
  - rewrite read_remove_other by (intros E; apply Hne'; symmetry; exact E).
    exact Hold'.
Qed.

(** X17: [removeHeader] undoes [setHeader]: the headers are then those
    from before without the name, so unchanged when the name was no header.
    And a header named [__proto__] cannot be added: [setHeader] leaves the
    headers as they are unless the object has that key already. *)
Theorem removeHeader_undoes_setHeader
    (this : nat) (st : store) (name value : string) :
  read this (removeHeader this name (setHeader this name value st))
    = delete name (read this st) ∧
  (read this st !! name = None →
   read this (removeHeader this name (setHeader this name value st)) = read this st) ∧
  (read this st !! "__proto__" = None →
   setHeader this "__proto__" value st = st).
Proof.
  assert (read this (removeHeader this name (setHeader this name value st))
          = delete name (read this st)) as Hdel.
  { rewrite read_remove_same. unfold setHeader. rewrite read_assign_same.
    destruct (_ && _); [reflexivity|]. apply delete_insert_eq. }
  split_and!.
  - exact Hdel.
  - intros Hnone. rewrite Hdel. apply delete_id. exact Hnone.
  - intros Hnone. unfold setHeader, assign.
    rewrite bool_decide_eq_true_2 by exact Hnone. reflexivity.
Qed.

End HeaderObjects.

(** X16, witness: the client whose headers are the object of the
    configuration in [ApiSamples.configured_store]. *)
Lemma getHeaders_returns_a_copy_witness :
  Headers.read 1 (Headers.getHeaders 0 ApiSamples.configured_store).2
  = Headers.read 0 ApiSamples.configured_store.
Proof.
  assert (Headers.well_formed ApiSamples.configured_store) as Hwf.
  { intros ref [o Ho]. simpl in Ho.
    destruct (decide (ref = 0%nat)) as [->|Hne]; [simpl; lia|].
    rewrite lookup_singleton_ne in Ho by (intros E; apply Hne; symmetry; exact E).
    discriminate Ho. }
  assert (is_Some (Headers.objects ApiSamples.configured_store !! 0%nat)) as Hsome.
  { simpl. rewrite lookup_singleton_eq. eexists. reflexivity. }
  exact (proj1 (getHeaders_returns_a_copy 0 ApiSamples.configured_store
                  "Accept" "text/html" Hwf Hsome)).
Defined.

(** ** The timeout of a request *)
Section RequestTimeout.
Import ApiClient Requests.

Lemma num_or_nonzero n d : d ≠ 0%Z → num_or n d ≠ 0%Z.
Proof.
  intros Hd. unfold num_or.
  destruct n as [x|]; [|exact Hd].
  destruct (x =? 0)%Z eqn:Hx; [exact Hd|]. apply Z.eqb_neq. exact Hx.
Qed.

(** X18: no request is sent with the timeout 0, which would mean none:
    a 0 given for the request yields to the timeout of the client, a 0 in
    the configuration to 30000. *)
Theorem no_request_without_timeout
    (url : string) (cfg : option config) (options_timeout : option Z) :
  request_timeout options_timeout (new url cfg) ≠ 0%Z ∧
  request_timeout (Some 0%Z) (new url cfg) = request_timeout None (new url cfg) ∧
  request_timeout None
    (new url (Some {| cfg_timeout := Some 0%Z; cfg_retries := None;
                      cfg_headers := None |})) = 30000%Z.
Proof.
  split_and!; [|reflexivity|reflexivity].
  unfold request_timeout. apply num_or_nonzero.
  unfold new; simpl. apply num_or_nonzero. discriminate.
Qed.

End RequestTimeout.

(** ** The checks of the accessibility report *)
Section AccessibilityReport.
Import Number NumberOrder AccessibilityChecks.

Lemma forallb_constant {A} (f : A → bool) (b : bool) (l : list A) :
  Forall (fun x => f x = b) l →
  forallb f l = match l with [] => true | _ :: _ => b end.
Proof.
  induction 1 as [|x l Hx Hl IH]; [reflexivity|].
  simpl. rewrite Hx, IH. destruct l, b; reflexivity.
Qed.

Lemma contrast_entries (threshold : option number) (p : page) :
  Forall (fun e => contrast e = Fin (9 # 2) ∧
                   entry_passed e = geb (Fin (9 # 2)) (default (Fin (9 # 2)) threshold))
         (contrast_elements (checkColorContrast threshold p)).
Proof.
  apply Forall_lookup. intros i e. simpl.
  rewrite list_lookup_imap. destruct (text_elements p !! i) as [el|]; [|discriminate].
  simpl. intros [= <-]. split; reflexivity.
Qed.

Lemma contrast_verdict (threshold : option number) (p : page) :
  contrast_passed (checkColorContrast threshold p)
  = match text_elements p with
    | [] => true
    | _ :: _ => geb (Fin (9 # 2)) (default (Fin (9 # 2)) threshold)
    end.
Proof.
  pose proof (contrast_entries threshold p) as Hall.
  change (contrast_passed (checkColorContrast threshold p))
    with (forallb entry_passed (contrast_elements (checkColorContrast threshold p))).
  rewrite (forallb_constant entry_passed
             (geb (Fin (9 # 2)) (default (Fin (9 # 2)) threshold))).
  - simpl. destruct (text_elements p); reflexivity.
  - eapply Forall_impl; [exact Hall|]. intros e [_ He]. exact He.
Qed.

(** X19: the colours of the page do not enter the contrast check: every
    element is given the contrast 4.5, so the check passes on every page
    with the default threshold, and with another threshold the verdict is
    the same for all pages that have a text element. *)
Theorem color_contrast_ignores_the_colours (threshold : option number) (p : page) :
  let r := checkColorContrast threshold p in
  length (contrast_elements r) = length (text_elements p) ∧
  Forall (fun e => contrast e = Fin (9 # 2)) (contrast_elements r) ∧
  contrast_passed r
  = match text_elements p with
    | [] => true
    | _ :: _ => geb (Fin (9 # 2)) (default (Fin (9 # 2)) threshold)
    end ∧
  contrast_passed (checkColorContrast None p) = true.
Proof.
  split_and!.
  - simpl. apply length_imap.
  - eapply Forall_impl; [apply contrast_entries|]. intros e [He _]. exact He.
  - apply contrast_verdict.
  - rewrite contrast_verdict. destruct (text_elements p); reflexivity.
Qed.


Lemma heading_loop_app (hs : list heading) (index previousLevel : nat)
    (issues : list string) :
  heading_loop index previousLevel hs issues
  = (issues ++ heading_loop index previousLevel hs [])%list.
Proof.
  revert index previousLevel issues.
  induction hs as [|h rest IH]; intros index previousLevel issues; simpl.
  - rewrite app_nil_r. reflexivity.
  - rewrite (IH _ _ (issues ++ _)%list), (IH _ _ (heading_step _ _ _)).
    rewrite app_assoc. reflexivity.
Qed.

Lemma heading_step_nil (index previousLevel : nat) (h : heading) :
  heading_step index previousLevel h = []
  ↔ (index = 0%nat → level h = 1%nat) ∧
    (level h ≤ previousLevel + 1)%nat ∧
    heading_text h ≠ "".
Proof.
  unfold heading_step. cbv zeta.
  destruct (Nat.eqb_spec index 0) as [Hi|Hi],
    (Nat.eqb_spec (level h) 1) as [Hl|Hl],
    (Z.ltb_spec 1 (Z.of_nat (level h) - Z.of_nat previousLevel)) as [Hj|Hj],
    (String.eqb_spec (heading_text h) "") as [Ht|Ht]; simpl.
  all: split; [try discriminate | intros (H1 & H2 & H3)].
  all: try (exfalso; first [ apply H3; exact Ht | lia | apply Hl, H1, Hi ]).
  all: try reflexivity.
  all: intros _; split_and!; [intros; lia | lia | exact Ht].
Qed.

Lemma heading_loop_nil (hs : list heading) (index previousLevel : nat) :
  heading_loop index previousLevel hs [] = []
  ↔ (∀ h, index = 0%nat → head hs = Some h → level h = 1%nat) ∧
    (∀ h, head hs = Some h → (level h ≤ previousLevel + 1)%nat) ∧
    (∀ i h, hs !! i = Some h → heading_text h ≠ "") ∧
    (∀ i h h', hs !! i = Some h → hs !! S i = Some h' →
               (level h' ≤ level h + 1)%nat).
Proof.
  revert index previousLevel.
  induction hs as [|h rest IH]; intros index previousLevel.
  - simpl. split; [|reflexivity]. intros _.
    split_and!; intros; discriminate.
  - simpl. rewrite heading_loop_app.
    split.
    + intros Happ. apply app_eq_nil in Happ as [Hstep Hrest].
      apply heading_step_nil in Hstep as (H1 & H2 & H3).
      apply IH in Hrest as (_ & R2 & R3 & R4).
      split_and!.
      * intros h0 Hi [= <-]. exact (H1 Hi).
      * intros h0 [= <-]. exact H2.
      * intros [|i] h0 Hh0; simpl in Hh0; [injection Hh0 as <-; exact H3|].
        exact (R3 i h0 Hh0).
      * intros [|i] h0 h1 Hh0 Hh1; simpl in Hh0, Hh1.
        -- injection Hh0 as <-. apply R2. destruct rest; [discriminate|].
           simpl in *. exact Hh1.
        -- exact (R4 i h0 h1 Hh0 Hh1).
    + intros (H1 & H2 & H3 & H4).
      assert (heading_step index previousLevel h = []) as ->.
      { apply heading_step_nil. split_and!.
        - intros Hi. exact (H1 h Hi eq_refl).
        - exact (H2 h eq_refl).
        - exact (H3 0%nat h eq_refl). }
      simpl. apply IH. split_and!.
      * intros h0 Hi. discriminate Hi.
      * intros h0 Hh0. apply (H4 0%nat h h0 eq_refl).
        destruct rest; [discriminate|]. simpl in *. exact Hh0.
      * intros i h0 Hh0. exact (H3 (S i) h0 Hh0).
      * intros i h0 h1 Hh0 Hh1. exact (H4 (S i) h0 h1 Hh0 Hh1).
Qed.

Lemma levels_rise_by_one (hs : list heading) (first : heading) :
  head hs = Some first → level first = 1%nat →
  (∀ i h h', hs !! i = Some h → hs !! S i = Some h' → (level h' ≤ level h + 1)%nat) →
  ∀ i h, hs !! i = Some h → (level h ≤ i + 1)%nat.
Proof.
  intros Hhead Hfirst Hstep i.
  induction i as [|i IH]; intros h Hh.
  - destruct hs as [|h0 rest]; [discriminate|].
    simpl in *. injection Hhead as <-. injection Hh as <-. lia.
  - destruct (hs !! i) as [h0|] eqn:Hi.
    + pose proof (IH h0 eq_refl). pose proof (Hstep i h0 h Hi Hh). lia.
    + apply lookup_ge_None in Hi. apply lookup_lt_Some in Hh. lia.
Qed.

(** X21: the heading check passes exactly when the page has a heading, the
    first heading is an [h1], no heading is empty once trimmed, and no
    heading lies more than one level below the heading before it; on a
    page that passes, the heading at index [i] has a level of at most
    [i + 1].
    A page without headings has the one issue that says so, and a page
    that starts below [h1] has two issues for its first heading, the second
    being a jump from a level [h0]. *)
Theorem heading_check_passes_iff (p : page) :
  let r := checkHeadingStructure p in
  (heading_passed r = true
   ↔ headings p ≠ [] ∧
     (∀ h, head (headings p) = Some h → level h = 1%nat) ∧
     (∀ i h, headings p !! i = Some h → heading_text h ≠ "") ∧
     (∀ i h h', headings p !! i = Some h → headings p !! S i = Some h' →
                (level h' ≤ level h + 1)%nat)) ∧
  (heading_passed r = true →
   ∀ i h, headings p !! i = Some h → (level h ≤ i + 1)%nat) ∧
  match headings p with
  | [] => heading_issues r = ["No headings found on page"]
  | h :: _ =>
      if (2 <=? level h)%nat
      then take 2 (heading_issues r)
           = ["First heading should be h1"; jump_message 0 (level h) (heading_text h)]
      else True
  end.
Proof.
  assert (heading_passed (checkHeadingStructure p) = true
          ↔ headings p ≠ [] ∧
            (∀ h, head (headings p) = Some h → level h = 1%nat) ∧
            (∀ i h, headings p !! i = Some h → heading_text h ≠ "") ∧
            (∀ i h h', headings p !! i = Some h → headings p !! S i = Some h' →
                       (level h' ≤ level h + 1)%nat)) as Hiff.
  { unfold checkHeadingStructure. cbv zeta. cbn [heading_passed].
    destruct (headings p) as [|h0 rest] eqn:Hhs.
    - simpl. split; [discriminate|]. intros [Hne _]. contradiction.
    - cbn [length Nat.eqb].
      rewrite Nat.eqb_eq, length_zero_iff_nil, heading_loop_nil.
      split.
      + intros (H1 & H2 & H3 & H4). split_and!; [discriminate| |exact H3|exact H4].
        intros h Hh. exact (H1 h eq_refl Hh).
      + intros (_ & H1 & H3 & H4). split_and!; [|  |exact H3|exact H4].
        * intros h _ Hh. exact (H1 h Hh).
        * intros h Hh. rewrite (H1 h Hh). lia. }
  split_and!.
  - exact Hiff.
  - intros Hpass. apply Hiff in Hpass as (Hne & H1 & _ & H4).
    destruct (headings p) as [|h0 rest] eqn:Hhs; [contradiction|].
    apply (levels_rise_by_one (h0 :: rest) h0 eq_refl (H1 h0 eq_refl) H4).
  - unfold checkHeadingStructure. cbv zeta. cbn [heading_issues].
    destruct (headings p) as [|h0 rest]; [reflexivity|].
    destruct (2 <=? level h0)%nat eqn:Hl; [|exact I].
    apply Nat.leb_le in Hl.
    cbn [length Nat.eqb heading_loop]. rewrite heading_loop_app.
    unfold heading_step. cbv zeta.
    replace (level h0 =? 1)%nat with false by (symmetry; apply Nat.eqb_neq; lia).
    replace (1 <? Z.of_nat (level h0) - Z.of_nat 0)%Z with true
      by (symmetry; apply Z.ltb_lt; lia).
    reflexivity.
Qed.

Lemma trim_empty_text (s : string) : s = "" → Text.trim s = "".
Proof. intros ->. reflexivity. Qed.

Lemma image_issue_none (img : image) :
  image_issue img = None
  ↔ Text.trim (alt img) ≠ "" ∧ (String.length (alt img) ≤ 125)%nat.
Proof.
  unfold image_issue. cbv zeta.
  destruct (String.eqb (alt img) "") eqn:Ha.
  - apply String.eqb_eq in Ha. split; [discriminate|].
    intros [Hne _]. exfalso. apply Hne, trim_empty_text, Ha.
  - destruct (String.eqb (Text.trim (alt img)) "") eqn:Ht.
    + apply String.eqb_eq in Ht. split; [discriminate|].
      intros [Hne _]. contradiction.
    + apply String.eqb_neq in Ht.
      destruct (125 <? String.length (alt img))%nat eqn:Hl.
      * apply Nat.ltb_lt in Hl. split; [discriminate|]. intros [_ Hle]. lia.
      * apply Nat.ltb_ge in Hl. split; [|reflexivity]. intros _. split; assumption.
Qed.

Lemma omap_none_iff {A B} (f : A → option B) (l : list A) :
  omap f l = [] ↔ Forall (fun x => f x = None) l.
Proof.
  induction l as [|x l IH]; simpl.
  - split; [constructor | reflexivity].
  - destruct (f x) eqn:Hx.
    + split; [discriminate|]. intros H. inversion H; congruence.
    + rewrite IH. split; [intros H; constructor; assumption|].
      intros H. inversion H; assumption.
Qed.

Lemma omap_shorter {A B} (f : A → option B) (l : list A) :
  (length (omap f l) ≤ length l)%nat.
Proof.
  induction l as [|x l IH]; simpl; [lia|].
  unfold omap in IH. destruct (f x); simpl; lia.
Qed.

(** X22: the alt-text check reports at most one issue for an image, and
    passes exactly when every image has an alt text that is not blank and
    has at most 125 code units.  An image with the empty alt text is
    reported as missing its alt attribute. *)
Theorem alt_text_check_passes_iff (p : page) :
  let r := checkImageAltText p in
  totalImages r = length (images p) ∧
  (length (alt_issues r) ≤ totalImages r)%nat ∧
  (alt_passed r = true
   ↔ Forall (fun img => Text.trim (alt img) ≠ "" ∧
                        (String.length (alt img) ≤ 125)%nat) (images p)) ∧
  (∀ img, img ∈ images p → alt img = "" →
          {| issue_src := or_else (Some (src img)) "unknown";
             issue := "Missing alt attribute" |} ∈ alt_issues r).
Proof.
  simpl. split_and!.
  - reflexivity.
  - apply omap_shorter.
  - rewrite Nat.eqb_eq, length_zero_iff_nil, omap_none_iff.
    split; intros H; (eapply Forall_impl; [exact H|]);
      intros img Himg; apply image_issue_none; exact Himg.
  - intros img Hin Halt. apply list_elem_of_omap.
    exists img. split; [exact Hin|].
    unfold image_issue. rewrite Halt. reflexivity.
Qed.

Lemma first_fields :
  map first_field landmarkSelectors
  = ["header"; "nav"; "main"; "footer"; "aside"; "section"].
Proof. vm_compute. reflexivity. Qed.

Lemma filtered_fields_sublist {A B} (g : A → B) (f : A → bool) (l : list A) :
  sublist (map g (List.filter f l)) (map g l).
Proof.
  induction l as [|x l IH]; simpl; [constructor|].
  destruct (f x); simpl; [apply sublist_skip | apply sublist_cons]; exact IH.
Qed.

Lemma landmark_named (p : page) (sel : string) :
  sel ∈ landmarkSelectors → (0 < matching p sel)%nat →
  first_field sel ∈ landmarks (checkARIALandmarks p).
Proof.
  intros Hsel Hpos. unfold checkARIALandmarks. cbv zeta. cbn [landmarks].
  apply list_elem_of_In, in_map, filter_In. split.
  - apply list_elem_of_In. exact Hsel.
  - apply Nat.ltb_lt. exact Hpos.
Qed.

Lemma landmark_verdict (p : page) :
  landmark_passed (checkARIALandmarks p) = true
  ↔ matching p (tag_or_role "main" "main") = 1%nat ∧
    (1 ≤ matching p (tag_or_role "nav" "navigation"))%nat.
Proof.
  unfold checkARIALandmarks. cbv zeta. cbn [landmark_passed].
  destruct (matching p (tag_or_role "main" "main")) as [|[|m]],
    (matching p (tag_or_role "nav" "navigation")) as [|n]; simpl.
  all: split; [try discriminate; intros _; lia | try reflexivity; lia].
Qed.

(** X23: the landmarks that the landmark check reports are tag names among
    [header], [nav], [main], [footer], [aside], [section], in this order
    and each at most once, also for an element that is a landmark by its
    role.  The check passes exactly when one element is a main landmark and
    at least one a navigation landmark, and then it reports [main] and
    [nav]; it makes at most two recommendations. *)
Theorem landmark_check_passes_iff (p : page) :
  let r := checkARIALandmarks p in
  sublist (landmarks r) ["header"; "nav"; "main"; "footer"; "aside"; "section"] ∧
  (landmark_passed r = true
   ↔ matching p (tag_or_role "main" "main") = 1%nat ∧
     (1 ≤ matching p (tag_or_role "nav" "navigation"))%nat) ∧
  (landmark_passed r = true → "main" ∈ landmarks r ∧ "nav" ∈ landmarks r) ∧
  (length (recommendations r) ≤ 2)%nat.
Proof.
  split_and!.
  - rewrite <- first_fields. apply filtered_fields_sublist.
  - apply landmark_verdict.
  - intros Hpass. apply landmark_verdict in Hpass as [Hmain Hnav].
    split.
    + apply (landmark_named p (tag_or_role "main" "main")); [|lia].
      apply list_elem_of_In. vm_compute. tauto.
    + apply (landmark_named p (tag_or_role "nav" "navigation")); [|lia].
      apply list_elem_of_In. vm_compute. tauto.
  - unfold checkARIALandmarks. cbv zeta. cbn [recommendations].
    destruct (matching p (tag_or_role "main" "main") =? 0)%nat,
      (1 <? matching p (tag_or_role "main" "main"))%nat,
      (matching p (tag_or_role "nav" "navigation") =? 0)%nat; simpl; lia.
Qed.

(** X24: a threshold of 0 is no threshold: with [minimumScore] and
    [maxViolations] absent, 0 or not a number, the score and the number of
    violations of the report are not looked at, so that a maximum of 0
    violations accepts a report with violations. *)
Theorem falsy_thresholds_are_not_checked (r : report) (s : standards) :
  truthy (minimumScore s) = false →
  truthy (maxViolations s) = false →
  validateAccessibilityStandards r s
  = validateAccessibilityStandards r
      {| minimumScore := None; maxViolations := None;
         requiredLandmarks := requiredLandmarks s |} ∧
  (requiredLandmarks s = None → validateAccessibilityStandards r s = (true, [])).
Proof.
  intros Hmin Hmax. unfold validateAccessibilityStandards. cbv zeta.
  rewrite Hmin, Hmax. simpl. split; [reflexivity|].
  intros ->. reflexivity.
Qed.

Lemma includes_elem (l : list string) (x : string) :
  includes l x = true ↔ x ∈ l.
Proof.
  unfold includes. rewrite existsb_exists, list_elem_of_In. split.
  - intros (y & Hy & Hxy). apply String.eqb_eq in Hxy. subst. exact Hy.
  - intros Hx. exists x. split; [exact Hx | apply String.eqb_refl].
Qed.

(** X25: the landmarks that a standard requires are compared with the tag
    names that the landmark check reports: requiring a landmark under
    another name, such as the role [banner], fails on every page, with
    and without such a landmark. *)
Theorem required_landmarks_are_tag_names
    (p : page) (axe_violations : nat) (keyboardNavigation formAccessibility : bool)
    (s : standards) (required : list string) (name : string) :
  requiredLandmarks s = Some required →
  name ∈ required →
  name ∉ ["header"; "nav"; "main"; "footer"; "aside"; "section"] →
  (validateAccessibilityStandards
     (generateAccessibilityReport p axe_violations keyboardNavigation formAccessibility)
     s).1 = false.
Proof.
  intros Hreq Hname Hnot.
  unfold validateAccessibilityStandards. cbv zeta. rewrite Hreq.
  cbn [fst]. apply Nat.eqb_neq.
  rewrite !length_app.
  set (missing := List.filter _ required).
  assert (name ∈ missing) as Hmissing.
  { apply list_elem_of_In, filter_In. split; [apply list_elem_of_In, Hname|].
    apply negb_true_iff, not_true_iff_false. intros Hin.
    apply includes_elem in Hin. apply Hnot.
    eapply elem_of_sublist; [exact Hin|].
    cbn [generateAccessibilityReport report_landmarks].
    rewrite <- first_fields. apply filtered_fields_sublist. }
  destruct missing as [|m ms]; [apply elem_of_nil in Hmissing; contradiction|].
  simpl. lia.
Qed.

End AccessibilityReport.

(** X24, witness: a report with three violations and the standard of no
    violation at all. *)
Lemma falsy_thresholds_are_not_checked_witness :
  AccessibilityChecks.validateAccessibilityStandards
    (AccessibilityChecks.generateAccessibilityReport PageSamples.news_page 3 true true)
    {| AccessibilityChecks.minimumScore := None;
       AccessibilityChecks.maxViolations := Some (Number.Fin 0);
       AccessibilityChecks.requiredLandmarks := None |}
  = (true, []).
Proof.
  exact (proj2 (falsy_thresholds_are_not_checked
                  (AccessibilityChecks.generateAccessibilityReport
                     PageSamples.news_page 3 true true)
                  {| AccessibilityChecks.minimumScore := None;
                     AccessibilityChecks.maxViolations := Some (Number.Fin 0);
                     AccessibilityChecks.requiredLandmarks := None |}
                  eq_refl eq_refl) eq_refl).
Defined.

(** X25, witness: requiring the landmark [banner]. *)
Lemma required_landmarks_are_tag_names_witness :
  (AccessibilityChecks.validateAccessibilityStandards
     (AccessibilityChecks.generateAccessibilityReport PageSamples.news_page 0 true true)
     {| AccessibilityChecks.minimumScore := None;
        AccessibilityChecks.maxViolations := None;
        AccessibilityChecks.requiredLandmarks := Some ["banner"] |}).1 = false.
Proof.
  apply (required_landmarks_are_tag_names PageSamples.news_page 0 true true
           _ ["banner"] "banner").
  - reflexivity.
  - apply list_elem_of_In. left. reflexivity.
  - intros Hin. apply list_elem_of_In in Hin. simpl in Hin.
    repeat destruct Hin as [Hin|Hin]; try discriminate Hin. exact Hin.
Defined.
